(** * humanitarian-chat: messaging, delivery state and offline replay

    A shallow embedding of the parts of the repository that move a message
    from a client to the members of a group:

    - [config/database.js]   the SQLite schema and the promise wrappers
                               [runQuery], [getQuery], [allQuery];
    - [middleware/auth.js]   [canAccessGroup], [authenticateToken],
                               [authenticateSocket], [requireRole];
    - [routes/messages.js]   list, create, search, edit, delete, add-tags
                               and status routes;
    - [routes/groups.js]     the group list and the add-member route;
    - [server.js]            the socket handlers;
    - [public/js/offline.js] the [OfflineManager] retry queue and cache;
    - [public/js/app.js]     the page's own queue of unsent messages.

    Tables are lists of rows in insertion order.  Every storage call goes
    through a small state-and-exception monad whose state is the database
    together with the number of storage calls issued so far; a fault
    predicate says which of those calls the storage engine rejects.

    What the libraries around the code decide is a parameter of the
    routes that depend on it: the [trim] sanitizer and the [isISO8601]
    validator of express-validator, [jwt.verify], and of SQLite its LIKE,
    the order in which GROUP_CONCAT meets the rows of a group, and the
    comparison of a stored [created_at] with the text of a bound
    parameter.  Numbers that reach a handler through [parseInt] are
    doubles.  On the client, a request on an IndexedDB object store takes
    effect only while the transaction it goes through is open. *)

From Stdlib Require Import ZArith List String Ascii Bool Lia Sorted Permutation.
From stdpp Require Import gmap strings list.
Import ListNotations.

Local Open Scope string_scope.
Local Open Scope Z_scope.
Local Open Scope list_scope.

(** ** The durable store (config/database.js) *)

Module Store.

(** [CURRENT_TIMESTAMP] and [Date.now()] are read from a clock the handlers
    receive as an argument, one reading per request or event. *)
Definition timestamp := Z.

Record user_row := {
  u_id : Z;
  u_name : string;
  u_role : string;           (* 'admin' | 'field_staff' | 'volunteer' *)
  u_status : string
}.

Record group_row := {
  g_id : Z;
  g_name : string;
  g_created_by : option Z    (* created_by INTEGER, nullable *)
}.

(** group_members: UNIQUE(group_id, user_id). *)
Record member_row := {
  gm_group : Z;
  gm_user : Z;
  gm_role : string           (* 'member' | 'moderator' | 'admin' *)
}.

Record message_row := {
  m_id : Z;                  (* INTEGER PRIMARY KEY AUTOINCREMENT *)
  m_sender : Z;
  m_group : Z;
  m_content : string;
  m_type : string;
  m_reply_to : option Z;
  m_edited_at : option timestamp;
  m_created_at : timestamp
}.

(** message_tags: the schema declares no UNIQUE constraint.  The
    autoincrement row id of this table and of message_status is read by no
    query of the repository and is left out of the rows. *)
Record tag_row := {
  mt_message : Z;
  mt_type : string;
  mt_value : option string;
  mt_created_by : Z
}.

(** message_status: UNIQUE(message_id, user_id). *)
Record status_row := {
  ms_message : Z;
  ms_user : Z;
  ms_read_at : option timestamp;
  ms_delivered_at : timestamp
}.

Record DB := {
  users : list user_row;
  groups : list group_row;
  group_members : list member_row;
  messages : list message_row;
  seq_messages : Z;          (* sqlite_sequence entry of messages *)
  message_tags : list tag_row;
  message_status : list status_row
}.

Definition set_messages (d : DB) (ms : list message_row) (s : Z) : DB :=
  {| users := users d; groups := groups d; group_members := group_members d;
     messages := ms; seq_messages := s;
     message_tags := message_tags d; message_status := message_status d |}.

Definition set_message_tags (d : DB) (ts : list tag_row) : DB :=
  {| users := users d; groups := groups d; group_members := group_members d;
     messages := messages d; seq_messages := seq_messages d;
     message_tags := ts; message_status := message_status d |}.

Definition set_message_status (d : DB) (ss : list status_row) : DB :=
  {| users := users d; groups := groups d; group_members := group_members d;
     messages := messages d; seq_messages := seq_messages d;
     message_tags := message_tags d; message_status := ss |}.

(** *** Conflict resolution of INSERT

    [conflict new old] says that [new] collides with the stored row [old]
    on a UNIQUE constraint of the table. *)
Section Insert.
Context {R : Type} (conflict : R -> R -> bool).

(** Plain INSERT: a collision aborts the statement ([None]). *)
Definition insert_abort (row : R) (t : list R) : option (list R) :=
  if existsb (conflict row) t then None else Some (t ++ [row]).

(** INSERT OR IGNORE: a colliding row is skipped. *)
Definition insert_or_ignore (row : R) (t : list R) : list R :=
  if existsb (conflict row) t then t else t ++ [row].

(** INSERT OR REPLACE: the stored rows that collide are deleted first. *)
Definition insert_or_replace (row : R) (t : list R) : list R :=
  List.filter (fun old => negb (conflict row old)) t ++ [row].

(** INSERT ... SELECT feeds the selected rows one at a time. *)
Fixpoint insert_abort_all (rows : list R) (t : list R) : option (list R) :=
  match rows with
  | [] => Some t
  | r :: rows' =>
      match insert_abort r t with
      | None => None
      | Some t' => insert_abort_all rows' t'
      end
  end.

Definition insert_or_replace_all (rows : list R) (t : list R) : list R :=
  fold_left (fun acc r => insert_or_replace r acc) rows t.
End Insert.

(** UNIQUE(message_id, user_id) of message_status. *)
Definition status_conflict (a b : status_row) : bool :=
  (ms_message a =? ms_message b) && (ms_user a =? ms_user b).

(** message_tags has no UNIQUE constraint: nothing ever collides. *)
Definition tag_conflict (a b : tag_row) : bool := false.

(** *** Storage calls *)

Inductive error := StorageError | ConstraintError | MismatchError | TypeError.

Inductive outcome (A : Type) :=
| Ok (a : A)
| Throw (e : error).
Arguments Ok {A} a.
Arguments Throw {A} e.

Record world := {
  w_db : DB;
  w_calls : nat              (* storage calls issued so far *)
}.

Definition M (A : Type) := world -> outcome A * world.

Definition ret {A} (a : A) : M A := fun w => (Ok a, w).

Definition throw {A} (e : error) : M A := fun w => (Throw e, w).

Definition bind {A B} (m : M A) (k : A -> M B) : M B :=
  fun w =>
    match m w with
    | (Ok a, w') => k a w'
    | (Throw e, w') => (Throw e, w')
    end.

(** try { m } catch (e) { h e } *)
Definition try_catch {A} (m : M A) (h : error -> M A) : M A :=
  fun w =>
    match m w with
    | (Ok a, w') => (Ok a, w')
    | (Throw e, w') => h e w'
    end.

Declare Scope store_scope.
Delimit Scope store_scope with store.
Notation "x <- m ;; k" := (bind m (fun x => k))
  (at level 100, m at next level, right associativity) : store_scope.
Notation "m ;;; k" := (bind m (fun _ => k))
  (at level 100, right associativity) : store_scope.

Section Faults.
(** [fails n] holds when the storage engine rejects the [n]-th call
    (disk full, SQLITE_BUSY, ...). *)
Variable fails : nat -> bool.

Definition bump (w : world) (d : DB) : world :=
  {| w_db := d; w_calls := S (w_calls w) |}.

(** [runQuery]: one auto-committed statement.  A statement that violates
    a constraint is rolled back by SQLite and rejects the promise. *)
Definition runQuery {A} (stmt : DB -> option (A * DB)) : M A :=
  fun w =>
    if fails (w_calls w) then (Throw StorageError, bump w (w_db w))
    else match stmt (w_db w) with
         | Some (a, d') => (Ok a, bump w d')
         | None => (Throw ConstraintError, bump w (w_db w))
         end.

(** [getQuery] / [allQuery]: a read. *)
Definition getQuery {A} (q : DB -> A) : M A :=
  fun w =>
    if fails (w_calls w) then (Throw StorageError, bump w (w_db w))
    else (Ok (q (w_db w)), bump w (w_db w)).

Definition allQuery {A} (q : DB -> list A) : M (list A) := getQuery q.
End Faults.

(** A call the engine refuses whatever the tables hold. *)
Definition refused {A} (e : error) : M A :=
  fun w => (Throw e, bump w (w_db w)).

(** No storage call fails. *)
Definition no_fault : nat -> bool := fun _ => false.


Definition start (d : DB) : world := {| w_db := d; w_calls := 0 |}.

End Store.

(** ** Group access (middleware/auth.js) *)

Module Auth.
Import Store.
Local Open Scope store_scope.

(** The row of the access query:
    SELECT gm.role, g.created_by, u.role as user_role. *)
Record membership := {
  role : string;
  created_by : option Z;
  user_role : string
}.

(** FROM group_members gm JOIN groups g ON gm.group_id = g.id
    JOIN users u ON gm.user_id = u.id
    WHERE gm.user_id = ? AND gm.group_id = ? *)
Definition membership_rows (userId groupId : Z) (d : DB) : list membership :=
  flat_map (fun gm =>
    flat_map (fun g =>
      List.map (fun u =>
        {| role := gm_role gm; created_by := g_created_by g;
           user_role := u_role u |})
        (List.filter (fun u => gm_user gm =? u_id u) (users d)))
      (List.filter (fun g => gm_group gm =? g_id g) (groups d)))
    (List.filter (fun gm => (gm_user gm =? userId) && (gm_group gm =? groupId))
       (group_members d)).

(** [db.get] hands back the first row, or undefined. *)
Definition membership_query (userId groupId : Z) (d : DB) : option membership :=
  head (membership_rows userId groupId d).

(** Array.prototype.includes on strings. *)
Definition includes (l : list string) (s : string) : bool :=
  existsb (String.eqb s) l.

(** membership.created_by === userId *)
Definition is_creator (m : membership) (userId : Z) : bool :=
  match created_by m with
  | Some c => c =? userId
  | None => false
  end.

(** The switch on [action]. *)
Definition action_policy (m : membership) (action : string) : bool :=
  if String.eqb action "read" then true
  else if String.eqb action "write" then true
  else if String.eqb action "delete" then includes ["admin"; "moderator"] (role m)
  else if String.eqb action "manage" then includes ["admin"; "moderator"] (role m)
  else false.

Section WithFaults.
Variable fails : nat -> bool.

Definition canAccessGroup (userId groupId : Z) (action : string) : M bool :=
  try_catch
    (membership <- getQuery fails (membership_query userId groupId) ;;
     match membership with
     | None => ret false
     | Some m =>
         if String.eqb (user_role m) "admin" then ret true
         else if is_creator m userId then ret true
         else ret (action_policy m action)
     end)
    (fun _ => ret false).
End WithFaults.

End Auth.

(** ** Strings as SQLite and JavaScript build and cut them *)

Module Str.

(** [s.split(c)] for a one-character separator: never the empty array. *)
Fixpoint split_on (c : ascii) (s : string) : list string :=
  match s with
  | EmptyString => [EmptyString]
  | String a s' =>
      if Ascii.eqb a c then EmptyString :: split_on c s'
      else match split_on c s' with
           | [] => [String a EmptyString]
           | h :: t => String a h :: t
           end
  end.

(** GROUP_CONCAT(x): the values joined by a comma; NULL for no value. *)
Fixpoint join_with (sep : string) (l : list string) : string :=
  match l with
  | [] => EmptyString
  | [x] => x
  | x :: l' => String.append x (String.append sep (join_with sep l'))
  end.

Definition group_concat (l : list string) : option string :=
  match l with
  | [] => None
  | _ => Some (join_with "," l)
  end.

(** JavaScript truthiness of a string. *)
Definition truthy (s : string) : bool :=
  match s with
  | EmptyString => false
  | _ => true
  end.

(** [s || null] *)
Definition or_null (s : string) : option string :=
  if truthy s then Some s else None.

(** COALESCE(v, '') *)
Definition coalesce (v : option string) : string :=
  match v with
  | Some s => s
  | None => EmptyString
  end.

Definition has_char (c : ascii) (s : string) : bool :=
  existsb (Ascii.eqb c) (list_ascii_of_string s).

(** The double nearest to a natural number, ties to the even mantissa:
    what [parseInt] makes of a decimal numeral, and [+] of an exact sum. *)
Definition to_double (n : Z) : Z :=
  if n <? 2 ^ 53 then n
  else
    let k := Z.log2 n - 52 in
    let q := Z.shiftr n k in
    let r := n - Z.shiftl q k in
    let half := Z.shiftl 1 (k - 1) in
    Z.shiftl (if r <? half then q
              else if half <? r then q + 1
              else if Z.even q then q else q + 1) k.

End Str.

(** ** Sorting for ORDER BY *)

Module Order.

Section Sort.
Context {A : Type} (before : A -> A -> bool).

Fixpoint insert_sorted (x : A) (l : list A) : list A :=
  match l with
  | [] => [x]
  | y :: l' => if before y x then y :: insert_sorted x l' else x :: y :: l'
  end.

(** Rows with equal keys keep their table order. *)
Definition order_by (l : list A) : list A :=
  fold_right insert_sorted [] l.
End Sort.

(** [before] for ORDER BY col DESC on a nullable column: strictly greater
    comes first, and NULL sorts below every value. *)
Definition desc_before (a b : option Z) : bool :=
  match a, b with
  | Some x, Some y => y <? x
  | Some _, None => true
  | None, _ => false
  end.

End Order.

(** ** Message routes (routes/messages.js) *)

Module Messages.
Import Store Auth Str.
Local Open Scope store_scope.

(** What a route sends back: [res.status(code).json(body)]. *)
Inductive response (A : Type) :=
| Json (status : Z) (body : A)
| Failure (status : Z) (error : string).
Arguments Json {A} status body.
Arguments Failure {A} status error.

Definition status_of {A} (r : response A) : Z :=
  match r with
  | Json s _ => s
  | Failure s _ => s
  end.

(** [response.ok] as [fetch] computes it. *)
Definition response_ok {A} (r : response A) : bool :=
  (200 <=? status_of r) && (status_of r <=? 299).

(** The outer try/catch of a route: any exception answers 500. *)
Definition catch_500 {A} (msg : string) (m : M (response A))
  : world -> response A * world :=
  fun w =>
    match m w with
    | (Ok r, w') => (r, w')
    | (Throw _, w') => (Failure 500 msg, w')
    end.

(** *** Tag views *)

Definition tag_text (mt : tag_row) : string :=
  String.append (mt_type mt) (String.append ":" (coalesce (mt_value mt))).

(** The queries that concatenate the tags of a message. *)
Inductive concat_site := InCreate | InList | InSearch.

(** What SQLite decides by rules of its own.  GROUP_CONCAT meets the rows
    of a group in an order of the engine's choosing, which may differ from
    query to query and from state to state: [visit] is that order.  The
    column [created_at] holds the text of [CURRENT_TIMESTAMP] under the
    declared type DATETIME, and [compare_created] is how the engine orders
    such a value and the text of a bound parameter. *)
Record engine := {
  visit : concat_site -> DB -> list tag_row -> list tag_row;
  visit_perm : forall c d l, Permutation (visit c d l) l;
  compare_created : timestamp -> string -> comparison
}.

(** m.created_at > ?, m.created_at >= ? and m.created_at <= ? *)
Definition created_gt (e : engine) (t : timestamp) (s : string) : bool :=
  match compare_created e t s with Gt => true | _ => false end.

Definition created_ge (e : engine) (t : timestamp) (s : string) : bool :=
  match compare_created e t s with Lt => false | _ => true end.

Definition created_le (e : engine) (t : timestamp) (s : string) : bool :=
  match compare_created e t s with Gt => false | _ => true end.

(** GROUP_CONCAT(mt.tag_type || ':' || COALESCE(mt.tag_value, ''))
    over the LEFT JOIN with message_tags. *)
Definition tags_of (e : engine) (c : concat_site) (messageId : Z) (d : DB)
  : option string :=
  group_concat
    (List.map tag_text
       (visit e c d
          (List.filter (fun mt => mt_message mt =? messageId)
             (message_tags d)))).

Record tag_view := { tv_type : string; tv_value : option string }.

(** const [type, value] = tag.split(':') *)
Definition tag_parts (tag : string) : string * option string :=
  match split_on ":" tag with
  | [] => (EmptyString, None)
  | [t] => (t, None)
  | t :: v :: _ => (t, Some v)
  end.

(** list route: { type, value: value || null }, then filter(tag => tag.type) *)
Definition parse_tag_views (tags : option string) : list tag_view :=
  match tags with
  | None => []
  | Some s =>
      List.filter (fun tv => truthy (tv_type tv))
        (List.map (fun tag =>
                     let '(t, v) := tag_parts tag in
                     {| tv_type := t;
                        tv_value := match v with
                                    | Some x => or_null x
                                    | None => None
                                    end |})
           (split_on "," s))
  end.

(** create route: value ? { type, value } : type, then filter(Boolean) *)
Inductive tag_out :=
| OutType (type : string)
| OutPair (type value : string).

Definition parse_tag_outs (tags : option string) : list tag_out :=
  match tags with
  | None => []
  | Some s =>
      List.filter (fun o => match o with
                            | OutType t => truthy t
                            | OutPair _ _ => true
                            end)
        (List.map (fun tag =>
                     match tag_parts tag with
                     | (t, Some v) => if truthy v then OutPair t v else OutType t
                     | (t, None) => OutType t
                     end)
           (split_on "," s))
  end.

(** *** POST / : create a message *)

(** An element of the [tags] array of the request body. *)
Inductive tag_input :=
| TagString (s : string)
| TagObject (type : string) (value : option string)
| TagNull.

Record create_request := {
  cr_groupId : Z;
  cr_content : string;
  cr_type : option string;
  cr_replyTo : option Z;
  cr_tags : option (list tag_input)
}.

(** The validators of the route; [groupId] and [replyTo] are integers by
    their type, and [content] is the text as it was sent: the trim
    sanitizer of the chain runs after the length check. *)
Definition validate_create (r : create_request) : bool :=
  (1 <=? String.length (cr_content r))%nat
  && (String.length (cr_content r) <=? 5000)%nat
  && match cr_type r with
     | None => true
     | Some t => includes ["text"; "file"; "image"; "form"] t
     end.

(** [if (replyTo)]: 0 is falsy. *)
Definition reply_target (r : create_request) : option Z :=
  match cr_replyTo r with
  | Some 0 => None
  | o => o
  end.

Definition reply_exists (replyTo groupId : Z) (d : DB) : bool :=
  existsb (fun m => (m_id m =? replyTo) && (m_group m =? groupId)) (messages d).

(** INSERT INTO messages (sender_id, group_id, content, type, reply_to);
    resolves to [this.lastID]. *)
Definition insert_message (now : timestamp) (sender groupId : Z)
    (content type : string) (replyTo : option Z) (d : DB) : option (Z * DB) :=
  let id := seq_messages d + 1 in
  Some (id,
        set_messages d
          (messages d ++
             [{| m_id := id; m_sender := sender; m_group := groupId;
                 m_content := content; m_type := type; m_reply_to := replyTo;
                 m_edited_at := None; m_created_at := now |}])
          id).

Definition insert_tag (row : tag_row) (d : DB) : option (unit * DB) :=
  match insert_abort tag_conflict row (message_tags d) with
  | Some t => Some (tt, set_message_tags d t)
  | None => None
  end.

(** INSERT INTO message_status ... SELECT ... FROM group_members gm
    WHERE gm.group_id = ? *)
Definition fanout_rows (now : timestamp) (messageId sender groupId : Z)
    (d : DB) : list status_row :=
  List.map (fun gm =>
              {| ms_message := messageId; ms_user := gm_user gm;
                 ms_read_at := if gm_user gm =? sender then Some now else None;
                 ms_delivered_at := now |})
    (List.filter (fun gm => gm_group gm =? groupId) (group_members d)).

Definition fanout (now : timestamp) (messageId sender groupId : Z) (d : DB)
  : option (unit * DB) :=
  match insert_abort_all status_conflict
          (fanout_rows now messageId sender groupId d) (message_status d) with
  | Some t => Some (tt, set_message_status d t)
  | None => None
  end.

(** SELECT m.*, u.*, GROUP_CONCAT(...) FROM messages m
    JOIN users u ON m.sender_id = u.id ... WHERE m.id = ? *)
Definition select_message (e : engine) (messageId : Z) (d : DB)
  : option (message_row * user_row * option string) :=
  head (flat_map (fun m =>
          List.map (fun u => (m, u, tags_of e InCreate (m_id m) d))
            (List.filter (fun u => m_sender m =? u_id u) (users d)))
        (List.filter (fun m => m_id m =? messageId) (messages d))).

Record created_message := {
  cm_id : Z;
  cm_content : string;
  cm_type : string;
  cm_replyTo : option Z;
  cm_timestamp : timestamp;
  cm_senderId : Z;
  cm_senderName : string;
  cm_senderRole : string;
  cm_groupId : Z;
  cm_tags : list tag_out
}.

(** *** GET /group/:groupId : list messages, mark them read *)

(** req.query; [limit] and [offset] are the numbers their numerals
    denote, [since] is the text as it was sent. *)
Record list_query := {
  lq_limit : option Z;
  lq_offset : option Z;
  lq_since : option string
}.

(** [isISO8601] is the validator of that name. *)
Definition validate_list (isISO8601 : string -> bool) (q : list_query)
  : bool :=
  match lq_limit q with
  | Some l => (1 <=? l) && (l <=? 100)
  | None => true
  end
  && match lq_offset q with
     | Some o => 0 <=? o
     | None => true
     end
  && match lq_since q with
     | Some t => isISO8601 t
     | None => true
     end.

(** parseInt(req.query.limit) || 50 *)
Definition or_default (o : option Z) (dflt : Z) : Z :=
  match o with
  | Some v => if to_double v =? 0 then dflt else to_double v
  | None => dflt
  end.

Record sender_view := { sv_id : Z; sv_name : string; sv_role : string }.

Record listed_message := {
  lm_id : Z;
  lm_content : string;
  lm_type : string;
  lm_replyTo : option Z;
  lm_timestamp : timestamp;
  lm_editedAt : option timestamp;
  lm_sender : sender_view;
  lm_tags : list tag_view
}.

Record pagination := {
  pg_total : Z;
  pg_limit : Z;
  pg_offset : Z;
  pg_hasMore : bool
}.

Record listing := { l_messages : list listed_message; l_pagination : pagination }.

(** FROM messages m JOIN users u ON m.sender_id = u.id
    LEFT JOIN message_tags mt ON m.id = mt.message_id
    WHERE m.group_id = ? [AND m.created_at > ?]
    GROUP BY m.id, u.id ORDER BY m.created_at DESC LIMIT ? OFFSET ?
    ORDER BY compares stored values with each other: texts of one format,
    which sort as the clock readings they render. *)
Definition select_group_messages (e : engine) (groupId : Z)
    (since : option string) (limit offset : Z) (d : DB)
  : list (message_row * user_row * option string) :=
  let joined :=
    flat_map (fun m =>
      List.map (fun u => (m, u, tags_of e InList (m_id m) d))
        (List.filter (fun u => m_sender m =? u_id u) (users d)))
      (List.filter (fun m =>
                      (m_group m =? groupId)
                      && match since with
                         | Some t => created_gt e (m_created_at m) t
                         | None => true
                         end)
         (messages d)) in
  let sorted :=
    Order.order_by
      (fun a b => m_created_at (fst (fst b)) <? m_created_at (fst (fst a)))
      joined in
  firstn (Z.to_nat limit) (skipn (Z.to_nat offset) sorted).

Definition format_listed (row : message_row * user_row * option string)
  : listed_message :=
  let '(m, u, ts) := row in
  {| lm_id := m_id m; lm_content := m_content m; lm_type := m_type m;
     lm_replyTo := m_reply_to m; lm_timestamp := m_created_at m;
     lm_editedAt := m_edited_at m;
     lm_sender := {| sv_id := u_id u; sv_name := u_name u; sv_role := u_role u |};
     lm_tags := parse_tag_views ts |}.

(** SELECT COUNT( * ) as total FROM messages WHERE group_id = ? *)
Definition count_group_messages (groupId : Z) (d : DB) : Z :=
  Z.of_nat (length (List.filter (fun m => m_group m =? groupId) (messages d))).

(** INSERT OR REPLACE INTO message_status (message_id, user_id, read_at)
    SELECT m.id, ?, CURRENT_TIMESTAMP FROM messages m
    WHERE m.group_id = ? AND m.sender_id != ?
    (delivered_at takes its default, CURRENT_TIMESTAMP). *)
Definition read_rows (now : timestamp) (userId groupId : Z) (d : DB)
  : list status_row :=
  List.map (fun m =>
              {| ms_message := m_id m; ms_user := userId;
                 ms_read_at := Some now; ms_delivered_at := now |})
    (List.filter (fun m => (m_group m =? groupId) && negb (m_sender m =? userId))
       (messages d)).

Definition mark_group_read (now : timestamp) (userId groupId : Z) (d : DB)
  : option (unit * DB) :=
  Some (tt,
        set_message_status d
          (insert_or_replace_all status_conflict
             (read_rows now userId groupId d) (message_status d))).

(** *** POST /:messageId/tags and GET /:messageId/status *)

Definition validTags : list string :=
  ["urgent"; "follow-up"; "financial"; "logistics"; "medical"; "security"].

(** SELECT m.id FROM messages m
    JOIN group_members gm ON m.group_id = gm.group_id
    WHERE m.id = ? AND gm.user_id = ? *)
Definition message_for_member (messageId userId : Z) (d : DB) : option Z :=
  head (flat_map (fun m =>
          List.map (fun _ => m_id m)
            (List.filter (fun gm => (m_group m =? gm_group gm)
                                    && (gm_user gm =? userId))
               (group_members d)))
        (List.filter (fun m => m_id m =? messageId) (messages d))).

(** INSERT OR IGNORE INTO message_tags (message_id, tag_type, created_by) *)
Definition insert_tag_or_ignore (row : tag_row) (d : DB) : option (unit * DB) :=
  Some (tt, set_message_tags d (insert_or_ignore tag_conflict row (message_tags d))).

Record tags_added := { ta_messageId : Z; ta_tags : list string }.

Record read_entry := {
  re_userId : Z;
  re_userName : string;
  re_readAt : option timestamp;
  re_deliveredAt : timestamp
}.

Record read_status := { rs_messageId : Z; rs_readBy : list read_entry }.

(** SELECT u.id, u.name, ms.read_at, ms.delivered_at FROM message_status ms
    JOIN users u ON ms.user_id = u.id WHERE ms.message_id = ?
    ORDER BY ms.read_at DESC *)
Definition select_read_status (messageId : Z) (d : DB) : list read_entry :=
  Order.order_by
    (fun a b => Order.desc_before (re_readAt a) (re_readAt b))
    (flat_map (fun ms =>
       List.map (fun u =>
                   {| re_userId := u_id u; re_userName := u_name u;
                      re_readAt := ms_read_at ms;
                      re_deliveredAt := ms_delivered_at ms |})
         (List.filter (fun u => ms_user ms =? u_id u) (users d)))
       (List.filter (fun ms => ms_message ms =? messageId) (message_status d))).

(** [if (since)]: the empty text is falsy. *)
Definition since_filter (q : list_query) : option string :=
  match lq_since q with
  | Some t => if truthy t then Some t else None
  | None => None
  end.

Section Routes.
(** The sanitizer and the validator of express-validator. *)
Variable trim : string -> string.
Variable isISO8601 : string -> bool.
Variable sqlite : engine.
Variable fails : nat -> bool.

(** [LIMIT ? OFFSET ?]: the numbers are bound as [parseInt] made them,
    and the engine refuses (SQLITE_MISMATCH) a double that is no 64-bit
    integer. *)
Definition allQuery_paged {A} (limit offset : Z) (q : DB -> list A)
  : M (list A) :=
  if (2 ^ 63 <=? limit) || (2 ^ 63 <=? offset) then refused MismatchError
  else allQuery fails q.

Fixpoint insert_tags (messageId userId : Z) (tags : list tag_input) : M unit :=
  match tags with
  | [] => ret tt
  | TagString s :: rest =>
      runQuery fails
        (insert_tag {| mt_message := messageId; mt_type := s;
                       mt_value := None; mt_created_by := userId |}) ;;;
      insert_tags messageId userId rest
  | TagObject t v :: rest =>
      if truthy t then
        runQuery fails
          (insert_tag {| mt_message := messageId; mt_type := t;
                         mt_value := match v with
                                     | Some x => or_null x
                                     | None => None
                                     end;
                         mt_created_by := userId |}) ;;;
        insert_tags messageId userId rest
      else insert_tags messageId userId rest
  | TagNull :: _ => throw TypeError      (* reading null.type *)
  end.

Definition createMessage (now : timestamp) (user : user_row)
    (r : create_request) : world -> response created_message * world :=
  catch_500 "Failed to send message"
    (if negb (validate_create r) then ret (Failure 400 "Validation failed")
     else
       let groupId := cr_groupId r in
       let type := match cr_type r with Some t => t | None => "text" end in
       let tags := match cr_tags r with Some l => l | None => [] end in
       hasAccess <- canAccessGroup fails (u_id user) groupId "write" ;;
       if negb hasAccess then ret (Failure 403 "Access denied to this group")
       else
         replyOk <- match reply_target r with
                    | Some p => getQuery fails (reply_exists p groupId)
                    | None => ret true
                    end ;;
         if negb replyOk then ret (Failure 400 "Invalid reply target")
         else
           messageId <- runQuery fails
                          (insert_message now (u_id user) groupId
                             (trim (cr_content r)) type (reply_target r)) ;;
           insert_tags messageId (u_id user) tags ;;;
           runQuery fails (fanout now messageId (u_id user) groupId) ;;;
           newMessage <- getQuery fails (select_message sqlite messageId) ;;
           match newMessage with
           | None => throw TypeError    (* reading undefined.id *)
           | Some (m, u, ts) =>
               ret (Json 201
                      {| cm_id := m_id m; cm_content := m_content m;
                         cm_type := m_type m; cm_replyTo := m_reply_to m;
                         cm_timestamp := m_created_at m;
                         cm_senderId := u_id u; cm_senderName := u_name u;
                         cm_senderRole := u_role u; cm_groupId := groupId;
                         cm_tags := parse_tag_outs ts |})
           end).
(** requireGroupAccess('read') runs before the handler looks at the
    validation result. *)
Definition listMessages (now : timestamp) (user : user_row) (groupId : Z)
    (q : list_query) : world -> response listing * world :=
  catch_500 "Failed to fetch messages"
    (hasAccess <- canAccessGroup fails (u_id user) groupId "read" ;;
     if negb hasAccess then ret (Failure 403 "Access denied to this group")
     else if negb (validate_list isISO8601 q)
     then ret (Failure 400 "Validation failed")
     else
       let limit := or_default (lq_limit q) 50 in
       let offset := or_default (lq_offset q) 0 in
       rows <- allQuery_paged limit offset
                 (select_group_messages sqlite groupId (since_filter q)
                    limit offset) ;;
       total <- getQuery fails (count_group_messages groupId) ;;
       runQuery fails (mark_group_read now (u_id user) groupId) ;;;
       ret (Json 200
              {| l_messages := rev (List.map format_listed rows);
                 l_pagination :=
                   {| pg_total := total; pg_limit := limit;
                      pg_offset := offset;
                      pg_hasMore := to_double (offset + limit) <? total |} |})).

Fixpoint add_valid_tags (messageId userId : Z) (tags : list string) : M unit :=
  match tags with
  | [] => ret tt
  | tag :: rest =>
      if includes validTags tag then
        runQuery fails
          (insert_tag_or_ignore
             {| mt_message := messageId; mt_type := tag;
                mt_value := None; mt_created_by := userId |}) ;;;
        add_valid_tags messageId userId rest
      else add_valid_tags messageId userId rest
  end.

(** body('tags').isArray({ min: 1 }) with string elements. *)
Definition addTags (user : user_row) (messageId : Z) (tags : list string)
  : world -> response tags_added * world :=
  catch_500 "Failed to add tags"
    (match tags with
     | [] => ret (Failure 400 "Validation failed")
     | _ =>
         message <- getQuery fails (message_for_member messageId (u_id user)) ;;
         match message with
         | None => ret (Failure 404 "Message not found or access denied")
         | Some _ =>
             add_valid_tags messageId (u_id user) tags ;;;
             ret (Json 200
                    {| ta_messageId := messageId;
                       ta_tags := List.filter (includes validTags) tags |})
         end
     end).

Definition getMessageStatus (user : user_row) (messageId : Z)
  : world -> response read_status * world :=
  catch_500 "Failed to fetch message status"
    (message <- getQuery fails (message_for_member messageId (u_id user)) ;;
     match message with
     | None => ret (Failure 404 "Message not found or access denied")
     | Some _ =>
         readStatus <- allQuery fails (select_read_status messageId) ;;
         ret (Json 200 {| rs_messageId := messageId; rs_readBy := readStatus |})
     end).
End Routes.

End Messages.

(** ** Socket handlers (server.js) *)

Module Server.
Import Store.

(** An authenticated connection: [socket.id] and [socket.user]. *)
Record socket := { sk_id : string; sk_user : user_row }.

Record active_user := {
  au_socketId : string;
  au_user : user_row;
  au_lastSeen : timestamp
}.

(** The room [`group_${groupId}`] is named by its group id.  [st_rooms] is
    the adapter's view: the rooms each connected socket has joined. *)
Record state := {
  st_db : DB;
  activeUsers : gmap Z active_user;
  userRooms : gmap Z (gset Z);
  st_rooms : gmap string (gset Z)
}.

Definition with_live (st : state) (au : gmap Z active_user)
    (ur : gmap Z (gset Z)) (rs : gmap string (gset Z)) : state :=
  {| st_db := st_db st; activeUsers := au; userRooms := ur; st_rooms := rs |}.

(** The payload of 'send-message'. *)
Record send_data := {
  sd_groupId : Z;
  sd_content : string;
  sd_type : option string;
  sd_tags : option (list Messages.tag_input)
}.

Record live_message := {
  lv_id : Z;
  lv_senderId : Z;
  lv_senderName : string;
  lv_groupId : Z;
  lv_content : string;
  lv_type : string;
  lv_tags : list Messages.tag_input;
  lv_timestamp : timestamp
}.

Inductive event :=
| NewMessage (m : live_message)
| MessageSent (m : live_message)
| MessageError (error : string)
| UserTyping (userId : Z) (userName : string) (groupId : Z)
| UserStopTyping (userId groupId : Z)
| MessageRead (messageId userId : Z) (readAt : timestamp).

(** [socket.to(room).emit] reaches the room except the emitting socket;
    [socket.emit] reaches the emitting socket alone. *)
Inductive target :=
| RoomExcept (groupId : Z) (sender : string)
| Only (socketId : string).

Record emission := { em_target : target; em_event : event }.

Definition rooms_of (st : state) (sid : string) : gset Z :=
  default ∅ (st_rooms st !! sid).

(** Whether the socket [sid] is handed the emission. *)
Definition receives (st : state) (sid : string) (e : emission) : bool :=
  match em_target e with
  | RoomExcept g sender =>
      negb (String.eqb sid sender) && bool_decide (g ∈ rooms_of st sid)
  | Only s => String.eqb sid s
  end.

Definition on_connection (sock : socket) (now : timestamp) (st : state) : state :=
  with_live st
    (<[u_id (sk_user sock) :=
         {| au_socketId := sk_id sock; au_user := sk_user sock;
            au_lastSeen := now |}]> (activeUsers st))
    (userRooms st) (st_rooms st).

(** One turn of the loop of 'join-groups': socket.join, then the
    bookkeeping in [userRooms]. *)
Definition join_group (sock : socket) (st : state) (groupId : Z) : state :=
  let uid := u_id (sk_user sock) in
  let joined := <[sk_id sock := {[groupId]} ∪ rooms_of st (sk_id sock)]> (st_rooms st) in
  let tracked :=
    match userRooms st !! uid with
    | None => <[uid := ∅]> (userRooms st)
    | Some _ => userRooms st
    end in
  with_live st (activeUsers st)
    (<[uid := {[groupId]} ∪ default ∅ (tracked !! uid)]> tracked)
    joined.

Definition on_join_groups (sock : socket) (groupIds : list Z) (st : state) : state :=
  fold_left (join_group sock) groupIds st.

(** 'send-message': [None] stands for a payload that cannot be
    destructured (undefined or null), which the handler catches. *)
Definition on_send_message (sock : socket) (now : timestamp)
    (data : option send_data) (st : state) : state * list emission :=
  match data with
  | None =>
      (st, [{| em_target := Only (sk_id sock);
               em_event := MessageError "Failed to send message" |}])
  | Some d =>
      let message :=
        {| lv_id := now;                       (* Date.now() *)
           lv_senderId := u_id (sk_user sock);
           lv_senderName := u_name (sk_user sock);
           lv_groupId := sd_groupId d;
           lv_content := sd_content d;
           lv_type := match sd_type d with Some t => t | None => "text" end;
           lv_tags := match sd_tags d with Some l => l | None => [] end;
           lv_timestamp := now |} in
      (st, [{| em_target := RoomExcept (sd_groupId d) (sk_id sock);
               em_event := NewMessage message |};
            {| em_target := Only (sk_id sock);
               em_event := MessageSent message |}])
  end.

Definition on_typing_start (sock : socket) (groupId : Z) (st : state)
  : state * list emission :=
  (st, [{| em_target := RoomExcept groupId (sk_id sock);
           em_event := UserTyping (u_id (sk_user sock)) (u_name (sk_user sock))
                         groupId |}]).

Definition on_typing_stop (sock : socket) (groupId : Z) (st : state)
  : state * list emission :=
  (st, [{| em_target := RoomExcept groupId (sk_id sock);
           em_event := UserStopTyping (u_id (sk_user sock)) groupId |}]).

(** 'mark-read' with payload { messageId, groupId }. *)
Definition on_mark_read (sock : socket) (now : timestamp)
    (groupId messageId : Z) (st : state) : state * list emission :=
  (st, [{| em_target := RoomExcept groupId (sk_id sock);
           em_event := MessageRead messageId (u_id (sk_user sock)) now |}]).

(** 'disconnect'. The socket leaves its rooms; the entry of [activeUsers]
    is dropped by a timer thirty seconds later ([on_grace_expired]). *)
Definition on_disconnect (sock : socket) (now : timestamp) (st : state) : state :=
  let uid := u_id (sk_user sock) in
  with_live st
    (match activeUsers st !! uid with
     | Some au =>
         <[uid := {| au_socketId := au_socketId au; au_user := au_user au;
                     au_lastSeen := now |}]> (activeUsers st)
     | None => activeUsers st
     end)
    (delete uid (userRooms st))
    (delete (sk_id sock) (st_rooms st)).

Definition on_grace_expired (sock : socket) (st : state) : state :=
  with_live st (delete (u_id (sk_user sock)) (activeUsers st))
    (userRooms st) (st_rooms st).

(** Everything a connected socket can send. *)
Inductive socket_event :=
| JoinGroups (groupIds : list Z)
| SendMessage (data : option send_data)
| TypingStart (groupId : Z)
| TypingStop (groupId : Z)
| MarkRead (groupId messageId : Z)
| Disconnect.

Definition handle (sock : socket) (now : timestamp) (ev : socket_event)
    (st : state) : state * list emission :=
  match ev with
  | JoinGroups gs => (on_join_groups sock gs st, [])
  | SendMessage d => on_send_message sock now d st
  | TypingStart g => on_typing_start sock g st
  | TypingStop g => on_typing_stop sock g st
  | MarkRead g m => on_mark_read sock now g m st
  | Disconnect => (on_disconnect sock now st, [])
  end.

(** An HTTP request to POST /api/messages, served against the store. *)
Definition http_create (trim : string -> string) (sqlite : Messages.engine)
    (fails : nat -> bool) (now : timestamp)
    (user : user_row) (r : Messages.create_request) (st : state)
  : Messages.response Messages.created_message * state :=
  let '(res, w) :=
    Messages.createMessage trim sqlite fails now user r (start (st_db st)) in
  (res,
   {| st_db := w_db w; activeUsers := activeUsers st;
      userRooms := userRooms st; st_rooms := st_rooms st |}).

End Server.

(** ** The offline queue (public/js/offline.js) *)

Module Offline.
Import Store.

Record group_data := { gd_name : string; gd_description : string }.
Record file_data := { fd_file : string; fd_groupId : Z }.

(** A queued [{ type, data }]; [Unknown] is any type the switch of
    [processAction] does not list. *)
Inductive action :=
| Message (d : Server.send_data)
| CreateGroup (g : group_data)
| UploadFile (f : file_data)
| Unknown (type : string).

(** A record of the 'syncQueue' object store (keyPath 'id',
    autoIncrement). *)
Record entry := {
  e_id : Z;
  e_action : action;
  e_queuedAt : timestamp;
  e_attempts : Z;
  e_lastAttempt : option timestamp
}.

(** The object store, in ascending key order as [getAll] returns it. *)
Fixpoint store_put (e : entry) (l : list entry) : list entry :=
  match l with
  | [] => [e]
  | x :: l' =>
      if e_id e <? e_id x then e :: x :: l'
      else if e_id e =? e_id x then e :: l'
      else x :: store_put e l'
  end.

Definition store_delete (id : Z) (l : list entry) : list entry :=
  List.filter (fun x => negb (e_id x =? id)) l.

Definition store_get (id : Z) (l : list entry) : option entry :=
  List.find (fun x => e_id x =? id) l.

Record manager := {
  db_open : bool;              (* this.db is set *)
  isOnline : bool;
  syncQueue : list action;     (* the in-memory array *)
  store : list entry;
  next_key : Z                 (* key generator of the object store *)
}.

Definition with_store (m : manager) (l : list entry) : manager :=
  {| db_open := db_open m; isOnline := isOnline m; syncQueue := syncQueue m;
     store := l; next_key := next_key m |}.

Definition set_online (m : manager) (b : bool) : manager :=
  {| db_open := db_open m; isOnline := b; syncQueue := syncQueue m;
     store := store m; next_key := next_key m |}.

Definition set_open (m : manager) : manager :=
  {| db_open := true; isOnline := isOnline m; syncQueue := syncQueue m;
     store := store m; next_key := next_key m |}.

(** The manager as its constructor leaves it: [this.db] is null until
    [initDB] resolves. *)
Definition created (online : bool) : manager :=
  {| db_open := false; isOnline := online; syncQueue := [];
     store := []; next_key := 1 |}.


(** [queueAction]; the boolean says that a scan was scheduled with
    setTimeout. *)
Definition queueAction (now : timestamp) (a : action) (m : manager)
  : manager * bool :=
  if negb (db_open m) then
    ({| db_open := db_open m; isOnline := isOnline m;
        syncQueue := syncQueue m ++ [a];
        store := store m; next_key := next_key m |}, false)
  else
    ({| db_open := db_open m; isOnline := isOnline m;
        syncQueue := syncQueue m;
        store := store_put {| e_id := next_key m; e_action := a;
                              e_queuedAt := now; e_attempts := 0;
                              e_lastAttempt := None |} (store m);
        next_key := next_key m + 1 |},
     isOnline m).

Inductive http_request :=
| PostMessages (d : Server.send_data)
| PostGroups (g : group_data)
| PostUpload (f : file_data).

Inductive fetch_result :=
| NetworkError                 (* the promise of fetch rejects *)
| Response (ok : bool).

(** How the try block around [processAction] ends. *)
Inductive attempt := Done | Thrown.

(** How one pass through the body of the for loop ends: [Escaped] when an
    exception left the catch block, which ends the handler. *)
Inductive pass := Continue | Escaped.

(** What the scan writes to the console. *)
Inductive log :=
| WarnUnknownType (type : string)
| ErrFailedToProcess
| ErrActionFailed (e : entry).

Section Client.
(** The other side of the network, as the client drives it. *)
Context {S : Type}.
Variable has_socket : bool.  (* window.app && window.app.socket *)
Variable socket_emit : Server.send_data -> S -> S.
Variable fetch : http_request -> S -> fetch_result * S.

Definition fetch_or_throw (r : http_request) (s : S) : attempt * S :=
  match fetch r s with
  | (Response true, s') => (Done, s')
  | (Response false, s') => (Thrown, s')
  | (NetworkError, s') => (Thrown, s')
  end.

Definition syncMessage (d : Server.send_data) (s : S) : attempt * S :=
  if has_socket then (Done, socket_emit d s)
  else fetch_or_throw (PostMessages d) s.

Definition syncCreateGroup (g : group_data) (s : S) : attempt * S :=
  fetch_or_throw (PostGroups g) s.

Definition syncFileUpload (f : file_data) (s : S) : attempt * S :=
  fetch_or_throw (PostUpload f) s.

Definition processAction (a : action) (s : S) : attempt * S * list log :=
  match a with
  | Message d => (syncMessage d s, [])
  | CreateGroup g => (syncCreateGroup g s, [])
  | UploadFile f => (syncFileUpload f s, [])
  | Unknown t => (Done, s, [WarnUnknownType t])
  end.

(** Whether [processAction] waits for the network on its way.  Each of
    the three sync functions awaits [fetch], whose promise settles in a
    later task; the socket branch of [syncMessage] and the default branch
    of the switch return within the task they were called in. *)
Definition awaits_fetch (a : action) : bool :=
  match a with
  | Message _ => negb has_socket
  | CreateGroup _ | UploadFile _ => true
  | Unknown _ => false
  end.

(** A request on the object store through the transaction that
    [processSyncQueue] opened before the loop.  IndexedDB keeps a
    transaction open through the task that runs the success handler and
    through the promise reactions of that task, and commits it when the
    task ends: a request placed after the handler has waited for the
    network throws TransactionInactiveError and writes nothing. *)
Definition store_request (live : bool) (f : list entry -> list entry)
    (m : manager) : option manager :=
  if live then Some (with_store m (f (store m))) else None.

(** The entry after a failed attempt, as the catch block rewrites the
    object it took from the snapshot. *)
Definition bumped (now : timestamp) (e : entry) : entry :=
  {| e_id := e_id e; e_action := e_action e; e_queuedAt := e_queuedAt e;
     e_attempts := e_attempts e + 1; e_lastAttempt := Some now |}.

(** The catch block of the loop. *)
Definition on_error (now : timestamp) (live : bool) (e : entry)
    (acc : manager * S * list log) : manager * S * list log * pass :=
  let '(m, s, out) := acc in
  let e' := bumped now e in
  if e_attempts e' <? 3 then
    match store_request live (store_put e') m with
    | Some m' => (m', s, out ++ [ErrFailedToProcess], Continue)
    | None => (m, s, out ++ [ErrFailedToProcess], Escaped)
    end
  else
    match store_request live (store_delete (e_id e)) m with
    | Some m' =>
        (m', s, out ++ [ErrFailedToProcess; ErrActionFailed e'], Continue)
    | None => (m, s, out ++ [ErrFailedToProcess], Escaped)
    end.

(** The body of the for loop of [processSyncQueue]; [live] says whether
    the transaction still takes requests when the pass begins, and the
    boolean of the result whether it does when the pass ends. *)
Definition process_entry (now : timestamp) (live : bool)
    (acc : manager * S * list log) (e : entry)
  : manager * S * list log * pass * bool :=
  let '(m, s, out) := acc in
  let live' := live && negb (awaits_fetch (e_action e)) in
  match processAction (e_action e) s with
  | (Done, s', ls) =>
      match store_request live' (store_delete (e_id e)) m with
      | Some m' => (m', s', out ++ ls, Continue, live')
      | None => (on_error now live' e (m, s', out ++ ls), live')
      end
  | (Thrown, s', ls) => (on_error now live' e (m, s', out ++ ls), live')
  end.

Fixpoint scan (now : timestamp) (live : bool) (snapshot : list entry)
    (acc : manager * S * list log) : manager * S * list log :=
  match snapshot with
  | [] => acc
  | e :: rest =>
      match process_entry now live acc e with
      | (acc', Continue, live') => scan now live' rest acc'
      | (acc', Escaped, _) => acc'
      end
  end.

(** The success handler of [store.getAll()] runs with the transaction
    open. *)
Definition processSyncQueue (now : timestamp) (m : manager) (s : S)
  : manager * S * list log :=
  if negb (db_open m) || negb (isOnline m) then (m, s, [])
  else scan now true (store m) (m, s, []).

(** What happens on the client, one event at a time: a scan runs to
    its end before the next event is taken.  [init] registers the network
    listeners only once [initDB] has resolved, so the window events are
    not heard before. *)
Inductive client_event :=
| DbOpened                       (* initDB resolves *)
| Queue (now : timestamp) (a : action)
| Timer (now : timestamp)        (* the scan scheduled by queueAction *)
| GoOnline (now : timestamp)     (* window 'online' *)
| GoOffline.                     (* window 'offline' *)

Definition client_step (acc : manager * S * list log) (ev : client_event)
  : manager * S * list log :=
  let '(m, s, out) := acc in
  match ev with
  | DbOpened => (set_open m, s, out)
  | Queue now a => (fst (queueAction now a m), s, out)
  | Timer now =>
      let '(m', s', ls) := processSyncQueue now m s in (m', s', out ++ ls)
  | GoOnline now =>
      if db_open m then
        let '(m', s', ls) := processSyncQueue now (set_online m true) s in
        (m', s', out ++ ls)
      else (m, s, out)
  | GoOffline => if db_open m then (set_online m false, s, out) else (m, s, out)
  end.

Definition client_run (evs : list client_event)
    (acc : manager * S * list log) : manager * S * list log :=
  fold_left client_step evs acc.
End Client.

End Offline.

(** ** Client and server wired together *)

Module System.
Import Store Server Offline.

(** The server together with everything it has emitted so far. *)
Record remote := { r_server : Server.state; r_emitted : list emission }.

Section Wiring.
Variable trim : string -> string.
Variable sqlite : Messages.engine.
Variable fails : nat -> bool.          (* faults of the server's store *)
Variable now : timestamp.              (* the server's clock *)
Variable sock : socket.                (* the client's connection *)
(** Endpoints outside routes/messages.js. *)
Variable other : http_request -> fetch_result.

(** socket.emit('send-message', messageData) as the server handles it. *)
Definition emit_send_message (d : send_data) (r : remote) : remote :=
  let '(st, es) := on_send_message sock now (Some d) (r_server r) in
  {| r_server := st; r_emitted := r_emitted r ++ es |}.

(** body: JSON.stringify(messageData) *)
Definition request_of (d : send_data) : Messages.create_request :=
  {| Messages.cr_groupId := sd_groupId d;
     Messages.cr_content := sd_content d;
     Messages.cr_type := sd_type d;
     Messages.cr_replyTo := None;
     Messages.cr_tags := sd_tags d |}.

Definition fetch (q : http_request) (r : remote) : fetch_result * remote :=
  match q with
  | PostMessages d =>
      let '(res, st) :=
        http_create trim sqlite fails now (sk_user sock) (request_of d)
          (r_server r) in
      (Response (Messages.response_ok res),
       {| r_server := st; r_emitted := r_emitted r |})
  | _ => (other q, r)
  end.

(** A replay of the queue; [has_socket] says whether the page holds a
    socket. *)
Definition replay (has_socket : bool) (at_ : timestamp) (m : manager)
    (r : remote) : manager * remote * list log :=
  processSyncQueue has_socket emit_send_message fetch at_ m r.
End Wiring.

End System.

(** ** A small deployment used in the examples *)

Module Sample.
Import Store.

Definition admin : user_row :=
  {| u_id := 1; u_name := "Administrator"; u_role := "admin"; u_status := "active" |}.
Definition amina : user_row :=
  {| u_id := 2; u_name := "Amina"; u_role := "field_staff"; u_status := "active" |}.
Definition boris : user_row :=
  {| u_id := 3; u_name := "Boris"; u_role := "volunteer"; u_status := "active" |}.
Definition chen : user_row :=
  {| u_id := 4; u_name := "Chen"; u_role := "volunteer"; u_status := "active" |}.
Definition dana : user_row :=
  {| u_id := 5; u_name := "Dana"; u_role := "volunteer"; u_status := "active" |}.

(** Group 7 was created by Amina and has three members; the
    administrator and Dana are not among them. *)
Definition db0 : DB :=
  {| users := [admin; amina; boris; chen; dana];
     groups := [{| g_id := 7; g_name := "Relief"; g_created_by := Some 2 |}];
     group_members :=
       [{| gm_group := 7; gm_user := 2; gm_role := "admin" |};
        {| gm_group := 7; gm_user := 3; gm_role := "member" |};
        {| gm_group := 7; gm_user := 4; gm_role := "moderator" |}];
     messages := [];
     seq_messages := 0;
     message_tags := [];
     message_status := [] |}.

(** The same deployment after Amina posted message 1 at time 100, which
    Boris read at time 150. *)
Definition db1 : DB :=
  {| users := users db0;
     groups := groups db0;
     group_members := group_members db0;
     messages :=
       [{| m_id := 1; m_sender := 2; m_group := 7; m_content := "hello";
           m_type := "text"; m_reply_to := None; m_edited_at := None;
           m_created_at := 100 |}];
     seq_messages := 1;
     message_tags := [];
     message_status :=
       [{| ms_message := 1; ms_user := 2; ms_read_at := Some 100;
           ms_delivered_at := 100 |};
        {| ms_message := 1; ms_user := 3; ms_read_at := Some 150;
           ms_delivered_at := 100 |};
        {| ms_message := 1; ms_user := 4; ms_read_at := None;
           ms_delivered_at := 100 |}] |}.

Definition hello : Messages.create_request :=
  {| Messages.cr_groupId := 7; Messages.cr_content := "hello";
     Messages.cr_type := None; Messages.cr_replyTo := None;
     Messages.cr_tags := Some [Messages.TagString "urgent"] |}.

(** The same message, tagged with a word outside the enumeration. *)
Definition rumour : Messages.create_request :=
  {| Messages.cr_groupId := 7; Messages.cr_content := "hello";
     Messages.cr_type := None; Messages.cr_replyTo := None;
     Messages.cr_tags := Some [Messages.TagString "rumour"] |}.

Definition hello_data : Server.send_data :=
  {| Server.sd_groupId := 7; Server.sd_content := "hello";
     Server.sd_type := None; Server.sd_tags := None |}.

Definition amina_socket : Server.socket :=
  {| Server.sk_id := "s-amina"; Server.sk_user := amina |}.
Definition dana_socket : Server.socket :=
  {| Server.sk_id := "s-dana"; Server.sk_user := dana |}.

Definition boris_socket : Server.socket :=
  {| Server.sk_id := "s-boris"; Server.sk_user := boris |}.

Definition first_page : Messages.list_query :=
  {| Messages.lq_limit := None; Messages.lq_offset := None;
     Messages.lq_since := None |}.

Definition server0 : Server.state :=
  {| Server.st_db := db0; Server.activeUsers := ∅;
     Server.userRooms := ∅; Server.st_rooms := ∅ |}.

(** *** The libraries around the routes, for the examples

    A sanitizer that strips the ASCII white space at both ends, a date
    validator for complete calendar dates with an optional time of day and
    zone, and an engine that concatenates the tags of a message last row
    first, renders [CURRENT_TIMESTAMP] as 'YYYY-MM-DD HH:MM:SS' for a
    clock reading in seconds, and compares it with a bound text byte by
    byte, a numeral sorting below every text. *)

Definition is_space (c : ascii) : bool :=
  let n := nat_of_ascii c in
  (n =? 32)%nat || ((9 <=? n)%nat && (n <=? 13)%nat).

Fixpoint ltrim (s : string) : string :=
  match s with
  | EmptyString => EmptyString
  | String c s' => if is_space c then ltrim s' else s
  end.

Definition reversed (s : string) : string :=
  string_of_list_ascii (rev (list_ascii_of_string s)).

Definition trim (s : string) : string :=
  reversed (ltrim (reversed (ltrim s))).

Definition is_digit (c : ascii) : bool :=
  let n := nat_of_ascii c in (48 <=? n)%nat && (n <=? 57)%nat.

(** Whether the text follows the picture, in which 'd' stands for a
    digit and every other character for itself. *)
Fixpoint follows (picture text : list ascii) : bool :=
  match picture, text with
  | [], [] => true
  | p :: picture', c :: text' =>
      (if Ascii.eqb p "d" then is_digit c else Ascii.eqb p c)
      && follows picture' text'
  | _, _ => false
  end.

Definition isISO8601 (s : string) : bool :=
  existsb (fun picture =>
             follows (list_ascii_of_string picture) (list_ascii_of_string s))
    ["dddd-dd-dd"; "dddd-dd-ddTdd:dd:dd"; "dddd-dd-ddTdd:dd:ddZ";
     "dddd-dd-ddTdd:dd:dd.dddZ"; "dddd-dd-ddTdd:dd:dd+dd:dd";
     "dddd-dd-ddTdd:dd:dd-dd:dd"].

Definition digit (n : Z) : ascii := ascii_of_nat (48 + Z.to_nat (n mod 10)).

Definition two_digits (n : Z) : string :=
  String (digit (n / 10)) (String (digit n) EmptyString).

Definition four_digits (n : Z) : string :=
  String (digit (n / 1000)) (String (digit (n / 100)) (two_digits n)).

(** Year, month and day of the given day of the epoch. *)
Definition civil (days : Z) : Z * Z * Z :=
  let z := days + 719468 in
  let era := z / 146097 in
  let doe := z - era * 146097 in
  let yoe := (doe - doe / 1460 + doe / 36524 - doe / 146096) / 365 in
  let doy := doe - (365 * yoe + yoe / 4 - yoe / 100) in
  let mp := (5 * doy + 2) / 153 in
  let m := if mp <? 10 then mp + 3 else mp - 9 in
  (if m <=? 2 then yoe + era * 400 + 1 else yoe + era * 400,
   m, doy - (153 * mp + 2) / 5 + 1).

Definition datetime (t : timestamp) : string :=
  let '(y, m, d) := civil (t / 86400) in
  let secs := t mod 86400 in
  String.concat ""
    [four_digits y; "-"; two_digits m; "-"; two_digits d; " ";
     two_digits (secs / 3600); ":"; two_digits (secs / 60 mod 60); ":";
     two_digits (secs mod 60)].

Definition is_numeral (s : string) : bool :=
  match s with
  | EmptyString => false
  | _ => forallb is_digit (list_ascii_of_string s)
  end.

Definition sqlite : Messages.engine :=
  {| Messages.visit := fun _ _ l => rev l;
     Messages.visit_perm := fun _ _ l => Permutation_sym (Permutation_rev l);
     Messages.compare_created :=
       fun t s => if is_numeral s then Gt else String.compare (datetime t) s |}.

End Sample.

(** ** What the schema and the other routes maintain *)

Module Invariants.
Import Store.

(** UNIQUE(group_id, user_id) of group_members. *)
Definition members_unique (d : DB) : Prop :=
  List.NoDup (List.map (fun gm => (gm_group gm, gm_user gm)) (group_members d)).

(** Status rows are only ever inserted for ids the messages table has
    handed out, and AUTOINCREMENT never hands out an id again. *)
Definition status_assigned (d : DB) : Prop :=
  Forall (fun ms => ms_message ms <= seq_messages d) (message_status d).

(** PRIMARY KEY of messages. *)
Definition messages_unique (d : DB) : Prop :=
  List.NoDup (List.map m_id (messages d)).



(** The rows the tag loop of the create route stores when every storage
    call goes through. *)
Fixpoint tag_rows (messageId userId : Z) (tags : list Messages.tag_input)
  : list tag_row :=
  match tags with
  | [] => []
  | Messages.TagString s :: rest =>
      {| mt_message := messageId; mt_type := s; mt_value := None;
         mt_created_by := userId |} :: tag_rows messageId userId rest
  | Messages.TagObject t v :: rest =>
      if Str.truthy t then
        {| mt_message := messageId; mt_type := t;
           mt_value := match v with
                       | Some x => Str.or_null x
                       | None => None
                       end;
           mt_created_by := userId |} :: tag_rows messageId userId rest
      else tag_rows messageId userId rest
  | Messages.TagNull :: _ => []
  end.

(** The message row of a create request. *)
Definition new_message (trim : string -> string) (now : timestamp)
    (user : user_row) (r : Messages.create_request) (d : DB) : message_row :=
  {| m_id := seq_messages d + 1; m_sender := u_id user;
     m_group := Messages.cr_groupId r;
     m_content := trim (Messages.cr_content r);
     m_type := match Messages.cr_type r with Some t => t | None => "text" end;
     m_reply_to := Messages.reply_target r; m_edited_at := None;
     m_created_at := now |}.

(** [d'] is [d] with the given rows appended to messages, message_tags and
    message_status, one id handed out per message, and nothing else
    touched. *)
Definition stored_of (d d' : DB) (msgs : list message_row)
    (tags : list tag_row) (sts : list status_row) : Prop :=
  users d' = users d /\ groups d' = groups d
  /\ group_members d' = group_members d
  /\ messages d' = messages d ++ msgs
  /\ seq_messages d' = seq_messages d + Z.of_nat (length msgs)
  /\ message_tags d' = message_tags d ++ tags
  /\ message_status d' = message_status d ++ sts.

(** A statement that touches message_tags only. *)
Definition same_but_tags (d d' : DB) : Prop :=
  users d' = users d /\ groups d' = groups d
  /\ group_members d' = group_members d /\ messages d' = messages d
  /\ seq_messages d' = seq_messages d /\ message_status d' = message_status d.

(** Every stored message carries an id the sequence has handed out. *)
Definition messages_assigned (d : DB) : Prop :=
  Forall (fun m => m_id m <= seq_messages d) (messages d).

(** The constraints of the schema that the message routes rely on. *)
Record store_inv (d : DB) : Prop := {
  si_members : members_unique d;
  si_messages : messages_unique d;
  si_assigned : messages_assigned d;
  si_status : status_assigned d
}.

(** PRIMARY KEY of users. *)
Definition users_unique (d : DB) : Prop :=
  List.NoDup (List.map u_id (users d)).

(** The row add-tags stores for a kind. *)
Definition kind_row (messageId userId : Z) (kind : string) : tag_row :=
  {| mt_message := messageId; mt_type := kind; mt_value := None;
     mt_created_by := userId |}.

(** The messages the batch-read upsert selects. *)
Definition unread (userId groupId : Z) (d : DB) : list message_row :=
  List.filter (fun m => (m_group m =? groupId) && negb (m_sender m =? userId))
    (messages d).

(** The stored rows an upsert of [rows] leaves in place. *)
Definition survives (rows : list status_row) (old : status_row) : bool :=
  negb (existsb (fun r => status_conflict r old) rows).

(** What a run of the create route may leave stored: nothing; or the
    message row with the first few of its tag rows and no status row; or
    the message row with all its tag rows and all its status rows.  The
    answer is 201 only in the last case. *)
Definition create_outcome (trim : string -> string) (now : timestamp)
    (user : user_row) (r : Messages.create_request) (d : DB)
    (run : Messages.response Messages.created_message * world) : Prop :=
  let id := seq_messages d + 1 in
  let all_tags :=
    tag_rows id (u_id user)
      (match Messages.cr_tags r with Some l => l | None => [] end) in
  let fan := Messages.fanout_rows now id (u_id user) (Messages.cr_groupId r) d in
  exists msgs tags sts,
    stored_of d (w_db (snd run)) msgs tags sts
    /\ ((msgs = [] /\ tags = [] /\ sts = [])
        \/ (msgs = [new_message trim now user r d]
            /\ (exists rest, all_tags = tags ++ rest)
            /\ (sts = [] \/ (tags = all_tags /\ sts = fan))))
    /\ (Messages.status_of (fst run) = 201 ->
        msgs = [new_message trim now user r d] /\ tags = all_tags /\ sts = fan).

End Invariants.

(** ** What the offline queue maintains *)

Module QueueInvariants.
Import Store Offline.

Definition ids (l : list entry) : list Z := List.map e_id l.

(** The entries the console reported as failed after three attempts. *)
Definition reported (out : list log) : list entry :=
  flat_map (fun l => match l with
                     | ErrActionFailed e => [e]
                     | _ => []
                     end) out.

(** Every stored key came from the key generator of the object store. *)
Definition keys_issued (m : manager) : Prop :=
  Forall (fun e => e_id e < next_key m) (store m).

(** A stored record as [queueAction] wrote it. *)
Definition untouched (e : entry) : Prop :=
  e_attempts e = 0 /\ e_lastAttempt e = None.

Section Attempts.
Context {S : Type}.
Variable has_socket : bool.
Variable socket_emit : Server.send_data -> S -> S.
Variable fetch : http_request -> S -> fetch_result * S.

(** The other side of the network after one more attempt of [a]. *)
Definition attempted (a : action) (s : S) : S :=
  snd (fst (processAction has_socket socket_emit fetch a s)).
End Attempts.

End QueueInvariants.

(** ** Message routes, continued: edit and delete (routes/messages.js) *)

Module Moderation.
Import Store Auth Str Messages.
Local Open Scope store_scope.

(** SELECT m.*, gm.role as user_role FROM messages m
    JOIN group_members gm ON m.group_id = gm.group_id
    WHERE m.id = ? AND gm.user_id = ? *)
Definition message_with_role (messageId userId : Z) (d : DB)
  : option (message_row * string) :=
  head (flat_map (fun m =>
          List.map (fun gm => (m, gm_role gm))
            (List.filter (fun gm => (m_group m =? gm_group gm)
                                    && (gm_user gm =? userId))
               (group_members d)))
        (List.filter (fun m => m_id m =? messageId) (messages d))).

(** body('content').isLength({ min: 1, max: 5000 }) *)
Definition validate_edit (content : string) : bool :=
  (1 <=? String.length content)%nat && (String.length content <=? 5000)%nat.

(** message.sender_id === req.user.id || req.user.role === 'admin'
    || message.user_role === 'admin' *)
Definition canEdit (user : user_row) (message : message_row * string) : bool :=
  (m_sender (fst message) =? u_id user)
  || String.eqb (u_role user) "admin"
  || String.eqb (snd message) "admin".

(** message.sender_id === req.user.id || req.user.role === 'admin' *)
Definition canDelete (user : user_row) (message : message_row * string) : bool :=
  (m_sender (fst message) =? u_id user) || String.eqb (u_role user) "admin".

Definition edited_row (now : timestamp) (content : string) (m : message_row)
  : message_row :=
  {| m_id := m_id m; m_sender := m_sender m; m_group := m_group m;
     m_content := content; m_type := m_type m; m_reply_to := m_reply_to m;
     m_edited_at := Some now; m_created_at := m_created_at m |}.

(** UPDATE messages SET content = ?, edited_at = CURRENT_TIMESTAMP
    WHERE id = ? *)
Definition update_message (now : timestamp) (messageId : Z) (content : string)
    (d : DB) : option (unit * DB) :=
  Some (tt,
        set_messages d
          (List.map (fun m => if m_id m =? messageId
                              then edited_row now content m else m)
             (messages d))
          (seq_messages d)).

(** DELETE FROM message_tags WHERE message_id = ? *)
Definition delete_tags (messageId : Z) (d : DB) : option (unit * DB) :=
  Some (tt,
        set_message_tags d
          (List.filter (fun mt => negb (mt_message mt =? messageId))
             (message_tags d))).

(** DELETE FROM message_status WHERE message_id = ? *)
Definition delete_status (messageId : Z) (d : DB) : option (unit * DB) :=
  Some (tt,
        set_message_status d
          (List.filter (fun ms => negb (ms_message ms =? messageId))
             (message_status d))).

(** DELETE FROM messages WHERE id = ?  (the sequence keeps its value) *)
Definition delete_message (messageId : Z) (d : DB) : option (unit * DB) :=
  Some (tt,
        set_messages d
          (List.filter (fun m => negb (m_id m =? messageId)) (messages d))
          (seq_messages d)).

Record edited := { ed_messageId : Z; ed_editedAt : timestamp }.

Record deleted := { dl_messageId : Z }.

Section Routes.
(** The trim sanitizer, which runs after the length validator: the
    validator sees the text as it was sent, the UPDATE stores it trimmed. *)
Variable trim : string -> string.
Variable fails : nat -> bool.

(** PUT /:messageId, with [content] as the body carries it. *)
Definition editMessage (now : timestamp) (user : user_row) (messageId : Z)
    (content : string) : world -> response edited * world :=
  catch_500 "Failed to edit message"
    (if negb (validate_edit content) then ret (Failure 400 "Validation failed")
     else
       message <- getQuery fails (message_with_role messageId (u_id user)) ;;
       match message with
       | None => ret (Failure 404 "Message not found")
       | Some msg =>
           if negb (canEdit user msg)
           then ret (Failure 403 "Cannot edit this message")
           else
             runQuery fails (update_message now messageId (trim content)) ;;;
             ret (Json 200 {| ed_messageId := messageId; ed_editedAt := now |})
       end).

(** DELETE /:messageId *)
Definition deleteMessage (user : user_row) (messageId : Z)
  : world -> response deleted * world :=
  catch_500 "Failed to delete message"
    (message <- getQuery fails (message_with_role messageId (u_id user)) ;;
     match message with
     | None => ret (Failure 404 "Message not found")
     | Some msg =>
         if negb (canDelete user msg)
         then ret (Failure 403 "Cannot delete this message")
         else
           runQuery fails (delete_tags messageId) ;;;
           runQuery fails (delete_status messageId) ;;;
           runQuery fails (delete_message messageId) ;;;
           ret (Json 200 {| dl_messageId := messageId |})
     end).
End Routes.

End Moderation.

Module ModerationInvariants.
Import Store Moderation.

(** The columns of a message that no route rewrites. *)
Definition frozen (m : message_row)
  : Z * Z * Z * string * option Z * timestamp :=
  (m_id m, m_sender m, m_group m, m_type m, m_reply_to m, m_created_at m).

(** The store after the first [k] of the three DELETE statements of the
    delete route. *)
Definition deleted_upto (k : nat) (messageId : Z) (d : DB) : DB :=
  let d1 := match k with
            | O => d
            | _ => set_message_tags d
                     (List.filter (fun mt => negb (mt_message mt =? messageId))
                        (message_tags d))
            end in
  let d2 := match k with
            | O | 1%nat => d1
            | _ => set_message_status d1
                     (List.filter (fun ms => negb (ms_message ms =? messageId))
                        (message_status d1))
            end in
  match k with
  | O | 1%nat | 2%nat => d2
  | _ => set_messages d2
           (List.filter (fun m => negb (m_id m =? messageId)) (messages d2))
           (seq_messages d2)
  end.



(** The caller has a membership row for the group of a stored message
    with this id. *)
Definition member_of_message (messageId userId : Z) (d : DB) : Prop :=
  exists m gm, In m (messages d) /\ m_id m = messageId
               /\ In gm (group_members d)
               /\ gm_group gm = m_group m /\ gm_user gm = userId.

(** The caller is a member of the group of the message and is its sender,
    or has the global role admin, or ([group_admin]) has the role admin in
    the group. *)
Definition has_right (group_admin : bool) (user : user_row) (messageId : Z)
    (d : DB) : Prop :=
  exists m gm, In m (messages d) /\ m_id m = messageId
               /\ In gm (group_members d)
               /\ gm_group gm = m_group m /\ gm_user gm = u_id user
               /\ (m_sender m = u_id user \/ u_role user = "admin"
                   \/ (group_admin = true /\ gm_role gm = "admin")).

End ModerationInvariants.

(** ** Group routes (routes/groups.js): list groups, add a member *)

Module Groups.
Import Store Auth Str Messages.
Local Open Scope store_scope.

(** UNIQUE(group_id, user_id) of group_members. *)
Definition member_conflict (a b : member_row) : bool :=
  (gm_group a =? gm_group b) && (gm_user a =? gm_user b).

(** [a = b] on a nullable column: never true with NULL. *)
Definition sql_eq (a b : option Z) : bool :=
  match a, b with
  | Some x, Some y => x =? y
  | _, _ => false
  end.

(** COUNT(DISTINCT gm2.user_id) over JOIN group_members gm2
    ON g.id = gm2.group_id *)
Definition member_count (groupId : Z) (d : DB) : Z :=
  Z.of_nat
    (length
       (nodup Z.eq_dec
          (List.map gm_user
             (List.filter (fun gm => gm_group gm =? groupId)
                (group_members d))))).

(** CASE WHEN ms.read_at IS NULL AND m.sender_id != ? over
    LEFT JOIN message_status ms ON m.id = ms.message_id AND ms.user_id = ?:
    a message without a status row of the user joins a row of NULLs. *)
Definition counts_as_unread (userId : Z) (d : DB) (m : message_row) : bool :=
  negb (m_sender m =? userId)
  && match List.filter (fun ms => (ms_message ms =? m_id m)
                                  && (ms_user ms =? userId))
             (message_status d) with
     | [] => true
     | rows => existsb (fun ms => match ms_read_at ms with
                                  | None => true
                                  | Some _ => false
                                  end) rows
     end.

(** COUNT(DISTINCT CASE WHEN ... THEN m.id END) over
    LEFT JOIN messages m ON g.id = m.group_id *)
Definition unread_count (userId groupId : Z) (d : DB) : Z :=
  Z.of_nat
    (length
       (nodup Z.eq_dec
          (List.map m_id
             (List.filter (fun m => (m_group m =? groupId)
                                    && counts_as_unread userId d m)
                (messages d))))).

Record group_summary := {
  gs_id : Z;
  gs_name : string;
  gs_membership_role : string;
  gs_member_count : Z;
  gs_unread_count : Z
}.

Record add_member_request := {
  am_userId : Z;               (* body('userId').isInt() *)
  am_role : option string
}.

(** body('role').optional().isIn(['member', 'moderator', 'admin']) *)
Definition validate_add (r : add_member_request) : bool :=
  match am_role r with
  | Some role => includes ["member"; "moderator"; "admin"] role
  | None => true
  end.

(** SELECT gm.role FROM group_members gm
    WHERE gm.group_id = ? AND gm.user_id = ?  (also the existence check
    SELECT id FROM group_members WHERE group_id = ? AND user_id = ?) *)
Definition own_role (groupId userId : Z) (d : DB) : option string :=
  head (List.map gm_role
          (List.filter (fun gm => (gm_group gm =? groupId)
                                  && (gm_user gm =? userId))
             (group_members d))).

(** INSERT INTO group_members (group_id, user_id, role) VALUES (?, ?, ?) *)
Definition insert_member (row : member_row) (d : DB) : option (unit * DB) :=
  match insert_abort member_conflict row (group_members d) with
  | Some t =>
      Some (tt,
            {| users := users d; groups := groups d; group_members := t;
               messages := messages d; seq_messages := seq_messages d;
               message_tags := message_tags d;
               message_status := message_status d |})
  | None => None
  end.

Record member_added := {
  ma_id : Z;
  ma_name : string;
  ma_groupRole : string;
  ma_joinedAt : timestamp
}.

Section Organizations.
(** The column organization_id of users and of groups, by primary key;
    the rows of this model leave it out. *)
Variable user_org : Z -> option Z.
Variable group_org : Z -> option Z.

(** FROM groups g JOIN group_members gm ON g.id = gm.group_id ...
    WHERE gm.user_id = ? AND g.organization_id = ?
    GROUP BY g.id, gm.role ORDER BY g.name *)
Definition select_groups (user : user_row) (d : DB) : list group_summary :=
  Order.order_by (fun a b => String.ltb (gs_name a) (gs_name b))
    (flat_map (fun g =>
       List.map (fun r =>
                   {| gs_id := g_id g; gs_name := g_name g;
                      gs_membership_role := r;
                      gs_member_count := member_count (g_id g) d;
                      gs_unread_count := unread_count (u_id user) (g_id g) d |})
         (nodup string_dec
            (List.map gm_role
               (List.filter (fun gm => (gm_group gm =? g_id g)
                                       && (gm_user gm =? u_id user))
                  (group_members d)))))
       (List.filter (fun g => sql_eq (group_org (g_id g)) (user_org (u_id user)))
          (groups d))).

(** SELECT id, name FROM users WHERE id = ? AND organization_id = ? *)
Definition user_in_org (userId : Z) (org : option Z) (d : DB)
  : option user_row :=
  head (List.filter (fun u => (u_id u =? userId)
                              && sql_eq (user_org (u_id u)) org)
          (users d)).

Variable fails : nat -> bool.

(** GET / *)
Definition listGroups (user : user_row)
  : world -> response (list group_summary) * world :=
  catch_500 "Failed to fetch groups"
    (groups <- allQuery fails (select_groups user) ;;
     ret (Json 200 groups)).

(** POST /:groupId/members *)
Definition addMember (now : timestamp) (user : user_row) (groupId : Z)
    (r : add_member_request) : world -> response member_added * world :=
  catch_500 "Failed to add member"
    (if negb (validate_add r) then ret (Failure 400 "Validation failed")
     else
       let role := match am_role r with Some x => x | None => "member" end in
       membership <- getQuery fails (own_role groupId (u_id user)) ;;
       match membership with
       | None => ret (Failure 403 "Insufficient permissions to add members")
       | Some mine =>
           if negb (includes ["admin"; "moderator"] mine)
           then ret (Failure 403 "Insufficient permissions to add members")
           else
             targetUser <- getQuery fails
                             (user_in_org (am_userId r)
                                (user_org (u_id user))) ;;
             match targetUser with
             | None => ret (Failure 404 "User not found in your organization")
             | Some target =>
                 existing <- getQuery fails
                               (own_role groupId (am_userId r)) ;;
                 match existing with
                 | Some _ =>
                     ret (Failure 409 "User is already a member of this group")
                 | None =>
                     runQuery fails
                       (insert_member {| gm_group := groupId;
                                         gm_user := am_userId r;
                                         gm_role := role |}) ;;;
                     ret (Json 200
                            {| ma_id := u_id target; ma_name := u_name target;
                               ma_groupRole := role; ma_joinedAt := now |})
                 end
             end
       end).
End Organizations.

End Groups.

(** ** The offline cache (public/js/offline.js) *)

Module Cache.
Import Store Offline.

(** A record of the 'messages' object store (keyPath 'id'): the message
    object with the two fields [saveMessage] sets on it. *)
Record cached_message := {
  c_message : Server.live_message;
  c_offline : bool;
  c_savedAt : timestamp
}.

Definition c_id (c : cached_message) : Z := Server.lv_id (c_message c).

Section Put.
Context {A : Type} (key : A -> Z).

(** [store.put] on an object store kept in key order: a record with the
    same key is replaced. *)
Fixpoint put (x : A) (l : list A) : list A :=
  match l with
  | [] => [x]
  | y :: l' =>
      if key x <? key y then x :: y :: l'
      else if key x =? key y then x :: l'
      else y :: put x l'
  end.
End Put.

(** The manager with its other two object stores; 'userData' is written
    and read by no function. *)
Record offline_db := {
  od_manager : manager;
  od_messages : list cached_message;
  od_groups : list Groups.group_summary
}.

Definition saveMessage (now : timestamp) (message : Server.live_message)
    (o : offline_db) : offline_db :=
  if negb (db_open (od_manager o)) then o
  else
    {| od_manager := od_manager o;
       od_messages :=
         put c_id {| c_message := message;
                     c_offline := negb (isOnline (od_manager o));
                     c_savedAt := now |} (od_messages o);
       od_groups := od_groups o |}.

(** index.getAll(groupId), in key order, then
    sort((a, b) => new Date(a.timestamp) - new Date(b.timestamp)),
    which is stable. *)
Definition getMessages (groupId : Z) (o : offline_db) : list cached_message :=
  if negb (db_open (od_manager o)) then []
  else
    Order.order_by
      (fun a b => Server.lv_timestamp (c_message a)
                  <? Server.lv_timestamp (c_message b))
      (List.filter (fun c => Server.lv_groupId (c_message c) =? groupId)
         (od_messages o)).

Definition saveGroups (groups : list Groups.group_summary) (o : offline_db)
  : offline_db :=
  if negb (db_open (od_manager o)) then o
  else
    {| od_manager := od_manager o;
       od_messages := od_messages o;
       od_groups := fold_left (fun acc g => put Groups.gs_id g acc) groups
                      (od_groups o) |}.

Definition getGroups (o : offline_db) : list Groups.group_summary :=
  if negb (db_open (od_manager o)) then [] else od_groups o.

(** [store.clear()] on every object store; the key generator of
    'syncQueue' keeps its value. *)
Definition clearOfflineData (o : offline_db) : offline_db :=
  if negb (db_open (od_manager o)) then o
  else
    {| od_manager := with_store (od_manager o) [];
       od_messages := [];
       od_groups := [] |}.

End Cache.

(** ** The page's own queue (public/js/app.js) *)

Module App.
Import Store Str.

(** The fields of [HumanitarianApp] that sending reads and writes. *)
Record app := {
  a_socket : bool;                         (* this.socket is set *)
  a_currentGroup : option Z;               (* this.currentGroup.id *)
  a_groups : list Z;                       (* this.groups.map(g => g.id) *)
  a_isOnline : bool;
  a_offlineQueue : list Server.send_data   (* the data of each queued action *)
}.

Inductive emit :=
| EmitJoinGroups (groupIds : list Z)
| EmitSendMessage (d : Server.send_data).

Definition updateConnectionStatus (online : bool) (a : app) : app :=
  {| a_socket := a_socket a; a_currentGroup := a_currentGroup a;
     a_groups := a_groups a; a_isOnline := online;
     a_offlineQueue := a_offlineQueue a |}.

(** [sendMessage], with [content] the trimmed text of the input field and
    [selectedTags] the current selection. *)
Definition sendMessage (content : string)
    (selectedTags : option (list Messages.tag_input)) (a : app)
  : app * list emit :=
  match a_currentGroup a with
  | None => (a, [])
  | Some groupId =>
      if negb (truthy content) then (a, [])
      else
        let message :=
          {| Server.sd_groupId := groupId; Server.sd_content := content;
             Server.sd_type := Some "text";
             Server.sd_tags := Some (match selectedTags with
                                     | Some l => l
                                     | None => []
                                     end) |} in
        if a_isOnline a && a_socket a then (a, [EmitSendMessage message])
        else
          ({| a_socket := a_socket a; a_currentGroup := a_currentGroup a;
              a_groups := a_groups a; a_isOnline := a_isOnline a;
              a_offlineQueue := a_offlineQueue a ++ [message] |}, [])
  end.

(** [processOfflineQueue]: the queue is emptied, nothing is sent. *)
Definition processOfflineQueue (a : app) : app :=
  match a_offlineQueue a with
  | [] => a
  | _ =>
      {| a_socket := a_socket a; a_currentGroup := a_currentGroup a;
         a_groups := a_groups a; a_isOnline := a_isOnline a;
         a_offlineQueue := [] |}
  end.

(** The handler of the socket's 'connect'. *)
Definition on_connect (a : app) : app * list emit :=
  let a1 := updateConnectionStatus true a in
  (processOfflineQueue a1,
   match a_groups a1 with
   | [] => []
   | ids => [EmitJoinGroups ids]
   end).

(** The handler of the socket's 'disconnect'. *)
Definition on_disconnect (a : app) : app := updateConnectionStatus false a.

(** What the user and the socket do to the page, one at a time. *)
Inductive page_event :=
| Typed (content : string) (selectedTags : option (list Messages.tag_input))
| Connected
| Disconnected.

Definition page_step (acc : app * list emit) (ev : page_event)
  : app * list emit :=
  let '(a, out) := acc in
  match ev with
  | Typed content tags =>
      let '(a', es) := sendMessage content tags a in (a', out ++ es)
  | Connected => let '(a', es) := on_connect a in (a', out ++ es)
  | Disconnected => (on_disconnect a, out)
  end.

Definition page_run (evs : list page_event) (acc : app * list emit)
  : app * list emit :=
  fold_left page_step evs acc.

End App.

Module AppInvariants.
Import Store Str App.

(** The payload [sendMessage] builds for a text typed in a group. *)
Definition typed_message (groupId : Z)
    (ct : string * option (list Messages.tag_input)) : Server.send_data :=
  {| Server.sd_groupId := groupId; Server.sd_content := fst ct;
     Server.sd_type := Some "text";
     Server.sd_tags := Some (match snd ct with Some l => l | None => [] end) |}.

(** The texts typed one after the other. *)
Definition typing (typed : list (string * option (list Messages.tag_input)))
  : list page_event :=
  List.map (fun ct => Typed (fst ct) (snd ct)) typed.

End AppInvariants.

(** ** Scans of the offline queue, counted *)

Module DrainInvariants.
Import Store Offline.

(** The client events that call [processSyncQueue]. *)
Definition is_scan (ev : client_event) : bool :=
  match ev with
  | Timer _ | GoOnline _ => true
  | _ => false
  end.

Definition scans (evs : list client_event) : nat :=
  length (List.filter is_scan evs).

Section Blocked.
Context {S : Type}.
Variable has_socket : bool.
Variable socket_emit : Server.send_data -> S -> S.
Variable fetch : http_request -> S -> fetch_result * S.

Local Abbreviation attempted :=
  (QueueInvariants.attempted has_socket socket_emit fetch).

(** What a run has done to a queue whose first entry is [e]: the stored
    entries are all still there as they were, followed by the ones queued
    since; [n] scans have tried [e] and nothing else, and each has printed
    the line of a failed attempt. *)
Definition blocked_by (e : entry) (rest : list entry) (key : Z) (n : nat)
    (before after : manager * S * list log) : Prop :=
  let '(m, s, out) := before in
  let '(m', s', out') := after in
  (exists added,
     store m' = e :: rest ++ added
     /\ Forall (fun x => key <= e_id x /\ QueueInvariants.untouched x) added)
  /\ s' = Nat.iter n (attempted (e_action e)) s
  /\ out' = out ++ repeat ErrFailedToProcess n.

End Blocked.

End DrainInvariants.

(** ** Authentication (middleware/auth.js) *)

Module Authn.
Import Store Str.

(** SELECT u.*, o.name as organization_name FROM users u
    LEFT JOIN organizations o ON u.organization_id = o.id
    WHERE u.id = ? AND u.status = 'active' *)
Definition active_user_query (userId : Z) (d : DB) : option user_row :=
  head (List.filter
          (fun u => (u_id u =? userId) && String.eqb (u_status u) "active")
          (users d)).

(** authHeader && authHeader.split(' ')[1] *)
Definition header_token (authHeader : option string) : option string :=
  match authHeader with
  | None => None
  | Some h => if truthy h then nth_error (split_on " " h) 1 else None
  end.

(** socket.handshake.auth.token || socket.handshake.query.token *)
Definition handshake_token (auth query : option string) : option string :=
  match auth with
  | Some t => if truthy t then Some t else query
  | None => query
  end.

(** A middleware either calls next() with what it attached to the
    request, or answers. *)
Inductive gate (A : Type) :=
| Next (a : A)
| Refuse (status : Z) (error : string).
Arguments Next {A} a.
Arguments Refuse {A} status error.

(** next() or next(new Error(message)) of a socket middleware. *)
Inductive handshake :=
| Accepted (user : user_row)
| Rejected (message : string).

Section Verify.
(** jwt.verify(token, JWT_SECRET): the [userId] of the decoded payload, as
    generateToken signs it, or an error. *)
Variable verify : string -> option Z.
Variable fails : nat -> bool.

Definition authenticateToken (authHeader : option string)
  : world -> gate user_row * world :=
  fun w =>
    match header_token authHeader with
    | None => (Refuse 401 "Access token required", w)
    | Some token =>
        if negb (truthy token) then (Refuse 401 "Access token required", w)
        else
          match verify token with
          | None => (Refuse 403 "Invalid or expired token", w)
          | Some userId =>
              match getQuery fails (active_user_query userId) w with
              | (Ok (Some user), w') => (Next user, w')
              | (Ok None, w') => (Refuse 403 "User not found or inactive", w')
              | (Throw _, w') => (Refuse 500 "Internal server error", w')
              end
          end
    end.

Definition authenticateSocket (auth query : option string)
  : world -> handshake * world :=
  fun w =>
    match handshake_token auth query with
    | None => (Rejected "Authentication token required", w)
    | Some token =>
        if negb (truthy token)
        then (Rejected "Authentication token required", w)
        else
          match verify token with
          | None => (Rejected "Invalid or expired token", w)
          | Some userId =>
              match getQuery fails (active_user_query userId) w with
              | (Ok (Some user), w') => (Accepted user, w')
              | (Ok None, w') => (Rejected "User not found or inactive", w')
              | (Throw _, w') => (Rejected "Authentication failed", w')
              end
          end
    end.
End Verify.

(** requireRole(roles), with [req.user] as the earlier middleware left
    it. *)
Definition requireRole (roles : list string) (user : option user_row)
  : gate unit :=
  match user with
  | None => Refuse 401 "Authentication required"
  | Some u =>
      if Auth.includes roles (u_role u) then Next tt
      else Refuse 403 "Insufficient permissions"
  end.

End Authn.

(** ** Message routes, continued: search (routes/messages.js) *)

Module Search.
Import Store Auth Str Messages.
Local Open Scope store_scope.

(** req.query of GET /search; [groupId] and [limit] are the numbers
    their numerals denote, [from] and [to] the texts as they were sent. *)
Record search_query := {
  sq_q : string;
  sq_groupId : option Z;
  sq_tags : option string;
  sq_from : option string;
  sq_to : option string;
  sq_limit : option Z
}.

Definition validate_search (isISO8601 : string -> bool) (s : search_query)
  : bool :=
  (1 <=? String.length (sq_q s))%nat && (String.length (sq_q s) <=? 100)%nat
  && match sq_from s with
     | Some t => isISO8601 t
     | None => true
     end
  && match sq_to s with
     | Some t => isISO8601 t
     | None => true
     end
  && match sq_limit s with
     | Some l => (1 <=? l) && (l <=? 50)
     | None => true
     end.

(** SELECT gm.group_id FROM group_members gm WHERE gm.user_id = ? *)
Definition user_groups (userId : Z) (d : DB) : list Z :=
  List.map gm_group
    (List.filter (fun gm => gm_user gm =? userId) (group_members d)).

(** [if (tags)]: the kinds of tags.split(','), for a non-empty string. *)
Definition tag_kinds (s : search_query) : option (list string) :=
  match sq_tags s with
  | Some t => if truthy t then Some (split_on "," t) else None
  | None => None
  end.

Record found_message := {
  fm_id : Z;
  fm_content : string;
  fm_type : string;
  fm_groupId : Z;
  fm_groupName : string;
  fm_senderName : string;
  fm_timestamp : timestamp;
  fm_tags : list string
}.

(** The answer without memberships carries no [query] field. *)
Record search_answer := {
  sa_messages : list found_message;
  sa_total : Z;
  sa_query : option string
}.

(** tags: msg.tags ? msg.tags.split(',') : [] *)
Definition format_found
    (row : message_row * user_row * group_row * option string)
  : found_message :=
  let '(m, u, g, ts) := row in
  {| fm_id := m_id m; fm_content := m_content m; fm_type := m_type m;
     fm_groupId := m_group m; fm_groupName := g_name g;
     fm_senderName := u_name u; fm_timestamp := m_created_at m;
     fm_tags := match ts with
                | Some t => if truthy t then split_on "," t else []
                | None => []
                end |}.

Section Like.
(** [like pattern text] is SQLite's [text LIKE pattern]. *)
Variable like : string -> string -> bool.
Variable isISO8601 : string -> bool.
Variable sqlite : engine.

(** The conditions of the WHERE clause on the message:
    m.group_id IN (groupIds) AND m.content LIKE '%q%'
    [AND m.group_id = groupId, if groupIds.includes(parseInt(groupId))]
    [AND m.created_at >= from] [AND m.created_at <= to] *)
Definition where_message (groupIds : list Z) (s : search_query)
    (m : message_row) : bool :=
  existsb (Z.eqb (m_group m)) groupIds
  && like (String.append "%" (String.append (sq_q s) "%")) (m_content m)
  && match sq_groupId s with
     | Some g => if existsb (Z.eqb g) groupIds then m_group m =? g else true
     | None => true
     end
  && match sq_from s with
     | Some t => if truthy t then created_ge sqlite (m_created_at m) t else true
     | None => true
     end
  && match sq_to s with
     | Some t => if truthy t then created_le sqlite (m_created_at m) t else true
     | None => true
     end.

(** The rows LEFT JOIN message_tags contributes for a message, after
    [AND mt.tag_type IN (kinds)]: with the condition the row of a message
    without a matching tag is dropped. *)
Definition joined_tags (s : search_query) (m : message_row) (d : DB)
  : list (option tag_row) :=
  let own :=
    visit sqlite InSearch d
      (List.filter (fun mt => mt_message mt =? m_id m) (message_tags d)) in
  match tag_kinds s with
  | Some kinds =>
      List.map Some (List.filter (fun mt => includes kinds (mt_type mt)) own)
  | None =>
      match own with
      | [] => [None]
      | _ => List.map Some own
      end
  end.

(** FROM messages m JOIN users u ON m.sender_id = u.id
    JOIN groups g ON m.group_id = g.id
    LEFT JOIN message_tags mt ON m.id = mt.message_id WHERE ...
    GROUP BY m.id ORDER BY m.created_at DESC LIMIT ?
    with GROUP_CONCAT(mt.tag_type) over the joined rows of the message. *)
Definition search_rows (groupIds : list Z) (s : search_query) (d : DB)
  : list (message_row * user_row * group_row * option string) :=
  let joined :=
    flat_map (fun m =>
      let pairs :=
        flat_map (fun u =>
          List.map (fun g => (u, g))
            (List.filter (fun g => m_group m =? g_id g) (groups d)))
          (List.filter (fun u => m_sender m =? u_id u) (users d)) in
      let kinds :=
        flat_map (fun _ =>
          flat_map (fun t => match t with
                             | Some mt => [mt_type mt]
                             | None => []
                             end)
            (joined_tags s m d)) pairs in
      match pairs, joined_tags s m d with
      | (u, g) :: _, _ :: _ => [(m, u, g, group_concat kinds)]
      | _, _ => []
      end)
      (List.filter (where_message groupIds s) (messages d)) in
  firstn (Z.to_nat (match sq_limit s with Some l => l | None => 20 end))
    (Order.order_by
       (fun a b => m_created_at (fst (fst (fst b)))
                   <? m_created_at (fst (fst (fst a))))
       joined).

Variable fails : nat -> bool.

(** GET /search *)
Definition searchMessages (user : user_row) (s : search_query)
  : world -> response search_answer * world :=
  catch_500 "Failed to search messages"
    (if negb (validate_search isISO8601 s)
     then ret (Failure 400 "Validation failed")
     else
       groupIds <- allQuery fails (user_groups (u_id user)) ;;
       match groupIds with
       | [] => ret (Json 200 {| sa_messages := []; sa_total := 0;
                                sa_query := None |})
       | _ =>
           results <- allQuery fails (search_rows groupIds s) ;;
           ret (Json 200
                  {| sa_messages := List.map format_found results;
                     sa_total := Z.of_nat (length results);
                     sa_query := Some (sq_q s) |})
       end).
End Like.

End Search.

(** ** What the answers of the read routes look like *)

Module ViewInvariants.
Import Store Str Messages.

(** ORDER BY read_at DESC: read entries first, the latest reading first,
    then the entries that were never read. *)
Definition newest_first (a b : option timestamp) : Prop :=
  match a, b with
  | Some x, Some y => y <= x
  | Some _, None => True
  | None, Some _ => False
  | None, None => True
  end.

(** The entry of the list answer for a stored message and its sender. *)
Definition listed_row (e : engine) (d : DB) (m : message_row) (u : user_row)
  : listed_message :=
  format_listed (m, u, tags_of e InList (m_id m) d).

(** A stored tag whose kind is not empty and whose kind and value hold
    neither of the separators of the tag view. *)
Definition clean_tag (mt : tag_row) : bool :=
  truthy (mt_type mt)
  && negb (has_char "," (mt_type mt)) && negb (has_char ":" (mt_type mt))
  && negb (has_char "," (coalesce (mt_value mt)))
  && negb (has_char ":" (coalesce (mt_value mt))).

(** The tag as the list route shows it. *)
Definition view_of (mt : tag_row) : tag_view :=
  {| tv_type := mt_type mt; tv_value := or_null (coalesce (mt_value mt)) |}.

(** The tag as the create route shows it. *)
Definition out_of (mt : tag_row) : tag_out :=
  if truthy (coalesce (mt_value mt))
  then OutPair (mt_type mt) (coalesce (mt_value mt))
  else OutType (mt_type mt).

(** Every reply points at a stored message of the same group. *)
Definition replies_in_group (d : DB) : Prop :=
  forall m p, In m (messages d) -> m_reply_to m = Some p ->
    exists t, In t (messages d) /\ m_id t = p /\ m_group t = m_group m.

(** Tag rows are only ever inserted for ids the messages table has handed
    out. *)
Definition tags_assigned (d : DB) : Prop :=
  Forall (fun mt => mt_message mt <= seq_messages d) (message_tags d).

(** What the create route checks before it stores anything. *)
Definition create_checks (d : DB) (user : user_row) (r : create_request)
  : Prop :=
  validate_create r = true
  /\ (exists mem, Auth.membership_query (u_id user) (cr_groupId r) d = Some mem)
  /\ (forall p, reply_target r = Some p ->
                reply_exists p (cr_groupId r) d = true).

(** The 201 answer for the message row [m] sent by the stored user [u]. *)
Definition created_of (e : engine) (d : DB) (groupId : Z) (m : message_row)
    (u : user_row) : created_message :=
  {| cm_id := m_id m; cm_content := m_content m; cm_type := m_type m;
     cm_replyTo := m_reply_to m; cm_timestamp := m_created_at m;
     cm_senderId := u_id u; cm_senderName := u_name u;
     cm_senderRole := u_role u; cm_groupId := groupId;
     cm_tags := parse_tag_outs (tags_of e InCreate (m_id m) d) |}.

End ViewInvariants.

(** ** What the group routes maintain *)

Module GroupInvariants.
Import Store Auth Groups.

(** No membership row names the group. *)
Definition memberless (groupId : Z) (d : DB) : Prop :=
  forall gm, In gm (group_members d) -> gm_group gm <> groupId.

(** The user has a membership row for the group with the role admin or
    moderator. *)
Definition manager_of (userId groupId : Z) (d : DB) : Prop :=
  exists gm, In gm (group_members d)
             /\ gm_group gm = groupId /\ gm_user gm = userId
             /\ includes ["admin"; "moderator"] (gm_role gm) = true.

(** The store with one more membership row. *)
Definition with_member (d : DB) (row : member_row) : DB :=
  {| users := users d; groups := groups d;
     group_members := group_members d ++ [row];
     messages := messages d; seq_messages := seq_messages d;
     message_tags := message_tags d; message_status := message_status d |}.

(** The row the add-member route stores for a request. *)
Definition member_of_request (groupId : Z) (r : add_member_request)
  : member_row :=
  {| gm_group := groupId; gm_user := am_userId r;
     gm_role := match am_role r with Some x => x | None => "member" end |}.

End GroupInvariants.

(** ** The routes as one interface *)

Module Api.
Import Store Messages Moderation Search Groups.

(** A request to one of the routes, after authentication. *)
Inductive request :=
| ListMessages (groupId : Z) (q : list_query)      (* GET /group/:groupId *)
| CreateMessage (r : create_request)               (* POST / *)
| SearchMessages (s : search_query)                (* GET /search *)
| EditMessage (messageId : Z) (content : string)   (* PUT /:messageId *)
| DeleteMessage (messageId : Z)                    (* DELETE /:messageId *)
| AddTags (messageId : Z) (tags : list string)     (* POST /:messageId/tags *)
| GetMessageStatus (messageId : Z)                 (* GET /:messageId/status *)
| ListGroups                                       (* GET / of the groups *)
| AddMember (groupId : Z) (r : add_member_request).
                                                   (* POST /:groupId/members *)

Section Serve.
Variable trim : string -> string.
Variable isISO8601 : string -> bool.
Variable sqlite : engine.
Variable like : string -> string -> bool.
Variable user_org : Z -> option Z.
Variable group_org : Z -> option Z.
Variable fails : nat -> bool.

(** The status the request is answered with, and the world after it. *)
Definition serve (now : timestamp) (user : user_row) (req : request)
    (w : world) : Z * world :=
  match req with
  | ListMessages g q =>
      let '(res, w') := listMessages isISO8601 sqlite fails now user g q w in
      (status_of res, w')
  | CreateMessage r =>
      let '(res, w') := createMessage trim sqlite fails now user r w in
      (status_of res, w')
  | SearchMessages s =>
      let '(res, w') := searchMessages like isISO8601 sqlite fails user s w in
      (status_of res, w')
  | EditMessage i c =>
      let '(res, w') := editMessage trim fails now user i c w in (status_of res, w')
  | DeleteMessage i =>
      let '(res, w') := deleteMessage fails user i w in (status_of res, w')
  | AddTags i tags =>
      let '(res, w') := addTags fails user i tags w in (status_of res, w')
  | GetMessageStatus i =>
      let '(res, w') := getMessageStatus fails user i w in (status_of res, w')
  | ListGroups =>
      let '(res, w') := listGroups user_org group_org fails user w in
      (status_of res, w')
  | AddMember g r =>
      let '(res, w') := addMember user_org fails now user g r w in
      (status_of res, w')
  end.

(** Requests served one after the other, each at its time and for its
    user. *)
Definition serve_all (reqs : list (timestamp * user_row * request))
    (w : world) : world :=
  fold_left (fun w0 x => snd (serve (fst (fst x)) (snd (fst x)) (snd x) w0))
    reqs w.
End Serve.

End Api.

Module ApiInvariants.
Import Store Invariants ViewInvariants.

(** The constraints of the schema on the tables of the model, with the
    ids of tag rows. *)
Definition constraints (d : DB) : Prop := store_inv d /\ tags_assigned d.

(** What every route respects: users and groups are not written, the
    sequence of message ids never goes back, and the constraints are
    kept. *)
Definition evolves (d d' : DB) : Prop :=
  users d' = users d /\ groups d' = groups d
  /\ seq_messages d <= seq_messages d'
  /\ (constraints d -> constraints d').

End ApiInvariants.

(** ** More of the small deployment *)

Module MoreSamples.
Import Store Sample.

(** [db1] after Boris tagged message 1 as urgent and Amina attached a
    place to it. *)
Definition db2 : DB :=
  set_message_tags db1
    [{| mt_message := 1; mt_type := "urgent"; mt_value := None;
        mt_created_by := 3 |};
     {| mt_message := 1; mt_type := "place"; mt_value := Some "north";
        mt_created_by := 2 |}].

(** [db1] after Boris's account was suspended. *)
Definition db_suspended : DB :=
  {| users := [admin; amina;
               {| u_id := 3; u_name := "Boris"; u_role := "volunteer";
                  u_status := "suspended" |}; chen; dana];
     groups := groups db1; group_members := group_members db1;
     messages := messages db1; seq_messages := seq_messages db1;
     message_tags := message_tags db1;
     message_status := message_status db1 |}.

(** A verifier that knows one token, issued to Boris. *)
Definition verify_boris (token : string) : option Z :=
  if String.eqb token "t-boris" then Some 3 else None.

(** [db1] with a second group that has a creator and no member, as a
    group is when only its row was inserted. *)
Definition db_general : DB :=
  {| users := users db1;
     groups := groups db1
               ++ [{| g_id := 8; g_name := "General"; g_created_by := Some 1 |}];
     group_members := group_members db1;
     messages := messages db1; seq_messages := seq_messages db1;
     message_tags := message_tags db1;
     message_status := message_status db1 |}.

(** Everyone belongs to organization 1, and so does every group. *)
Definition one_org : Z -> option Z := fun _ => Some 1.

(** Message 2, of Chen, answers message 1 in group 7. *)
Definition db_reply : DB :=
  set_messages Sample.db1
    (messages Sample.db1
       ++ [{| m_id := 2; m_sender := 4; m_group := 7;
              m_content := "on my way"; m_type := "text";
              m_reply_to := Some 1; m_edited_at := None;
              m_created_at := 200 |}])
    2.

(** An answer to message 1. *)
Definition answer : Messages.create_request :=
  {| Messages.cr_groupId := 7; Messages.cr_content := "me too";
     Messages.cr_type := None; Messages.cr_replyTo := Some 1;
     Messages.cr_tags := None |}.

(** An answer to message 1 with white space around its text and two
    tags. *)
Definition padded : Messages.create_request :=
  {| Messages.cr_groupId := 7; Messages.cr_content := "  on my way ";
     Messages.cr_type := None; Messages.cr_replyTo := Some 1;
     Messages.cr_tags :=
       Some [Messages.TagString "urgent";
             Messages.TagObject "place" (Some "north")] |}.

End MoreSamples.

(** * Properties *)

(** ** Group access *)

Module AuthFacts.
Import Store Auth.

Lemma filter_none {A} (f : A -> bool) (l : list A) :
  (forall x, In x l -> f x = false) -> List.filter f l = [].
Proof.
  induction l as [|a l IH]; intros H; simpl; [reflexivity|].
  rewrite (H a (or_introl eq_refl)). apply IH.
  intros x Hx. apply H. right. exact Hx.
Qed.

(** Without a row in group_members the access query selects nothing. *)
Lemma membership_query_no_row userId groupId d :
  (forall gm, In gm (group_members d) ->
              ~ (gm_user gm = userId /\ gm_group gm = groupId)) ->
  membership_query userId groupId d = None.
Proof.
  intros H. unfold membership_query, membership_rows.
  rewrite filter_none; [reflexivity|].
  intros gm Hgm. apply andb_false_iff.
  destruct (Z.eqb_spec (gm_user gm) userId) as [Hu|Hu]; [|now left].
  destruct (Z.eqb_spec (gm_group gm) groupId) as [Hg|Hg]; [|now right].
  exfalso. exact (H gm Hgm (conj Hu Hg)).
Qed.

(** The answer of [canAccessGroup] when the storage call goes through. *)
Lemma canAccessGroup_answer fails userId groupId action w :
  fails (w_calls w) = false ->
  fst (canAccessGroup fails userId groupId action w) =
  Ok match membership_query userId groupId (w_db w) with
     | None => false
     | Some m =>
         if String.eqb (user_role m) "admin" then true
         else if is_creator m userId then true
         else action_policy m action
     end.
Proof.
  intros Hok. unfold canAccessGroup, try_catch, bind, getQuery.
  rewrite Hok.
  destruct (membership_query userId groupId (w_db w)) as [m|]; [|reflexivity].
  destruct (String.eqb (user_role m) "admin"); [reflexivity|].
  destruct (is_creator m userId); reflexivity.
Qed.

(** [canAccessGroup] issues one storage call and leaves the store alone. *)
Lemma canAccessGroup_world fails userId groupId action w :
  snd (canAccessGroup fails userId groupId action w) = bump w (w_db w).
Proof.
  unfold canAccessGroup, try_catch, bind, getQuery.
  destruct (fails (w_calls w)); [reflexivity|].
  destruct (membership_query userId groupId (w_db w)) as [m|]; [|reflexivity].
  destruct (String.eqb (user_role m) "admin"); [reflexivity|].
  destruct (is_creator m userId); reflexivity.
Qed.

Lemma is_creator_true m userId :
  created_by m = Some userId -> is_creator m userId = true.
Proof. unfold is_creator. intros ->. apply Z.eqb_refl. Qed.

Lemma is_creator_false m userId :
  created_by m <> Some userId -> is_creator m userId = false.
Proof.
  unfold is_creator. destruct (created_by m) as [c|]; [|reflexivity].
  intros H. apply Z.eqb_neq. intros ->. now apply H.
Qed.

(** C3, as stated, fails: the administrator (global role admin) has no
    membership row for group 7, and [canAccessGroup] answers false. *)
Lemma global_admin_without_membership_denied :
  u_role Sample.admin = "admin"
  /\ In Sample.admin (users Sample.db0)
  /\ (forall gm, In gm (group_members Sample.db0) -> gm_user gm <> u_id Sample.admin)
  /\ fst (canAccessGroup no_fault (u_id Sample.admin) 7 "read" (start Sample.db0))
     = Ok false.
Proof.
  split; [reflexivity|]. split; [left; reflexivity|]. split; [|reflexivity].
  intros gm [<-|[<-|[<-|[]]]]; simpl; lia.
Qed.

(** C3 (amended): [canAccessGroup] first looks for the caller's membership
    row (joined with the group and the user).  Without one the answer is
    false for every caller, global admins and the group's creator
    included.  With one, the first match wins: global role admin gives
    true; else being the group's creator gives true; else read and write
    give true, delete and manage give true exactly for the group roles
    admin and moderator, and any other action gives false.  A failed
    storage call gives false. *)
Theorem canAccessGroup_resolution fails userId groupId action w :
  let answer := fst (canAccessGroup fails userId groupId action w) in
  (fails (w_calls w) = true -> answer = Ok false)
  /\ (fails (w_calls w) = false ->
      ((forall gm, In gm (group_members (w_db w)) ->
                   ~ (gm_user gm = userId /\ gm_group gm = groupId)) ->
       answer = Ok false)
      /\ (forall m, membership_query userId groupId (w_db w) = Some m ->
          (user_role m = "admin" -> answer = Ok true)
          /\ (user_role m <> "admin" -> created_by m = Some userId ->
              answer = Ok true)
          /\ (user_role m <> "admin" -> created_by m <> Some userId ->
              (action = "read" \/ action = "write" -> answer = Ok true)
              /\ (action = "delete" \/ action = "manage" ->
                  answer = Ok (includes ["admin"; "moderator"] (role m)))
              /\ (action <> "read" -> action <> "write" ->
                  action <> "delete" -> action <> "manage" ->
                  answer = Ok false)))).
Proof.
  intros answer. subst answer. split.
  - intros Hf. unfold canAccessGroup, try_catch, bind, getQuery.
    rewrite Hf. reflexivity.
  - intros Hok. rewrite (canAccessGroup_answer _ _ _ _ _ Hok). split.
    + intros Hno. now rewrite (membership_query_no_row _ _ _ Hno).
    + intros m ->. split; [|split].
      * intros ->. reflexivity.
      * intros Hna Hc. apply String.eqb_neq in Hna. rewrite Hna.
        now rewrite (is_creator_true _ _ Hc).
      * intros Hna Hc. apply String.eqb_neq in Hna. rewrite Hna.
        rewrite (is_creator_false _ _ Hc). unfold action_policy.
        split; [|split].
        -- intros [-> | ->]; reflexivity.
        -- intros [-> | ->]; reflexivity.
        -- intros H1 H2 H3 H4.
           apply String.eqb_neq in H1, H2, H3, H4.
           now rewrite H1, H2, H3, H4.
Qed.

(** Boris, a plain member of group 7, may write there but not delete. *)
Lemma canAccessGroup_resolution_witness :
  fst (canAccessGroup no_fault 3 7 "write" (start Sample.db0)) = Ok true
  /\ fst (canAccessGroup no_fault 3 7 "delete" (start Sample.db0)) = Ok false.
Proof.
  split.
  - destruct (canAccessGroup_resolution no_fault 3 7 "write" (start Sample.db0))
      as [_ H].
    destruct (H eq_refl) as [_ Hm].
    destruct (Hm _ eq_refl) as (_ & _ & Hp).
    destruct Hp as (Hrw & _ & _); [discriminate | discriminate |].
    apply Hrw. right. reflexivity.
  - destruct (canAccessGroup_resolution no_fault 3 7 "delete" (start Sample.db0))
      as [_ H].
    destruct (H eq_refl) as [_ Hm].
    destruct (Hm _ eq_refl) as (_ & _ & Hp).
    destruct Hp as (_ & Hd & _); [discriminate | discriminate |].
    apply Hd. left. reflexivity.
Defined.

End AuthFacts.

(** ** Storage calls, step by step *)

Module StoreFacts.
Import Store.

Lemma runQuery_ok {A} fails (stmt : DB -> option (A * DB)) w a d' :
  fails (w_calls w) = false -> stmt (w_db w) = Some (a, d') ->
  runQuery fails stmt w = (Ok a, bump w d').
Proof. intros Hf Hs. unfold runQuery. now rewrite Hf, Hs. Qed.

Lemma runQuery_fault {A} fails (stmt : DB -> option (A * DB)) w :
  fails (w_calls w) = true ->
  runQuery fails stmt w = (Throw StorageError, bump w (w_db w)).
Proof. intros Hf. unfold runQuery. now rewrite Hf. Qed.

Lemma getQuery_ok {A} fails (q : DB -> A) w :
  fails (w_calls w) = false ->
  getQuery fails q w = (Ok (q (w_db w)), bump w (w_db w)).
Proof. intros Hf. unfold getQuery. now rewrite Hf. Qed.

Lemma head_In {A} (l : list A) x : head l = Some x -> In x l.
Proof. destruct l; simpl; [discriminate|]. intros [= ->]. now left. Qed.

Lemma head_is_Some {A} (l : list A) x : In x l -> exists y, head l = Some y.
Proof. destruct l; simpl; [contradiction|]. eauto. Qed.

Lemma NoDup_snoc {A} (l : list A) x :
  List.NoDup l -> ~ In x l -> List.NoDup (l ++ [x]).
Proof.
  induction l as [|a l IH]; simpl; intros Hnd Hx.
  - constructor; [intros [] | constructor].
  - inversion Hnd as [|? ? Hn Hl]; subst. constructor.
    + intros Hin. apply in_app_or in Hin as [Hin|[->|[]]]; [now apply Hn|].
      apply Hx. now left.
    + apply IH; [exact Hl|]. intros Hin. apply Hx. now right.
Qed.

Section InsertFacts.
Context {R : Type} (conflict : R -> R -> bool).

Lemma existsb_none (f : R -> bool) (l : list R) :
  (forall x, In x l -> f x = false) -> existsb f l = false.
Proof.
  induction l as [|a l IH]; intros H; simpl; [reflexivity|].
  rewrite (H a (or_introl eq_refl)). apply IH. intros x Hx. apply H. now right.
Qed.

End InsertFacts.

End StoreFacts.

(** ** Creating a message *)

Module CreateFacts.
Import Store Auth Messages Invariants StoreFacts.

Lemma same_but_tags_refl d : same_but_tags d d.
Proof. repeat split. Qed.

Lemma filter_map_NoDup {A B} (f : A -> B) (p : A -> bool) (l : list A) :
  List.NoDup (List.map f l) -> List.NoDup (List.map f (List.filter p l)).
Proof.
  induction l as [|a l IH]; simpl; intros H; [constructor|].
  inversion H as [|? ? Hn Hl]; subst.
  destruct (p a); simpl; [constructor|]; auto.
  intros Hin. apply Hn. apply in_map_iff in Hin as (x & Hx & Hi).
  apply in_map_iff. exists x. split; [exact Hx|].
  apply filter_In in Hi. tauto.
Qed.


(** The access query selects a row only for a member who is a user. *)
Lemma membership_query_row userId groupId d m :
  membership_query userId groupId d = Some m ->
  (exists gm, In gm (group_members d)
              /\ gm_user gm = userId /\ gm_group gm = groupId)
  /\ (exists u, In u (users d) /\ u_id u = userId).
Proof.
  intros H. apply head_In in H. unfold membership_rows in H.
  apply in_flat_map in H as (gm & Hgm & H).
  apply filter_In in Hgm as [Hgm Hk]. apply andb_true_iff in Hk as [Hku Hkg].
  apply Z.eqb_eq in Hku, Hkg.
  apply in_flat_map in H as (g & _ & H).
  apply in_map_iff in H as (u & _ & Hu).
  apply filter_In in Hu as [Hu Hk]. apply Z.eqb_eq in Hk.
  split; [exists gm | exists u]; repeat split; try assumption; congruence.
Qed.

(** message_tags takes every row: nothing collides. *)
Lemma insert_tag_appends row d :
  insert_tag row d = Some (tt, set_message_tags d (message_tags d ++ [row])).
Proof.
  unfold insert_tag, insert_abort.
  now rewrite (existsb_none (tag_conflict row) (message_tags d)).
Qed.

Section NoFault.
Variable trim : string -> string.
Variable sqlite : engine.
Variable fails : nat -> bool.
Hypothesis never : forall n, fails n = false.




Lemma NoDup_map_coarser {A B C} (f : A -> B) (g : A -> C) (l : list A) :
  (forall x y, In x l -> In y l -> g x = g y -> f x = f y) ->
  List.NoDup (List.map f l) -> List.NoDup (List.map g l).
Proof.
  induction l as [|a l IH]; simpl; intros Hfg Hnd; [constructor|].
  inversion Hnd as [|? ? Hn Hl]; subst. constructor.
  - intros Hin. apply Hn. apply in_map_iff in Hin as (x & Hx & Hi).
    apply in_map_iff. exists x. split; [|exact Hi].
    apply Hfg; [now right | now left | exact Hx].
  - apply IH; [|exact Hl]. intros x y Hx Hy. apply Hfg; now right.
Qed.



End NoFault.


(** *** Faults in the middle of the create route *)

Lemma insert_tags_progress fails messageId userId tags w :
  exists stored rest,
    tag_rows messageId userId tags = stored ++ rest
    /\ same_but_tags (w_db w)
         (w_db (snd (insert_tags fails messageId userId tags w)))
    /\ message_tags (w_db (snd (insert_tags fails messageId userId tags w)))
       = message_tags (w_db w) ++ stored
    /\ (fst (insert_tags fails messageId userId tags w) = Ok tt -> rest = []).
Proof.
  revert w. induction tags as [|t tags IH]; intros w.
  - exists [], []. cbn. rewrite app_nil_r.
    repeat split; reflexivity.
  - assert (Hstep : forall row,
      exists stored rest,
        row :: tag_rows messageId userId tags = stored ++ rest
        /\ same_but_tags (w_db w)
             (w_db (snd (bind (runQuery fails (insert_tag row))
                           (fun _ => insert_tags fails messageId userId tags) w)))
        /\ message_tags
             (w_db (snd (bind (runQuery fails (insert_tag row))
                           (fun _ => insert_tags fails messageId userId tags) w)))
           = message_tags (w_db w) ++ stored
        /\ (fst (bind (runQuery fails (insert_tag row))
                   (fun _ => insert_tags fails messageId userId tags) w) = Ok tt
            -> rest = [])).
    { intros row. unfold bind, runQuery.
      destruct (fails (w_calls w)).
      - exists [], (row :: tag_rows messageId userId tags). cbn.
        rewrite app_nil_r. repeat split; try reflexivity. discriminate.
      - rewrite insert_tag_appends.
        match goal with
        | |- context [insert_tags _ _ _ _ ?w0] =>
            destruct (IH w0) as (stored & rest & Hsplit & Hsame & Htags & Hok);
            destruct (insert_tags fails messageId userId tags w0) as [[[]|e] w']
        end; cbn [fst snd bump w_db set_message_tags message_tags] in *;
          exists (row :: stored), rest;
          (split; [now rewrite Hsplit|]);
          (split; [exact Hsame|]);
          (split; [now rewrite Htags, <- app_assoc|]); [exact Hok | discriminate]. }
    destruct t as [s | ty v |]; cbn [insert_tags tag_rows].
    + apply Hstep.
    + destruct (Str.truthy ty); [apply Hstep | apply IH].
    + exists [], []. cbn. rewrite app_nil_r.
      repeat split; try reflexivity.
Qed.


Lemma insert_abort_all_appends {R} (conflict : R -> R -> bool) rows t t' :
  insert_abort_all conflict rows t = Some t' -> t' = t ++ rows.
Proof.
  revert t. induction rows as [|r rows IH]; intros t; cbn [insert_abort_all].
  - intros [= <-]. now rewrite app_nil_r.
  - unfold insert_abort. destruct (existsb (conflict r) t); [discriminate|].
    intros H. apply IH in H. now rewrite H, <- app_assoc.
Qed.

Lemma canAccessGroup_total fails userId groupId action w :
  exists b, canAccessGroup fails userId groupId action w
            = (Ok b, bump w (w_db w)).
Proof.
  unfold canAccessGroup, try_catch, bind, getQuery.
  destruct (fails (w_calls w)); [eexists; reflexivity|].
  destruct (membership_query userId groupId (w_db w)) as [m|];
    [|eexists; reflexivity].
  destruct (String.eqb (user_role m) "admin"); [eexists; reflexivity|].
  destruct (is_creator m userId); eexists; reflexivity.
Qed.

Lemma stored_nothing d : stored_of d d [] [] [].
Proof. unfold stored_of. rewrite !app_nil_r. repeat split. cbn. lia. Qed.

Lemma outcome_nothing trim now user r d res c :
  status_of res <> 201 ->
  create_outcome trim now user r d (res, {| w_db := d; w_calls := c |}).
Proof.
  intros Hst. exists [], [], []. cbn [fst snd w_db].
  split; [apply stored_nothing|]. split; [left; repeat split|].
  intros H. contradiction.
Qed.

Lemma outcome_partial trim now user r d d' stored rest res c :
  stored_of d d' [new_message trim now user r d] stored [] ->
  tag_rows (seq_messages d + 1) (u_id user)
    (match cr_tags r with Some l => l | None => [] end) = stored ++ rest ->
  status_of res <> 201 ->
  create_outcome trim now user r d (res, {| w_db := d'; w_calls := c |}).
Proof.
  intros Hs Hsplit Hst. exists [new_message trim now user r d], stored, [].
  cbn [fst snd w_db]. split; [exact Hs|]. split.
  - right. split; [reflexivity|]. split; [now exists rest | now left].
  - intros H. contradiction.
Qed.

Lemma outcome_full trim now user r d d' res c :
  stored_of d d' [new_message trim now user r d]
    (tag_rows (seq_messages d + 1) (u_id user)
       (match cr_tags r with Some l => l | None => [] end))
    (fanout_rows now (seq_messages d + 1) (u_id user) (cr_groupId r) d) ->
  create_outcome trim now user r d (res, {| w_db := d'; w_calls := c |}).
Proof.
  intros Hs. eexists _, _, _. cbn [fst snd w_db]. split; [exact Hs|]. split.
  - right. split; [reflexivity|]. split; [exists []; now rewrite app_nil_r|].
    right. now split.
  - intros _. repeat split.
Qed.

(** Whatever storage call fails, the create route leaves a prefix of
    message, tags, fan-out stored. *)
Lemma createMessage_outcome trim sqlite fails now user r w :
  create_outcome trim now user r (w_db w)
    (createMessage trim sqlite fails now user r w).
Proof.
  destruct w as [d c0]. cbn [w_db].
  unfold createMessage, catch_500.
  destruct (validate_create r); cbn [negb].
  2:{ apply outcome_nothing. cbn. lia. }
  unfold bind at 1.
  destruct (canAccessGroup_total fails (u_id user) (cr_groupId r) "write"
              {| w_db := d; w_calls := c0 |}) as (b & Hb).
  rewrite Hb. unfold bump at 1. cbn [w_db w_calls].
  destruct b; cbn [negb].
  2:{ apply outcome_nothing. cbn. lia. }
  unfold bind at 1.
  assert (Hreply : exists o c,
             match reply_target r with
             | Some p => getQuery fails (reply_exists p (cr_groupId r))
             | None => ret true
             end {| w_db := d; w_calls := S c0 |}
             = (o, {| w_db := d; w_calls := c |})).
  { destruct (reply_target r); [unfold getQuery; destruct (fails _)|];
      eexists _, _; reflexivity. }
  destruct Hreply as (o & c1 & Hr). rewrite Hr.
  destruct o as [[|]|e]; cbn [negb];
    [| apply outcome_nothing; cbn; lia | apply outcome_nothing; cbn; lia].
  unfold bind at 1. unfold runQuery at 1. cbn [w_calls w_db].
  destruct (fails c1).
  { apply outcome_nothing. cbn. lia. }
  cbn [insert_message]. unfold bind at 1.
  match goal with
  | |- context [insert_tags _ ?i ?us ?ts ?w0] =>
      destruct (insert_tags_progress fails i us ts w0)
        as (stored & rest & Hsplit & Hsame & Htags & Hok);
      destruct (insert_tags fails i us ts w0) as [[[]|e] [d3 c3]]
  end; cbn [fst snd bump w_db] in Hsame, Htags, Hok;
    destruct Hsame as (Hu & Hg & Hm & Hms & Hseq & Hst);
    cbn [set_messages users groups group_members messages message_status
           message_tags seq_messages] in Hu, Hg, Hm, Hms, Hseq, Hst, Htags.
  2:{ (* a tag insert failed *)
      apply (outcome_partial _ _ _ _ _ _ stored rest); [|exact Hsplit|cbn; lia].
      unfold stored_of. rewrite Hu, Hg, Hm, Hms, Hseq, Htags, Hst, app_nil_r.
      repeat split. }
  specialize (Hok eq_refl). subst rest. rewrite app_nil_r in Hsplit.
  assert (Hfan : fanout_rows now (seq_messages d + 1) (u_id user) (cr_groupId r) d3
                 = fanout_rows now (seq_messages d + 1) (u_id user) (cr_groupId r) d).
  { unfold fanout_rows. now rewrite Hm. }
  assert (Hpart : stored_of d d3 [new_message trim now user r d] stored []).
  { unfold stored_of. rewrite Hu, Hg, Hm, Hms, Hseq, Htags, Hst, app_nil_r.
    repeat split. }
  unfold bind at 1. unfold runQuery at 1. cbn [w_calls w_db].
  destruct (fails c3).
  { apply (outcome_partial _ _ _ _ _ _ stored []);
      [exact Hpart | now rewrite app_nil_r | cbn; lia]. }
  unfold fanout at 1. rewrite Hfan.
  destruct (insert_abort_all status_conflict _ (message_status d3))
    as [t|] eqn:Hins.
  2:{ apply (outcome_partial _ _ _ _ _ _ stored []);
      [exact Hpart | now rewrite app_nil_r | cbn; lia]. }
  apply insert_abort_all_appends in Hins. subst t.
  assert (Hall : stored_of d
                   (set_message_status d3
                      (message_status d3 ++
                         fanout_rows now (seq_messages d + 1) (u_id user)
                           (cr_groupId r) d))
                   [new_message trim now user r d]
                   (tag_rows (seq_messages d + 1) (u_id user)
                      (match cr_tags r with Some l => l | None => [] end))
                   (fanout_rows now (seq_messages d + 1) (u_id user)
                      (cr_groupId r) d)).
  { unfold stored_of.
    cbn [set_message_status users groups group_members messages
           seq_messages message_tags message_status].
    rewrite Hu, Hg, Hm, Hms, Hseq, Htags, Hst, Hsplit. repeat split. }
  unfold bind at 1. unfold getQuery at 1. cbn [bump w_calls w_db].
  destruct (fails (S c3));
    [| destruct (select_message _ _) as [[[m' u'] ts]|]];
    apply outcome_full; exact Hall.
Qed.


End CreateFacts.

(** ** Read receipts *)

Module ReadFacts.
Import Store Auth Messages Invariants StoreFacts.

Lemma filter_filter {A} (f g : A -> bool) (l : list A) :
  List.filter f (List.filter g l) = List.filter (fun x => g x && f x) l.
Proof.
  induction l as [|a l IH]; simpl; [reflexivity|].
  destruct (g a); simpl; [destruct (f a)|]; now rewrite IH.
Qed.

Lemma status_conflict_key a b :
  status_conflict a b = true <->
  (ms_message a, ms_user a) = (ms_message b, ms_user b).
Proof.
  unfold status_conflict. rewrite andb_true_iff, !Z.eqb_eq.
  split; [intros [-> ->]; reflexivity | intros [= -> ->]; now split].
Qed.

(** INSERT OR REPLACE of rows with pairwise different keys: the stored rows
    with one of those keys go, the new rows are appended. *)
Lemma insert_or_replace_all_spec rows t :
  List.NoDup (List.map (fun r => (ms_message r, ms_user r)) rows) ->
  insert_or_replace_all status_conflict rows t
  = List.filter (survives rows) t ++ rows.
Proof.
  unfold insert_or_replace_all. revert t.
  induction rows as [|r rows IH]; intros t Hnd; cbn [fold_left].
  - unfold survives. simpl. rewrite app_nil_r.
    induction t as [|a t IHt]; simpl; [reflexivity | now rewrite <- IHt].
  - simpl in Hnd. inversion Hnd as [|? ? Hr Hnd']; subst.
    rewrite (IH _ Hnd'). unfold insert_or_replace.
    rewrite List.filter_app, filter_filter, <- app_assoc. f_equal.
    + apply List.filter_ext. intros old. unfold survives. simpl.
      now rewrite negb_orb.
    + simpl. replace (survives rows r) with true; [reflexivity|].
      symmetry. unfold survives. apply negb_true_iff. apply existsb_none.
      intros r' Hr'. destruct (status_conflict r' r) eqn:Hc; [|reflexivity].
      exfalso. apply Hr. apply status_conflict_key in Hc. rewrite <- Hc.
      now apply (in_map (fun r => (ms_message r, ms_user r))).
Qed.

Lemma NoDup_map_inj {A B} (f : A -> B) (l : list A) x y :
  List.NoDup (List.map f l) -> In x l -> In y l -> f x = f y -> x = y.
Proof.
  induction l as [|a l IH]; simpl; intros Hnd Hx Hy Hf; [contradiction|].
  inversion Hnd as [|? ? Hn Hl]; subst.
  destruct Hx as [->|Hx], Hy as [->|Hy]; auto.
  - exfalso. apply Hn. rewrite Hf. now apply in_map.
  - exfalso. apply Hn. rewrite <- Hf. now apply in_map.
Qed.

Lemma filter_one {A} (p : A -> bool) (l : list A) x :
  List.NoDup l -> In x l -> p x = true ->
  (forall y, In y l -> p y = true -> y = x) ->
  List.filter p l = [x].
Proof.
  induction l as [|a l IH]; simpl; intros Hnd Hx Hp Hu; [contradiction|].
  inversion Hnd as [|? ? Hn Hl]; subst.
  destruct Hx as [->|Hx].
  - rewrite Hp. f_equal. apply AuthFacts.filter_none.
    intros y Hy. destruct (p y) eqn:Hpy; [|reflexivity].
    exfalso. apply Hn. rewrite <- (Hu y (or_intror Hy) Hpy). exact Hy.
  - destruct (p a) eqn:Hpa.
    + exfalso. apply Hn. rewrite (Hu a (or_introl eq_refl) Hpa). exact Hx.
    + apply IH; auto.
Qed.

Section Upsert.
Variables (userId groupId : Z) (d : DB).
Hypothesis unique_ids : messages_unique d.

Lemma read_rows_keys now :
  List.map (fun r => (ms_message r, ms_user r)) (read_rows now userId groupId d)
  = List.map (fun m => (m_id m, userId)) (unread userId groupId d).
Proof. unfold read_rows. rewrite map_map. reflexivity. Qed.

Lemma read_rows_NoDup_keys now :
  List.NoDup (List.map (fun r => (ms_message r, ms_user r))
                (read_rows now userId groupId d)).
Proof.
  rewrite read_rows_keys.
  apply (CreateFacts.NoDup_map_coarser m_id).
  - intros x y _ _ [= H]. exact H.
  - apply CreateFacts.filter_map_NoDup. exact unique_ids.
Qed.

Lemma read_rows_NoDup now : List.NoDup (read_rows now userId groupId d).
Proof. eapply NoDup_map_inv. apply read_rows_NoDup_keys. Qed.

(** Which stored rows survive does not depend on the time of the upsert. *)
Lemma survives_any_time t t' old :
  survives (read_rows t userId groupId d) old
  = survives (read_rows t' userId groupId d) old.
Proof.
  unfold survives, read_rows. f_equal.
  generalize (List.filter
                (fun m => (m_group m =? groupId) && negb (m_sender m =? userId))
                (messages d)).
  intros l. induction l as [|m l IH]; simpl; [reflexivity | now rewrite IH].
Qed.

Lemma read_rows_replaced t t' r :
  In r (read_rows t userId groupId d) ->
  survives (read_rows t' userId groupId d) r = false.
Proof.
  intros Hr. unfold survives. apply negb_false_iff. apply existsb_exists.
  unfold read_rows in Hr. apply in_map_iff in Hr as (m & <- & Hm).
  exists {| ms_message := m_id m; ms_user := userId; ms_read_at := Some t';
            ms_delivered_at := t' |}.
  split.
  - unfold read_rows.
    now apply (in_map (fun m => {| ms_message := m_id m; ms_user := userId;
                                   ms_read_at := Some t';
                                   ms_delivered_at := t' |})).
  - unfold status_conflict. simpl. now rewrite !Z.eqb_refl.
Qed.

Lemma mark_group_read_status now :
  mark_group_read now userId groupId d
  = Some (tt, set_message_status d
                (List.filter (survives (read_rows now userId groupId d))
                   (message_status d)
                 ++ read_rows now userId groupId d)).
Proof.
  unfold mark_group_read.
  now rewrite (insert_or_replace_all_spec _ _ (read_rows_NoDup_keys now)).
Qed.

(** After the upsert the reader has exactly one status row for each
    selected message, read and delivered at the time of the upsert. *)
Lemma marked_rows now m :
  In m (unread userId groupId d) ->
  List.filter (fun row => (ms_message row =? m_id m) && (ms_user row =? userId))
    (List.filter (survives (read_rows now userId groupId d)) (message_status d)
     ++ read_rows now userId groupId d)
  = [{| ms_message := m_id m; ms_user := userId; ms_read_at := Some now;
        ms_delivered_at := now |}].
Proof.
  intros Hm. rewrite List.filter_app, filter_filter.
  rewrite AuthFacts.filter_none.
  - simpl. apply filter_one.
    + apply read_rows_NoDup.
    + unfold read_rows.
      now apply (in_map (fun m => {| ms_message := m_id m; ms_user := userId;
                                     ms_read_at := Some now;
                                     ms_delivered_at := now |})).
    + simpl. now rewrite !Z.eqb_refl.
    + intros y Hy Hp. unfold read_rows in Hy.
      apply in_map_iff in Hy as (m' & <- & Hm'). simpl in Hp.
      apply andb_true_iff in Hp as [Hp _]. apply Z.eqb_eq in Hp.
      assert (m' = m) as ->; [|reflexivity].
      apply (NoDup_map_inj m_id (unread userId groupId d)); auto.
      apply CreateFacts.filter_map_NoDup. exact unique_ids.
  - intros old _. destruct (survives _ old) eqn:Hs; [|reflexivity]. simpl.
    destruct ((ms_message old =? m_id m) && (ms_user old =? userId)) eqn:Hk;
      [|reflexivity].
    exfalso. apply andb_true_iff in Hk as [Hk1 Hk2]. apply Z.eqb_eq in Hk1, Hk2.
    unfold survives in Hs. apply negb_true_iff in Hs.
    rewrite <- not_true_iff_false in Hs. apply Hs. apply existsb_exists.
    exists {| ms_message := m_id m; ms_user := userId; ms_read_at := Some now;
              ms_delivered_at := now |}.
    split.
    + unfold read_rows.
      now apply (in_map (fun m => {| ms_message := m_id m; ms_user := userId;
                                     ms_read_at := Some now;
                                     ms_delivered_at := now |})).
    + unfold status_conflict. simpl. rewrite Hk1, Hk2. now rewrite !Z.eqb_refl.
Qed.

End Upsert.

(** The paged read either throws or hands back the rows of the query, and
    counts as one storage call. *)
Lemma allQuery_paged_run {A} fails limit offset (q : DB -> list A) w :
  (exists e, allQuery_paged fails limit offset q w
             = (Throw e, bump w (w_db w)))
  \/ (limit < 2 ^ 63 /\ offset < 2 ^ 63 /\ fails (w_calls w) = false
      /\ allQuery_paged fails limit offset q w
         = (Ok (q (w_db w)), bump w (w_db w))).
Proof.
  unfold allQuery_paged, refused, allQuery, getQuery.
  destruct (Z.leb_spec (2 ^ 63) limit); cbn [orb]; [left; eexists; reflexivity|].
  destruct (Z.leb_spec (2 ^ 63) offset); [left; eexists; reflexivity|].
  destruct (fails (w_calls w)); [left; eexists; reflexivity|].
  right. repeat split; assumption.
Qed.

(** A list request that is answered 200 leaves the store as its batch-read
    upsert does. *)
Lemma listMessages_marks_read isISO8601 sqlite fails now user groupId q w :
  status_of (fst (listMessages isISO8601 sqlite fails now user groupId q w))
  = 200 ->
  mark_group_read now (u_id user) groupId (w_db w)
  = Some (tt, w_db (snd (listMessages isISO8601 sqlite fails now user groupId
                           q w))).
Proof.
  destruct w as [d c]. unfold listMessages, catch_500, bind.
  destruct (CreateFacts.canAccessGroup_total fails (u_id user) groupId "read"
              {| w_db := d; w_calls := c |}) as (b & ->).
  destruct b; cbn [negb]; [|cbn; lia].
  destruct (validate_list isISO8601 q); cbn [negb]; [|cbn; lia].
  match goal with
  | |- context [allQuery_paged fails ?l ?o ?q0 ?w0] =>
      destruct (allQuery_paged_run fails l o q0 w0)
        as [(e & ->) | (_ & _ & _ & ->)]
  end; [cbn; lia|].
  unfold getQuery, runQuery, ret, bump. cbn [w_db w_calls].
  destruct (fails (S (S c))); [cbn; lia|].
  cbn -[Str.to_double].
  destruct (fails (S (S (S c)))); [cbn; lia|].
  cbn. reflexivity.
Qed.

(** C6, as stated, fails.  Boris read message 1 at time 150.  When he
    lists group 7 again at time 300 his row is replaced: read-at, which was
    not null, becomes 300.  And two mark-read events for the same message
    emit two message-read events. *)
Lemma reread_overwrites_and_reemits :
  In {| ms_message := 1; ms_user := 3; ms_read_at := Some 150;
        ms_delivered_at := 100 |} (message_status Sample.db1)
  /\ List.filter (fun row => (ms_message row =? 1) && (ms_user row =? 3))
       (message_status
          (w_db (snd (listMessages Sample.isISO8601 Sample.sqlite no_fault 300
                        Sample.boris 7 Sample.first_page
                        (start Sample.db1)))))
     = [{| ms_message := 1; ms_user := 3; ms_read_at := Some 300;
           ms_delivered_at := 300 |}]
  /\ List.map Server.em_event
       (snd (Server.on_mark_read Sample.boris_socket 300 7 1 Sample.server0)
        ++ snd (Server.on_mark_read Sample.boris_socket 301 7 1 Sample.server0))
     = [Server.MessageRead 1 3 300; Server.MessageRead 1 3 301].
Proof.
  split; [right; left; reflexivity|]. split; reflexivity.
Qed.

(** C6 (amended): the batch read of the list route replaces the reader's
    status row for every message of the group that the reader did not
    send, whether or not it was read before: afterwards the reader has
    exactly one row for each such message, with read-at and delivered-at
    at the time of the call.  A second call absorbs the first: the store
    after two calls is the store after the second call alone, so calling
    twice at the same time equals calling once.  The socket event
    mark-read writes nothing and emits one message-read to the room on
    every call. *)
Theorem group_read_absorbs t1 t2 userId groupId d :
  messages_unique d ->
  exists d1 d12 d2,
    mark_group_read t1 userId groupId d = Some (tt, d1)
    /\ mark_group_read t2 userId groupId d1 = Some (tt, d12)
    /\ mark_group_read t2 userId groupId d = Some (tt, d2)
    /\ d12 = d2
    /\ (forall m, In m (messages d) -> m_group m = groupId ->
                  m_sender m <> userId ->
        List.filter
          (fun row => (ms_message row =? m_id m) && (ms_user row =? userId))
          (message_status d2)
        = [{| ms_message := m_id m; ms_user := userId; ms_read_at := Some t2;
              ms_delivered_at := t2 |}])
    /\ (forall sock st messageId,
        let '(st1, e1) := Server.on_mark_read sock t1 groupId messageId st in
        let '(st2, e2) := Server.on_mark_read sock t2 groupId messageId st1 in
        st2 = st
        /\ e1 ++ e2
           = [{| Server.em_target := Server.RoomExcept groupId (Server.sk_id sock);
                 Server.em_event :=
                   Server.MessageRead messageId (u_id (Server.sk_user sock)) t1 |};
              {| Server.em_target := Server.RoomExcept groupId (Server.sk_id sock);
                 Server.em_event :=
                   Server.MessageRead messageId (u_id (Server.sk_user sock)) t2 |}]).
Proof.
  intros Hu.
  eexists _, _, _. split; [apply (mark_group_read_status _ _ _ Hu)|].
  split; [apply mark_group_read_status; exact Hu|].
  split; [apply (mark_group_read_status _ _ _ Hu)|].
  split; [|split].
  - unfold set_message_status. cbn [users groups group_members messages
                                      seq_messages message_tags message_status].
    f_equal.
    change (read_rows t2 userId groupId
              {| users := users d; groups := groups d;
                 group_members := group_members d; messages := messages d;
                 seq_messages := seq_messages d;
                 message_tags := message_tags d;
                 message_status := _ |})
      with (read_rows t2 userId groupId d).
    f_equal. rewrite List.filter_app.
    rewrite (AuthFacts.filter_none _ (read_rows t1 userId groupId d)).
    + rewrite app_nil_r, filter_filter. apply List.filter_ext.
      intros old. rewrite (survives_any_time _ _ _ t1 t2). apply andb_diag.
    + intros r Hr. eapply read_rows_replaced. exact Hr.
  - intros m Hm Hg Hs. cbn [set_message_status message_status].
    apply (marked_rows _ _ _ Hu). unfold unread. apply filter_In.
    split; [exact Hm|]. apply andb_true_iff. split; [now apply Z.eqb_eq|].
    apply negb_true_iff. now apply Z.eqb_neq.
  - intros sock st messageId. cbn. split; reflexivity.
Qed.

(** Chen opens group 7 twice, at times 150 and 300. *)
Lemma group_read_absorbs_witness :
  exists d1 d12 d2,
    mark_group_read 150 4 7 Sample.db1 = Some (tt, d1)
    /\ mark_group_read 300 4 7 d1 = Some (tt, d12)
    /\ mark_group_read 300 4 7 Sample.db1 = Some (tt, d2)
    /\ d12 = d2
    /\ List.filter (fun row => (ms_message row =? 1) && (ms_user row =? 4))
         (message_status d2)
       = [{| ms_message := 1; ms_user := 4; ms_read_at := Some 300;
             ms_delivered_at := 300 |}].
Proof.
  destruct (group_read_absorbs 150 300 4 7 Sample.db1)
    as (d1 & d12 & d2 & H1 & H12 & H2 & Heq & Hrow & _).
  - unfold messages_unique. simpl. repeat constructor. intros [].
  - exists d1, d12, d2. repeat (split; [assumption|]).
    apply (Hrow {| m_id := 1; m_sender := 2; m_group := 7; m_content := "hello";
                   m_type := "text"; m_reply_to := None; m_edited_at := None;
                   m_created_at := 100 |}).
    + left. reflexivity.
    + reflexivity.
    + discriminate.
Defined.

End ReadFacts.

(** ** Splitting what GROUP_CONCAT joined *)

Module StrFacts.
Import Str.

Lemma split_on_nonempty c s : split_on c s <> [].
Proof.
  destruct s as [|a s]; simpl; [discriminate|].
  destruct (Ascii.eqb a c); [discriminate|].
  destruct (split_on c s); discriminate.
Qed.

(** Cutting at a separator that was put between two strings. *)
Lemma split_on_app c a b :
  split_on c (String.append a (String c b)) = split_on c a ++ split_on c b.
Proof.
  induction a as [|x a IH]; simpl.
  - now rewrite Ascii.eqb_refl.
  - destruct (Ascii.eqb x c); [now rewrite IH|].
    rewrite IH. pose proof (split_on_nonempty c a) as Hne.
    destruct (split_on c a) as [|h t]; [contradiction | reflexivity].
Qed.

(** A string without the separator is one piece. *)
Lemma split_on_whole c s : has_char c s = false -> split_on c s = [s].
Proof.
  unfold has_char. induction s as [|a s IH]; simpl; [reflexivity|].
  intros H. apply orb_false_iff in H as [Ha Hs].
  rewrite Ascii.eqb_sym, Ha. now rewrite (IH Hs).
Qed.

(** Every comma-free value that went into GROUP_CONCAT comes out of the
    split as a piece of its own. *)
Lemma split_join_In x l :
  In x l -> has_char "," x = false ->
  In x (split_on "," (join_with "," l)).
Proof.
  intros Hin Hx. induction l as [|y l IH]; [contradiction|].
  destruct l as [|z l].
  - destruct Hin as [->|[]]. simpl. rewrite (split_on_whole _ _ Hx). now left.
  - change (join_with "," (y :: z :: l))
      with (String.append y (String "," (join_with "," (z :: l)))).
    rewrite split_on_app. apply in_or_app.
    destruct Hin as [->|Hin].
    + left. rewrite (split_on_whole _ _ Hx). now left.
    + right. apply IH. exact Hin.
Qed.

End StrFacts.

(** ** ORDER BY, LIMIT and OFFSET keep rows of the table *)

Module OrderFacts.
Import Order.

Section SortFacts.
Context {A : Type} (before : A -> A -> bool).

Lemma insert_sorted_In x y l :
  In y (insert_sorted before x l) <-> y = x \/ In y l.
Proof.
  induction l as [|a l IH]; simpl; [intuition|].
  destruct (before a x); simpl; rewrite ?IH; intuition.
Qed.

Lemma order_by_In y l : In y (order_by before l) <-> In y l.
Proof.
  induction l as [|a l IH]; simpl; [reflexivity|].
  rewrite insert_sorted_In, IH. intuition.
Qed.

Lemma insert_sorted_length x l :
  length (insert_sorted before x l) = S (length l).
Proof.
  induction l as [|a l IH]; simpl; [reflexivity|].
  destruct (before a x); simpl; [now rewrite IH | reflexivity].
Qed.

Lemma order_by_length l : length (order_by before l) = length l.
Proof.
  induction l as [|a l IH]; simpl; [reflexivity|].
  now rewrite insert_sorted_length, IH.
Qed.
End SortFacts.

Lemma In_firstn {A} n (l : list A) x : In x (firstn n l) -> In x l.
Proof.
  revert l. induction n as [|n IH]; intros [|a l]; simpl; try contradiction.
  intros [->|H]; [now left | right; now apply IH].
Qed.

Lemma In_skipn {A} n (l : list A) x : In x (skipn n l) -> In x l.
Proof.
  revert l. induction n as [|n IH]; intros [|a l]; simpl; auto.
Qed.

Lemma firstn_whole {A} n (l : list A) : (length l <= n)%nat -> firstn n l = l.
Proof.
  revert l. induction n as [|n IH]; intros [|a l]; simpl; intros H;
    try reflexivity; [lia|].
  f_equal. apply IH. lia.
Qed.

End OrderFacts.

(** ** Tags *)

Module TagFacts.
Import Store Auth Str Messages Invariants StoreFacts.

(** On message_tags INSERT OR IGNORE ignores nothing. *)
Lemma insert_or_ignore_appends row t :
  insert_or_ignore tag_conflict row t = t ++ [row].
Proof.
  unfold insert_or_ignore.
  now rewrite (existsb_none (tag_conflict row) t).
Qed.

Lemma valid_kind_cases kind :
  includes validTags kind = true ->
  kind = "urgent" \/ kind = "follow-up" \/ kind = "financial"
  \/ kind = "logistics" \/ kind = "medical" \/ kind = "security".
Proof.
  unfold includes, validTags. cbn [existsb].
  rewrite !orb_true_iff, !String.eqb_eq. intuition discriminate.
Qed.

(** The text of a row stored by add-tags has no comma and parses back to
    its kind, with a null value. *)
Lemma kind_text_parses messageId userId kind :
  includes validTags kind = true ->
  has_char "," (tag_text (kind_row messageId userId kind)) = false
  /\ tag_parts (tag_text (kind_row messageId userId kind)) = (kind, Some "")
  /\ truthy kind = true.
Proof.
  intros H.
  destruct (valid_kind_cases _ H) as [->|[->|[->|[->|[->| ->]]]]];
    repeat split; reflexivity.
Qed.

(** A stored row of a valid kind shows up in the tag view of its message. *)
Lemma stored_kind_in_view sqlite site d messageId userId kind :
  In (kind_row messageId userId kind) (message_tags d) ->
  includes validTags kind = true ->
  In {| tv_type := kind; tv_value := None |}
    (parse_tag_views (tags_of sqlite site messageId d)).
Proof.
  intros Hin Hv. unfold tags_of.
  set (rows := visit sqlite site d
                 (List.filter (fun mt => mt_message mt =? messageId)
                    (message_tags d))).
  assert (Hrow : In (kind_row messageId userId kind) rows).
  { apply (Permutation_in _ (Permutation_sym (visit_perm sqlite site d _))).
    apply filter_In. split; [exact Hin|]. simpl. apply Z.eqb_refl. }
  destruct (kind_text_parses messageId userId kind Hv) as (Hc & Hp & Ht).
  assert (Htext : In (tag_text (kind_row messageId userId kind))
                    (List.map tag_text rows)).
  { now apply in_map. }
  unfold group_concat.
  destruct (List.map tag_text rows) as [|t0 ts] eqn:Hts; [contradiction|].
  unfold parse_tag_views. apply filter_In. split; [|exact Ht].
  apply in_map_iff. exists (tag_text (kind_row messageId userId kind)).
  split; [now rewrite Hp|].
  apply StrFacts.split_join_In; assumption.
Qed.

(** Every entry of a listing answered 200 is a message of the store the
    request started from, with the tag view of that store. *)
Lemma listing_entries isISO8601 sqlite fails now reader groupId q w body e :
  fst (listMessages isISO8601 sqlite fails now reader groupId q w)
  = Json 200 body ->
  In e (l_messages body) ->
  exists m u, e = format_listed (m, u, tags_of sqlite InList (m_id m) (w_db w))
              /\ In m (messages (w_db w)).
Proof.
  destruct w as [d c]. unfold listMessages, catch_500, bind.
  destruct (CreateFacts.canAccessGroup_total fails (u_id reader) groupId "read"
              {| w_db := d; w_calls := c |}) as (b & ->).
  destruct b; cbn [negb]; [|cbn; discriminate].
  destruct (validate_list isISO8601 q); cbn [negb]; [|cbn; discriminate].
  match goal with
  | |- context [allQuery_paged fails ?l ?o ?q0 ?w0] =>
      destruct (ReadFacts.allQuery_paged_run fails l o q0 w0)
        as [(err & ->) | (_ & _ & _ & ->)]
  end; [cbn; discriminate|].
  unfold getQuery, runQuery, ret, bump. cbn [w_db w_calls].
  destruct (fails (S (S c))); [cbn; discriminate|].
  cbn -[Str.to_double]. destruct (fails (S (S (S c)))); [cbn; discriminate|].
  cbn -[Str.to_double]. intros [= <-]. cbn [l_messages]. intros He.
  apply in_rev, in_map_iff in He as ([[m u] ts] & <- & Hrow).
  unfold select_group_messages in Hrow.
  apply OrderFacts.In_firstn, OrderFacts.In_skipn, OrderFacts.order_by_In in Hrow.
  apply in_flat_map in Hrow as (m' & Hm' & Hrow).
  apply in_map_iff in Hrow as (u' & [= -> -> <-] & _).
  apply filter_In in Hm' as [Hm' _].
  exists m, u. split; [reflexivity | exact Hm'].
Qed.

Lemma filter_key_le_1 {A} (f : A -> Z) (k : Z) (l : list A) :
  List.NoDup (List.map f l) ->
  (length (List.filter (fun y => (k =? f y)%Z) l) <= 1)%nat.
Proof.
  induction l as [|a l IH]; simpl; intros Hnd; [lia|].
  inversion Hnd as [|? ? Hn Hl]; subst.
  destruct (Z.eqb_spec k (f a)) as [->|Hne]; [|now apply IH].
  simpl. rewrite AuthFacts.filter_none; [simpl; lia|].
  intros y Hy. apply Z.eqb_neq. intros Heq. apply Hn. rewrite Heq.
  now apply in_map.
Qed.

Lemma flat_map_length_le {A B} (f : A -> list B) (l : list A) :
  (forall x, length (f x) <= 1)%nat ->
  (length (flat_map f l) <= length l)%nat.
Proof.
  intros H. induction l as [|a l IH]; simpl; [lia|].
  rewrite length_app. specialize (H a). lia.
Qed.

Section NoFault.
Variable isISO8601 : string -> bool.
Variable sqlite : engine.
Variable fails : nat -> bool.
Hypothesis never : forall n, fails n = false.

(** The loop of add-tags stores the valid kinds, in order, and nothing
    else. *)
Lemma add_valid_tags_ok messageId userId tags w :
  exists w', add_valid_tags fails messageId userId tags w = (Ok tt, w')
             /\ same_but_tags (w_db w) (w_db w')
             /\ message_tags (w_db w')
                = message_tags (w_db w)
                  ++ List.map (kind_row messageId userId)
                       (List.filter (includes validTags) tags).
Proof.
  revert w. induction tags as [|t tags IH]; intros w; cbn [add_valid_tags].
  - exists w. split; [reflexivity|]. split; [apply CreateFacts.same_but_tags_refl|].
    simpl. now rewrite app_nil_r.
  - cbn [List.filter]. destruct (includes validTags t); [|apply IH].
    unfold bind. erewrite runQuery_ok; [|apply never|reflexivity].
    match goal with
    | |- context [add_valid_tags _ _ _ _ ?w0] =>
        destruct (IH w0) as (w' & -> & Hsame & Htags)
    end.
    exists w'. split; [reflexivity|]. split; [exact Hsame|].
    rewrite Htags. cbn [bump w_db set_message_tags message_tags List.map].
    rewrite insert_or_ignore_appends, <- app_assoc. reflexivity.
Qed.

(** A reader with a membership row gets the first page of a group of at
    most fifty messages, and every message of the group is on it. *)
Lemma first_page_has_message now reader m u c d :
  users_unique d ->
  In m (messages d) -> In u (users d) -> u_id u = m_sender m ->
  membership_query (u_id reader) (m_group m) d <> None ->
  (length (List.filter (fun x => (m_group x =? m_group m)%Z) (messages d)) <= 50)%nat ->
  exists body e,
    fst (listMessages isISO8601 sqlite fails now reader (m_group m)
           {| lq_limit := None; lq_offset := None; lq_since := None |}
           {| w_db := d; w_calls := c |}) = Json 200 body
    /\ In e (l_messages body) /\ lm_id e = m_id m.
Proof.
  intros Huu Hm Hu Hus Hmem Hlen.
  destruct (membership_query (u_id reader) (m_group m) d) as [mm|] eqn:Hq;
    [clear Hmem | contradiction].
  unfold listMessages, catch_500, bind.
  rewrite (surjective_pairing (canAccessGroup fails _ _ _ _)).
  rewrite AuthFacts.canAccessGroup_world,
    (AuthFacts.canAccessGroup_answer _ _ _ _ _ (never _)).
  cbn [w_db]. rewrite Hq.
  replace (if String.eqb (user_role mm) "admin" then true
           else if is_creator mm (u_id reader) then true
                else action_policy mm "read") with true
    by (destruct (String.eqb (user_role mm) "admin"); [reflexivity|];
        destruct (is_creator mm (u_id reader)); reflexivity).
  cbn [negb validate_list lq_limit lq_offset lq_since andb].
  change (allQuery_paged fails (or_default None 50) (or_default None 0))
    with (@allQuery fails (message_row * user_row * option string)).
  unfold allQuery. rewrite !(getQuery_ok _ _ _ (never _)).
  erewrite runQuery_ok; [|apply never|reflexivity].
  cbn [fst]. eexists.
  exists (format_listed (m, u, tags_of sqlite InList (m_id m) d)).
  split; [reflexivity|]. split; [|reflexivity].
  cbn [l_messages bump w_db]. apply in_rev. rewrite rev_involutive.
  apply (in_map format_listed).
  unfold select_group_messages.
  change (Z.to_nat (or_default None 0)) with 0%nat.
  change (Z.to_nat (or_default None 50)) with 50%nat.
  cbn [skipn].
  rewrite OrderFacts.firstn_whole.
  - apply OrderFacts.order_by_In. apply in_flat_map. exists m. split.
    + apply filter_In. split; [exact Hm|]. now rewrite Z.eqb_refl.
    + apply (in_map (fun u0 => (m, u0, tags_of sqlite InList (m_id m) d))).
      apply filter_In. split; [exact Hu|]. apply Z.eqb_eq. congruence.
  - rewrite List.skipn_O, OrderFacts.order_by_length.
    etransitivity; [apply flat_map_length_le|].
    + intros x. rewrite List.length_map. apply filter_key_le_1. exact Huu.
    + etransitivity; [|exact Hlen]. apply Nat.eq_le_incl. f_equal.
      apply List.filter_ext. intros x. now rewrite andb_true_r.
Qed.

(** The status route reads nothing from message_tags. *)
Lemma getMessageStatus_ignores_tags reader messageId d d' c :
  same_but_tags d d' ->
  fst (getMessageStatus fails reader messageId {| w_db := d'; w_calls := c |})
  = fst (getMessageStatus fails reader messageId {| w_db := d; w_calls := c |}).
Proof.
  intros (Hu & _ & Hm & Hms & _ & Hst).
  unfold getMessageStatus, catch_500, bind, allQuery, getQuery, ret, bump.
  cbn [w_db w_calls]. rewrite never. unfold message_for_member.
  rewrite Hm, Hms.
  match goal with |- context [head ?l] => destruct (head l) end;
    [|reflexivity].
  cbn [w_db w_calls]. rewrite never. unfold select_read_status.
  rewrite Hu, Hst. reflexivity.
Qed.

(** C8 (amended): add-tags on a message the caller can see answers 200
    and stores, in order, one row for each requested kind of the
    enumeration; kinds outside it are skipped without an error and add-tags
    stores no row for them.  A stored kind is part of the tag view of that
    message in every listing of the store, and a member of the message's
    group gets such a listing.  The status route returns read receipts
    only: its answer is the same with and without the added tags. *)
Theorem added_tag_round_trip user messageId tags w :
  tags <> [] ->
  message_for_member messageId (u_id user) (w_db w) <> None ->
  let run := addTags fails user messageId tags w in
  let d' := w_db (snd run) in
  fst run = Json 200 {| ta_messageId := messageId;
                        ta_tags := List.filter (includes validTags) tags |}
  /\ same_but_tags (w_db w) d'
  /\ message_tags d'
     = message_tags (w_db w)
       ++ List.map (kind_row messageId (u_id user))
            (List.filter (includes validTags) tags)
  /\ (forall kind, In kind tags -> includes validTags kind = true ->
      In (kind_row messageId (u_id user) kind) (message_tags d')
      /\ (forall now reader groupId q c body e,
          fst (listMessages isISO8601 sqlite fails now reader groupId q
                 {| w_db := d'; w_calls := c |}) = Json 200 body ->
          In e (l_messages body) -> lm_id e = messageId ->
          In {| tv_type := kind; tv_value := None |} (lm_tags e))
      /\ (forall now reader m u c,
          users_unique d' -> In m (messages d') -> m_id m = messageId ->
          In u (users d') -> u_id u = m_sender m ->
          membership_query (u_id reader) (m_group m) d' <> None ->
          (length (List.filter (fun x => (m_group x =? m_group m)%Z)
                     (messages d')) <= 50)%nat ->
          exists body e,
            fst (listMessages isISO8601 sqlite fails now reader (m_group m)
                   {| lq_limit := None; lq_offset := None; lq_since := None |}
                   {| w_db := d'; w_calls := c |}) = Json 200 body
            /\ In e (l_messages body) /\ lm_id e = messageId
            /\ In {| tv_type := kind; tv_value := None |} (lm_tags e)))
  /\ (forall kind, includes validTags kind = false ->
      forall row, In row (message_tags d') -> mt_type row = kind ->
                  In row (message_tags (w_db w)))
  /\ (forall reader c,
      fst (getMessageStatus fails reader messageId {| w_db := d'; w_calls := c |})
      = fst (getMessageStatus fails reader messageId
               {| w_db := w_db w; w_calls := c |})).
Proof.
  intros Hne Hvis.
  assert (Hrun : exists w',
             addTags fails user messageId tags w
             = (Json 200 {| ta_messageId := messageId;
                            ta_tags := List.filter (includes validTags) tags |},
                w')
             /\ same_but_tags (w_db w) (w_db w')
             /\ message_tags (w_db w')
                = message_tags (w_db w)
                  ++ List.map (kind_row messageId (u_id user))
                       (List.filter (includes validTags) tags)).
  { unfold addTags, catch_500.
    destruct tags as [|t0 tags0] eqn:Etags; [contradiction|]. rewrite <- Etags.
    unfold bind. rewrite (getQuery_ok _ _ _ (never _)).
    destruct (message_for_member messageId (u_id user) (w_db w)) as [mid|];
      [|contradiction].
    destruct (add_valid_tags_ok messageId (u_id user) tags (bump w (w_db w)))
      as (w' & -> & Hsame & Htags).
    exists w'. split; [reflexivity|]. split; assumption. }
  destruct Hrun as (w' & Hrun & Hsame & Htags).
  intros run d'. subst run d'. rewrite Hrun. cbn [fst snd].
  assert (Hstored : forall kind, In kind tags -> includes validTags kind = true ->
                      In (kind_row messageId (u_id user) kind)
                        (message_tags (w_db w'))).
  { intros kind Hk Hv. rewrite Htags. apply in_or_app. right.
    apply in_map. apply filter_In. now split. }
  assert (Hview : forall kind, In kind tags -> includes validTags kind = true ->
                  forall now reader groupId q c body e,
                    fst (listMessages isISO8601 sqlite fails now reader groupId q
                           {| w_db := w_db w'; w_calls := c |}) = Json 200 body ->
                    In e (l_messages body) -> lm_id e = messageId ->
                    In {| tv_type := kind; tv_value := None |} (lm_tags e)).
  { intros kind Hk Hv now reader groupId q c body e Hres He Hid.
    destruct (listing_entries _ _ _ _ _ _ _ _ _ _ Hres He) as (m & u & -> & _).
    cbn [format_listed lm_id lm_tags w_db] in *. subst messageId.
    eapply stored_kind_in_view; [apply (Hstored kind Hk Hv) | exact Hv]. }
  split; [reflexivity|]. split; [exact Hsame|]. split; [exact Htags|].
  split; [|split].
  - intros kind Hk Hv. split; [now apply Hstored|]. split; [now apply Hview|].
    intros now reader m u c Huu Hm Hid Hu Hus Hmem Hlen.
    destruct (first_page_has_message now reader m u c (w_db w')
                Huu Hm Hu Hus Hmem Hlen) as (body & e & Hres & He & Hide).
    exists body, e. repeat split; try assumption; [congruence|].
    eapply Hview; eauto. congruence.
  - intros kind Hinv row Hrow Hty. rewrite Htags in Hrow.
    apply in_app_or in Hrow as [Hrow|Hrow]; [exact Hrow|].
    apply in_map_iff in Hrow as (k & <- & Hk). apply filter_In in Hk as [_ Hk].
    simpl in Hty. congruence.
  - intros reader c. now apply getMessageStatus_ignores_tags.
Qed.

End NoFault.

(** Boris tags message 1 as urgent and as "rumour"; only urgent is
    stored, and Chen finds it in the listing of group 7. *)
Lemma added_tag_round_trip_witness :
  let run := addTags no_fault Sample.boris 1 ["urgent"; "rumour"]
               (start Sample.db1) in
  fst run = Json 200 {| ta_messageId := 1; ta_tags := ["urgent"] |}
  /\ message_tags (w_db (snd run)) = [kind_row 1 3 "urgent"]
  /\ exists body e,
       fst (listMessages Sample.isISO8601 Sample.sqlite no_fault 300
              Sample.chen 7 Sample.first_page
              (start (w_db (snd run)))) = Json 200 body
       /\ In e (l_messages body) /\ lm_id e = 1
       /\ In {| tv_type := "urgent"; tv_value := None |} (lm_tags e).
Proof.
  destruct (added_tag_round_trip Sample.isISO8601 Sample.sqlite no_fault
              (fun _ => eq_refl) Sample.boris 1
              ["urgent"; "rumour"] (start Sample.db1))
    as (Hres & _ & Htags & Hkind & _); [discriminate | discriminate |].
  split; [exact Hres|]. split; [exact Htags|].
  destruct (Hkind "urgent") as (_ & _ & Hget); [now left | reflexivity |].
  apply (Hget 300 Sample.chen
           {| m_id := 1; m_sender := 2; m_group := 7; m_content := "hello";
              m_type := "text"; m_reply_to := None; m_edited_at := None;
              m_created_at := 100 |} Sample.amina 0%nat).
  - unfold users_unique. simpl.
    repeat constructor; simpl; intros H;
      repeat (destruct H as [H|H]; [discriminate H|]); exact H.
  - left. reflexivity.
  - reflexivity.
  - right. left. reflexivity.
  - reflexivity.
  - discriminate.
  - simpl. lia.
Defined.

(** C8, as stated, fails.  After Boris tagged message 1 as urgent the
    status route answers what it answered before, without any tag; and
    the create route stores the tag "rumour", which is outside the
    enumeration. *)
Lemma status_has_no_tags_and_create_takes_any_kind :
  (let w' := snd (addTags no_fault Sample.boris 1 ["urgent"] (start Sample.db1)) in
   List.map mt_type (message_tags (w_db w')) = ["urgent"]
   /\ status_of (fst (getMessageStatus no_fault Sample.chen 1 (start (w_db w'))))
      = 200
   /\ fst (getMessageStatus no_fault Sample.chen 1 (start (w_db w')))
      = fst (getMessageStatus no_fault Sample.chen 1 (start Sample.db1)))
  /\ includes validTags "rumour" = false
  /\ (let run := createMessage Sample.trim Sample.sqlite no_fault 200
                   Sample.amina Sample.rumour (start Sample.db0) in
      status_of (fst run) = 201
      /\ List.map mt_type (message_tags (w_db (snd run))) = ["rumour"]).
Proof. vm_compute. repeat split. Qed.

(** C9 fails on the code: message_tags declares no UNIQUE constraint, so
    the INSERT OR IGNORE of add-tags has nothing to collide with.  Boris
    tags message 1 as urgent twice; both requests are answered 200 and the
    store holds the pair (message 1, urgent) twice. *)
Lemma same_kind_stored_twice :
  let run1 := addTags no_fault Sample.boris 1 ["urgent"] (start Sample.db1) in
  let run2 := addTags no_fault Sample.boris 1 ["urgent"]
                (start (w_db (snd run1))) in
  status_of (fst run1) = 200 /\ status_of (fst run2) = 200
  /\ message_tags (w_db (snd run2))
     = [kind_row 1 3 "urgent"; kind_row 1 3 "urgent"].
Proof. vm_compute. repeat split. Qed.

End TagFacts.

(** ** Socket handlers *)

Module ServerFacts.
Import Store Server Invariants.

Lemma on_join_groups_db sock groupIds st :
  st_db (on_join_groups sock groupIds st) = st_db st.
Proof.
  unfold on_join_groups. revert st.
  induction groupIds as [|g gs IH]; intros st; simpl; [reflexivity|].
  now rewrite IH.
Qed.

(** No socket event writes to the store. *)
Lemma handle_db sock now ev st : st_db (fst (handle sock now ev st)) = st_db st.
Proof.
  destruct ev as [gs | [d|] | g | g | g m |]; simpl; try reflexivity.
  apply on_join_groups_db.
Qed.

(** A create request answered 201 has appended its message row. *)
Lemma http_create_persists trim sqlite fails now user r st body st' :
  http_create trim sqlite fails now user r st = (Messages.Json 201 body, st') ->
  messages (st_db st')
  = messages (st_db st) ++ [new_message trim now user r (st_db st)].
Proof.
  unfold http_create. intros H.
  pose proof (CreateFacts.createMessage_outcome trim sqlite fails now user r
                (start (st_db st))) as Hp.
  unfold create_outcome in Hp. cbv zeta in Hp. cbn [start w_db] in Hp.
  destruct (Messages.createMessage trim sqlite fails now user r (start (st_db st)))
    as [res w'] eqn:Hrun.
  injection H as -> <-. cbn [fst snd st_db] in *.
  destruct Hp as (msgs & tags & sts & Hstored & _ & H201).
  destruct (H201 eq_refl) as (-> & _ & _).
  destruct Hstored as (_ & _ & _ & Hm & _). exact Hm.
Qed.

(** C10: the handler of send-message returns the server state it was
    given, so no row of messages, message_tags or message_status is
    written.  A payload it can destructure is broadcast to the room except
    the sender and echoed to the sender as a message whose id is the clock
    reading (Date.now()); that message does not depend on the store, so its
    id is not one the store assigned.  Any other payload gets a
    message-error.  No socket event at all writes to the store, whereas
    a create request answered 201 over HTTP has appended its message
    row. *)
Theorem send_message_leaves_store sock now data st :
  fst (on_send_message sock now data st) = st
  /\ messages (st_db (fst (on_send_message sock now data st))) = messages (st_db st)
  /\ message_tags (st_db (fst (on_send_message sock now data st)))
     = message_tags (st_db st)
  /\ message_status (st_db (fst (on_send_message sock now data st)))
     = message_status (st_db st)
  /\ match data with
     | Some d =>
         exists m,
           snd (on_send_message sock now data st)
           = [{| em_target := RoomExcept (sd_groupId d) (sk_id sock);
                 em_event := NewMessage m |};
              {| em_target := Only (sk_id sock); em_event := MessageSent m |}]
           /\ lv_id m = now
           /\ lv_senderId m = u_id (sk_user sock)
           /\ lv_groupId m = sd_groupId d
           /\ lv_content m = sd_content d
     | None =>
         snd (on_send_message sock now data st)
         = [{| em_target := Only (sk_id sock);
               em_event := MessageError "Failed to send message" |}]
     end
  /\ (forall st2, snd (on_send_message sock now data st2)
                  = snd (on_send_message sock now data st))
  /\ (forall ev, st_db (fst (handle sock now ev st)) = st_db st)
  /\ (forall trim sqlite fails user r body st',
      http_create trim sqlite fails now user r st
      = (Messages.Json 201 body, st') ->
      messages (st_db st')
      = messages (st_db st) ++ [new_message trim now user r (st_db st)]).
Proof.
  assert (Hst : fst (on_send_message sock now data st) = st)
    by (destruct data; reflexivity).
  split; [exact Hst|]. rewrite Hst. repeat (split; [reflexivity|]).
  split; [|split; [|split]].
  - destruct data as [d|]; [|reflexivity].
    eexists. split; [reflexivity|]. repeat split.
  - intros st2. destruct data; reflexivity.
  - intros ev. apply handle_db.
  - intros trim sqlite fails user r body st'. apply http_create_persists.
Qed.

(** Amina sends "hello" over her socket at clock reading 1700000000000,
    and then posts it over HTTP. *)
Lemma send_message_leaves_store_witness :
  fst (on_send_message Sample.amina_socket 1700000000000
         (Some Sample.hello_data) Sample.server0) = Sample.server0
  /\ List.map (fun e => match em_event e with
                        | NewMessage m => lv_id m
                        | MessageSent m => lv_id m
                        | _ => 0
                        end)
       (snd (on_send_message Sample.amina_socket 1700000000000
               (Some Sample.hello_data) Sample.server0))
     = [1700000000000; 1700000000000]
  /\ List.map m_id
       (messages
          (st_db (snd (http_create Sample.trim Sample.sqlite no_fault
                         1700000000000 Sample.amina Sample.hello
                         Sample.server0))))
     = [1].
Proof.
  destruct (send_message_leaves_store Sample.amina_socket 1700000000000
              (Some Sample.hello_data) Sample.server0)
    as (Hst & _ & _ & _ & (m & Hout & Hid & _) & _ & _ & Hhttp).
  split; [exact Hst|]. split.
  - rewrite Hout. simpl. now rewrite Hid.
  - destruct (http_create Sample.trim Sample.sqlite no_fault 1700000000000
                Sample.amina Sample.hello Sample.server0)
      as [res st'] eqn:Hrun.
    assert (Hres : exists body, res = Messages.Json 201 body).
    { vm_compute in Hrun. injection Hrun as <- _. eexists. reflexivity. }
    destruct Hres as (body & ->).
    cbn [snd]. rewrite (Hhttp _ _ _ _ _ _ _ Hrun). reflexivity.
Defined.

(** C2 fails on the code: join-groups joins every room it is asked for.
    Dana is a volunteer with no membership row for group 7, and
    [canAccessGroup] denies her; yet after her join-groups the room is in
    her set of [userRooms], her socket is in the room, and she receives
    the new-message that Amina's send-message broadcasts there. *)
Lemma non_member_joins_and_receives :
  let st1 := on_join_groups Sample.dana_socket [7] Sample.server0 in
  let out := snd (on_send_message Sample.amina_socket 200
                    (Some Sample.hello_data) st1) in
  u_role Sample.dana = "volunteer"
  /\ fst (Auth.canAccessGroup no_fault 5 7 "read" (start Sample.db0)) = Ok false
  /\ userRooms st1 !! 5 = Some {[7]}
  /\ 7 ∈ rooms_of st1 "s-dana"
  /\ List.map (receives st1 "s-dana") out = [true; false].
Proof.
  split; [reflexivity|]. split; [reflexivity|].
  split; [vm_compute; reflexivity|].
  split; [vm_compute; set_solver|].
  vm_compute. reflexivity.
Qed.

End ServerFacts.

(** ** The offline queue *)

Module QueueFacts.
Import Store Offline QueueInvariants.

(** *** The object store *)

Lemma delete_In id l x :
  In x (store_delete id l) <-> In x l /\ e_id x <> id.
Proof.
  unfold store_delete. rewrite filter_In, negb_true_iff, Z.eqb_neq. reflexivity.
Qed.

Lemma delete_ids id l i :
  In i (ids (store_delete id l)) <-> In i (ids l) /\ i <> id.
Proof.
  unfold ids. rewrite !in_map_iff. split.
  - intros (x & <- & Hx). apply delete_In in Hx as [Hx Hne].
    split; [exists x; now split | exact Hne].
  - intros [(x & <- & Hx) Hne]. exists x. split; [reflexivity|].
    apply delete_In. now split.
Qed.

Lemma sorted_tail_gt a l :
  StronglySorted Z.lt (ids (a :: l)) -> forall x, In x l -> e_id a < e_id x.
Proof.
  intros H x Hx. simpl in H. apply StronglySorted_inv in H as [_ H].
  rewrite List.Forall_forall in H. apply H. unfold ids. now apply in_map.
Qed.

Lemma sorted_NoDup l : StronglySorted Z.lt (ids l) -> List.NoDup (ids l).
Proof.
  induction l as [|a l IH]; simpl; intros H; [constructor|].
  pose proof (sorted_tail_gt _ _ H) as Hgt.
  apply StronglySorted_inv in H as [Hs _]. constructor; [|now apply IH].
  intros Hin. unfold ids in Hin. apply in_map_iff in Hin as (x & Hx & Hin).
  specialize (Hgt x Hin). lia.
Qed.

Lemma delete_sorted id l :
  StronglySorted Z.lt (ids l) -> StronglySorted Z.lt (ids (store_delete id l)).
Proof.
  induction l as [|a l IH]; simpl; intros H; [constructor|].
  pose proof (sorted_tail_gt _ _ H) as Hgt.
  apply StronglySorted_inv in H as [Hs _].
  destruct (negb (e_id a =? id)); simpl; [|now apply IH].
  constructor; [now apply IH|].
  apply List.Forall_forall. intros i Hi. apply delete_ids in Hi as [Hi _].
  unfold ids in Hi. apply in_map_iff in Hi as (x & <- & Hx). now apply Hgt.
Qed.

Lemma put_In e l x :
  StronglySorted Z.lt (ids l) ->
  In x (store_put e l) <-> x = e \/ (In x l /\ e_id x <> e_id e).
Proof.
  induction l as [|a l IH]; simpl; intros H.
  - intuition.
  - pose proof (sorted_tail_gt _ _ H) as Hgt.
    apply StronglySorted_inv in H as [Hs _].
    destruct (Z.ltb_spec (e_id e) (e_id a)) as [Hlt|Hge]; simpl.
    + split.
      * intros [Hx|[Hx|Hx]].
        -- left. now symmetry.
        -- right. subst x. split; [now left | lia].
        -- right. split; [now right|]. specialize (Hgt x Hx). lia.
      * intros [Hx|[[Hx|Hx] _]].
        -- left. now symmetry.
        -- right. now left.
        -- right. now right.
    + destruct (Z.eqb_spec (e_id e) (e_id a)) as [Heq|Hne]; simpl.
      * split.
        -- intros [Hx|Hx]; [left; now symmetry | right].
           split; [now right|]. specialize (Hgt x Hx). lia.
        -- intros [Hx|[[Hx|Hx] Hn]].
           ++ left. now symmetry.
           ++ subst x. congruence.
           ++ now right.
      * rewrite (IH Hs). split.
        -- intros [Hx|[Hx|[Hx Hn]]].
           ++ subst x. right. split; [now left | congruence].
           ++ now left.
           ++ right. split; [now right | exact Hn].
        -- intros [Hx|[[Hx|Hx] Hn]].
           ++ right. now left.
           ++ now left.
           ++ right. right. now split.
Qed.

Lemma put_ids e l i :
  StronglySorted Z.lt (ids l) ->
  In i (ids (store_put e l)) <-> i = e_id e \/ In i (ids l).
Proof.
  intros Hs. unfold ids. rewrite !in_map_iff. split.
  - intros (x & <- & Hx). apply (put_In _ _ _ Hs) in Hx as [->|[Hx _]];
      [now left | right; now exists x].
  - intros [->|(x & <- & Hx)].
    + exists e. split; [reflexivity|]. apply (put_In _ _ _ Hs). now left.
    + destruct (Z.eq_dec (e_id x) (e_id e)) as [Heq|Hne].
      * exists e. split; [now symmetry|]. apply (put_In _ _ _ Hs). now left.
      * exists x. split; [reflexivity|]. apply (put_In _ _ _ Hs). right. now split.
Qed.

Lemma put_sorted e l :
  StronglySorted Z.lt (ids l) -> StronglySorted Z.lt (ids (store_put e l)).
Proof.
  induction l as [|a l IH]; simpl; intros H.
  - repeat constructor.
  - pose proof (sorted_tail_gt _ _ H) as Hgt.
    pose proof H as Hall. apply StronglySorted_inv in H as [Hs Hfa].
    destruct (Z.ltb_spec (e_id e) (e_id a)) as [Hlt|Hge].
    + simpl. constructor; [exact Hall|]. constructor; [exact Hlt|].
      apply List.Forall_forall. intros i Hi. unfold ids in Hi.
      apply in_map_iff in Hi as (x & <- & Hx). specialize (Hgt x Hx). lia.
    + destruct (Z.eqb_spec (e_id e) (e_id a)) as [Heq|Hne].
      * simpl. constructor; [exact Hs|]. now rewrite Heq.
      * simpl. constructor; [now apply IH|].
        apply List.Forall_forall. intros i Hi.
        apply (put_ids _ _ _ Hs) in Hi as [->|Hi]; [lia|].
        unfold ids in Hi. apply in_map_iff in Hi as (x & <- & Hx). now apply Hgt.
Qed.

(** A record with a key from the generator goes to the end of the store. *)
Lemma put_fresh e l :
  Forall (fun x => e_id x < e_id e) l -> store_put e l = l ++ [e].
Proof.
  induction l as [|a l IH]; cbn [store_put app]; intros H; [reflexivity|].
  apply List.Forall_cons_iff in H as [Ha Hl].
  destruct (Z.ltb_spec (e_id e) (e_id a)); [lia|].
  destruct (Z.eqb_spec (e_id e) (e_id a)); [lia|].
  now rewrite (IH Hl).
Qed.

(** *** One scan *)

Lemma reported_app a b : reported (a ++ b) = reported a ++ reported b.
Proof. unfold reported. apply flat_map_app. Qed.

Section Scan.
Context {S : Type}.
Variable has_socket : bool.
Variable socket_emit : Server.send_data -> S -> S.
Variable fetch : http_request -> S -> fetch_result * S.

Local Abbreviation processAction := (processAction has_socket socket_emit fetch).
Local Abbreviation process_entry := (process_entry has_socket socket_emit fetch).
Local Abbreviation scan := (scan has_socket socket_emit fetch).
Local Abbreviation attempted := (attempted has_socket socket_emit fetch).
Local Abbreviation processSyncQueue :=
  (processSyncQueue has_socket socket_emit fetch).

(** An action that waits for the network prints nothing of its own. *)
Lemma network_action_is_silent a s :
  awaits_fetch has_socket a = true -> snd (processAction a s) = [].
Proof. destruct a; cbn; [reflexivity | reflexivity | reflexivity | discriminate]. Qed.

(** Once the handler has waited for the network, the pass writes nothing:
    the delete after a success throws, the catch block counts the attempt
    on the object in memory, and its own put or delete throws as well. *)
Lemma process_entry_after_fetch now live m s out e :
  awaits_fetch has_socket (e_action e) = true ->
  process_entry now live (m, s, out) e
  = (m, attempted (e_action e) s, out ++ [ErrFailedToProcess], Escaped, false).
Proof.
  intros Ha. pose proof (network_action_is_silent (e_action e) s Ha) as Hls.
  unfold Offline.process_entry, QueueInvariants.attempted.
  rewrite Ha, andb_false_r.
  destruct (processAction (e_action e) s) as [[r s'] ls]. cbn [fst snd] in *.
  subst ls. rewrite app_nil_r.
  destruct r; cbn [store_request on_error];
    destruct (e_attempts (bumped now e) <? 3); reflexivity.
Qed.

(** A scan stops at the first entry that waits for the network. *)
Lemma scan_stops_at_fetch now m s out e rest :
  awaits_fetch has_socket (e_action e) = true ->
  scan now true (e :: rest) (m, s, out)
  = (m, attempted (e_action e) s, out ++ [ErrFailedToProcess]).
Proof.
  intros Ha. cbn [Offline.scan]. now rewrite process_entry_after_fetch.
Qed.

Lemma sync_idle now m s :
  db_open m = false \/ isOnline m = false ->
  processSyncQueue now m s = (m, s, []).
Proof.
  intros [H|H]; unfold Offline.processSyncQueue; rewrite H;
    [reflexivity | now rewrite orb_true_r].
Qed.

Lemma sync_blocked now m s e rest :
  db_open m = true -> isOnline m = true -> store m = e :: rest ->
  awaits_fetch has_socket (e_action e) = true ->
  processSyncQueue now m s
  = (m, attempted (e_action e) s, [ErrFailedToProcess]).
Proof.
  intros Hd Ho Hs Ha. unfold Offline.processSyncQueue.
  rewrite Hd, Ho, Hs. cbn [negb orb]. now rewrite scan_stops_at_fetch.
Qed.

End Scan.

(** C7 fails on the code.  A page without a socket queues a message while
    offline; the requests sent are counted.  With a dead network the
    message is tried by four scans: after the fourth it is still stored as
    it was queued, with no attempt counted, the console holds four times
    the line of a failed attempt and no terminal failure.  With a network
    that answers 2xx the entry is still stored after the answer, and the
    console holds the line of a failed attempt. *)
Lemma retry_count_is_never_stored :
  let events :=
    [DbOpened; Queue 10 (Message Sample.hello_data);
     GoOnline 20; GoOffline; GoOnline 30; GoOffline; GoOnline 40;
     GoOffline; GoOnline 50] in
  let dead :=
    client_run false (fun _ (n : nat) => n)
      (fun _ (n : nat) => (NetworkError, Datatypes.S n))
      events (created false, 0%nat, []) in
  let answered :=
    client_run false (fun _ (n : nat) => n)
      (fun _ (n : nat) => (Response true, Datatypes.S n))
      [DbOpened; Queue 10 (Message Sample.hello_data); GoOnline 20]
      (created false, 0%nat, []) in
  (snd (fst dead) = 4%nat
   /\ store (fst (fst dead))
      = [{| e_id := 1; e_action := Message Sample.hello_data;
            e_queuedAt := 10; e_attempts := 0; e_lastAttempt := None |}]
   /\ snd dead = [ErrFailedToProcess; ErrFailedToProcess;
                  ErrFailedToProcess; ErrFailedToProcess]
   /\ reported (snd dead) = [])
  /\ (snd (fst answered) = 1%nat
      /\ store (fst (fst answered))
         = [{| e_id := 1; e_action := Message Sample.hello_data;
               e_queuedAt := 10; e_attempts := 0; e_lastAttempt := None |}]
      /\ snd answered = [ErrFailedToProcess]).
Proof. vm_compute. repeat split. Qed.

End QueueFacts.

(** ** Replaying the queue against the server *)

Module SystemFacts.
Import Store Server Offline System.

(** With a socket on the page [syncMessage] ends as soon as the event is
    emitted, whatever the other side does with it. *)
Lemma socket_sync_never_waits {S} (emit : send_data -> S -> S)
    (fetch : http_request -> S -> fetch_result * S) d s :
  syncMessage true emit fetch d s = (Done, emit d s).
Proof. reflexivity. Qed.

(** C5 fails on the code.  Amina queues "hello" while offline, on a page
    without a socket, and the queue is replayed when she is back online:
    the replay posts the message, the server stores row 1 with its three
    status rows and answers 201, and the entry is still in the queue.  She
    loses the connection and gets it back: the replay posts the message
    again, the server stores row 2 with the same text, and the entry is
    still in the queue. *)
Lemma http_replay_repeats_the_message :
  let start_ := {| r_server := Sample.server0; r_emitted := [] |} in
  let queued :=
    {| e_id := 1; e_action := Message Sample.hello_data;
       e_queuedAt := 10; e_attempts := 0; e_lastAttempt := None |} in
  let run evs :=
    client_run false (emit_send_message 1700000000000 Sample.amina_socket)
      (fetch Sample.trim Sample.sqlite no_fault 1700000000000
         Sample.amina_socket (fun _ => NetworkError))
      evs (created false, start_, []) in
  let once :=
    run [DbOpened; Queue 10 (Message Sample.hello_data); GoOnline 20] in
  let twice :=
    run [DbOpened; Queue 10 (Message Sample.hello_data); GoOnline 20;
         GoOffline; GoOnline 30] in
  (List.map (fun m => (m_id m, m_content m))
     (messages (st_db (r_server (snd (fst once))))) = [(1, "hello")]
   /\ List.length (message_status (st_db (r_server (snd (fst once))))) = 3%nat
   /\ store (fst (fst once)) = [queued])
  /\ (List.map (fun m => (m_id m, m_content m))
        (messages (st_db (r_server (snd (fst twice)))))
      = [(1, "hello"); (2, "hello")]
      /\ store (fst (fst twice)) = [queued]).
Proof. vm_compute. repeat split. Qed.

End SystemFacts.

(** ** The message routes keep the constraints of the schema *)

Module InvariantFacts.
Import Store Auth Messages Invariants StoreFacts.

Lemma createMessage_keeps trim sqlite fails now user r w :
  store_inv (w_db w) ->
  store_inv (w_db (snd (createMessage trim sqlite fails now user r w))).
Proof.
  intros [Hmem Hmsg Hass Hst].
  destruct (CreateFacts.createMessage_outcome trim sqlite fails now user r w)
    as (msgs & tags & sts & (Hu & Hg & Hm & Hms & Hseq & Htags & Hsts) & Hcase & _).
  set (d' := w_db (snd (createMessage trim sqlite fails now user r w))) in *.
  unfold messages_assigned, status_assigned, messages_unique, members_unique in *.
  rewrite List.Forall_forall in Hass, Hst.
  assert (Hlen : Z.of_nat (length msgs) = 0 /\ msgs = []
                 \/ Z.of_nat (length msgs) = 1
                    /\ msgs = [new_message trim now user r (w_db w)]).
  { destruct Hcase as [(-> & _)|(-> & _)]; [left | right]; now split. }
  constructor; unfold messages_assigned, status_assigned, messages_unique,
                 members_unique.
  - now rewrite Hm.
  - rewrite Hms, List.map_app.
    destruct Hlen as [[_ ->]|[_ ->]]; [now rewrite app_nil_r|].
    apply NoDup_snoc; [exact Hmsg|]. cbn [List.map new_message m_id].
    intros Hin. apply in_map_iff in Hin as (m & Hid & Hin).
    specialize (Hass m Hin). cbn in Hass. lia.
  - apply List.Forall_forall. intros m Hin. rewrite Hms in Hin. rewrite Hseq.
    apply in_app_or in Hin as [Hin|Hin].
    + specialize (Hass m Hin). cbn in Hass. lia.
    + destruct Hlen as [[_ ->]|[-> ->]]; [contradiction|].
      destruct Hin as [<-|[]]. cbn. lia.
  - apply List.Forall_forall. intros ms Hin. rewrite Hsts in Hin. rewrite Hseq.
    apply in_app_or in Hin as [Hin|Hin].
    + specialize (Hst ms Hin). cbn in Hst. lia.
    + destruct Hcase as [(_ & _ & ->)|(-> & _ & [->|[_ ->]])];
        try contradiction.
      unfold fanout_rows in Hin. apply in_map_iff in Hin as (gm & <- & _).
      cbn. lia.
Qed.

Lemma mark_group_read_keeps now userId groupId d d' :
  store_inv d -> mark_group_read now userId groupId d = Some (tt, d') ->
  store_inv d'.
Proof.
  intros [Hmem Hmsg Hass Hst] [= <-].
  constructor; [exact Hmem | exact Hmsg | exact Hass |].
  unfold status_assigned. cbn [set_message_status message_status seq_messages].
  rewrite (ReadFacts.insert_or_replace_all_spec _ _
             (ReadFacts.read_rows_NoDup_keys userId groupId d Hmsg now)).
  apply Forall_app. split.
  - apply List.Forall_forall. intros ms Hin. apply filter_In in Hin as [Hin _].
    unfold status_assigned in Hst. rewrite List.Forall_forall in Hst.
    now apply Hst.
  - apply List.Forall_forall. intros ms Hin. unfold read_rows in Hin.
    apply in_map_iff in Hin as (m & <- & Hm). apply filter_In in Hm as [Hm _].
    unfold messages_assigned in Hass. rewrite List.Forall_forall in Hass.
    now apply Hass.
Qed.

(** A list request leaves the store as it was or as its upsert makes it. *)
Lemma listMessages_db isISO8601 sqlite fails now user groupId q w :
  w_db (snd (listMessages isISO8601 sqlite fails now user groupId q w)) = w_db w
  \/ mark_group_read now (u_id user) groupId (w_db w)
     = Some (tt, w_db (snd (listMessages isISO8601 sqlite fails now user
                              groupId q w))).
Proof.
  destruct w as [d c]. unfold listMessages, catch_500, bind.
  destruct (CreateFacts.canAccessGroup_total fails (u_id user) groupId "read"
              {| w_db := d; w_calls := c |}) as (b & ->).
  destruct b; cbn [negb]; [|now left].
  destruct (validate_list isISO8601 q); cbn [negb]; [|now left].
  match goal with
  | |- context [allQuery_paged fails ?l ?o ?q0 ?w0] =>
      destruct (ReadFacts.allQuery_paged_run fails l o q0 w0)
        as [(err & ->) | (_ & _ & _ & ->)]
  end; [now left|].
  unfold getQuery, runQuery, ret, bump. cbn [w_db w_calls].
  destruct (fails (S (S c))); [now left|].
  cbn -[Str.to_double]. destruct (fails (S (S (S c)))); [now left | now right].
Qed.

Lemma listMessages_keeps isISO8601 sqlite fails now user groupId q w :
  store_inv (w_db w) ->
  store_inv (w_db (snd (listMessages isISO8601 sqlite fails now user groupId q w))).
Proof.
  intros Hinv.
  destruct (listMessages_db isISO8601 sqlite fails now user groupId q w)
    as [->|H];
    [exact Hinv | exact (mark_group_read_keeps _ _ _ _ _ Hinv H)].
Qed.

End InvariantFacts.

(** ** Editing and deleting a message *)

Module ModerationFacts.
Import Store Auth Str Messages Moderation Invariants ModerationInvariants.
Import StoreFacts.

Lemma message_with_role_spec messageId userId d m r :
  message_with_role messageId userId d = Some (m, r) ->
  In m (messages d) /\ m_id m = messageId
  /\ exists gm, In gm (group_members d) /\ gm_group gm = m_group m
                /\ gm_user gm = userId /\ gm_role gm = r.
Proof.
  unfold message_with_role. intros H. apply head_In in H.
  apply in_flat_map in H as (m0 & Hm0 & H).
  apply filter_In in Hm0 as (Hm0 & Hid).
  apply in_map_iff in H as (gm & Heq & Hgm).
  apply filter_In in Hgm as (Hgm & Hk).
  injection Heq as -> <-.
  apply andb_true_iff in Hk as (Hg & Hu).
  repeat split; [exact Hm0 | lia |].
  exists gm. repeat split; [exact Hgm | lia | lia].
Qed.

Lemma message_with_role_member messageId userId d :
  member_of_message messageId userId d ->
  exists p, message_with_role messageId userId d = Some p.
Proof.
  intros (m & gm & Hm & Hid & Hgm & Hg & Hu).
  unfold message_with_role. apply (head_is_Some _ (m, gm_role gm)).
  apply in_flat_map. exists m. split.
  - apply filter_In. split; [exact Hm | lia].
  - apply (in_map (fun gm0 => (m, gm_role gm0))). apply filter_In.
    split; [exact Hgm|]. apply andb_true_iff. split; lia.
Qed.

Lemma message_with_role_stranger messageId userId d :
  ~ member_of_message messageId userId d ->
  message_with_role messageId userId d = None.
Proof.
  intros Hn. destruct (message_with_role messageId userId d) as [[m r]|] eqn:E;
    [|reflexivity].
  exfalso. apply Hn. apply message_with_role_spec in E as (Hm & Hid & gm & H).
  exists m, gm. tauto.
Qed.

Lemma message_for_member_stranger messageId userId d :
  ~ member_of_message messageId userId d ->
  message_for_member messageId userId d = None.
Proof.
  intros Hn. destruct (message_for_member messageId userId d) as [i|] eqn:E;
    [|reflexivity].
  exfalso. apply Hn. unfold message_for_member in E. apply head_In in E.
  apply in_flat_map in E as (m & Hm & E).
  apply filter_In in Hm as (Hm & Hid).
  apply in_map_iff in E as (gm & _ & Hgm).
  apply filter_In in Hgm as (Hgm & Hk).
  apply andb_true_iff in Hk as (Hg & Hu).
  exists m, gm. repeat split; [exact Hm | lia | exact Hgm | lia | lia].
Qed.

(** A caller without a membership row in the group of the message is
    answered as if the message did not exist, by the edit, delete, add-tags
    and status routes alike and whatever the caller's global role; nothing
    is written. *)
Theorem stranger_sees_not_found trim fails now user messageId content tags w :
  ~ member_of_message messageId (u_id user) (w_db w) ->
  fails (w_calls w) = false ->
  validate_edit content = true -> tags <> [] ->
  editMessage trim fails now user messageId content w
    = (Failure 404 "Message not found", bump w (w_db w))
  /\ deleteMessage fails user messageId w
     = (Failure 404 "Message not found", bump w (w_db w))
  /\ addTags fails user messageId tags w
     = (Failure 404 "Message not found or access denied", bump w (w_db w))
  /\ getMessageStatus fails user messageId w
     = (Failure 404 "Message not found or access denied", bump w (w_db w)).
Proof.
  intros Hn Hf Hv Ht.
  pose proof (message_with_role_stranger _ _ _ Hn) as E1.
  pose proof (message_for_member_stranger _ _ _ Hn) as E2.
  repeat split.
  - unfold editMessage, catch_500, bind. rewrite Hv. cbn [negb].
    rewrite getQuery_ok by exact Hf. now rewrite E1.
  - unfold deleteMessage, catch_500, bind.
    rewrite getQuery_ok by exact Hf. now rewrite E1.
  - unfold addTags, catch_500, bind. destruct tags; [congruence|].
    rewrite getQuery_ok by exact Hf. now rewrite E2.
  - unfold getMessageStatus, catch_500, bind.
    rewrite getQuery_ok by exact Hf. now rewrite E2.
Qed.


Lemma stranger_sees_not_found_witness :
  editMessage (fun s => s) no_fault 200 Sample.admin 1 "hi" (start Sample.db1)
    = (Failure 404 "Message not found", bump (start Sample.db1) Sample.db1)
  /\ deleteMessage no_fault Sample.admin 1 (start Sample.db1)
     = (Failure 404 "Message not found", bump (start Sample.db1) Sample.db1)
  /\ addTags no_fault Sample.admin 1 ["urgent"] (start Sample.db1)
     = (Failure 404 "Message not found or access denied",
        bump (start Sample.db1) Sample.db1)
  /\ getMessageStatus no_fault Sample.admin 1 (start Sample.db1)
     = (Failure 404 "Message not found or access denied",
        bump (start Sample.db1) Sample.db1).
Proof.
  apply (stranger_sees_not_found (fun s => s) no_fault 200 Sample.admin 1 "hi"
           ["urgent"]
           (start Sample.db1)).
  - intros (m & gm & Hm & _ & Hgm & _ & Hu). simpl in Hgm.
    destruct Hgm as [<-|[<-|[<-|[]]]]; simpl in Hu; discriminate.
  - reflexivity.
  - reflexivity.
  - discriminate.
Defined.

(** How a run of the edit route ends: either nothing is written and the
    answer is not 200, or the validator passed, the lookup found the message
    with the caller's membership, the caller may edit, the UPDATE ran and
    the answer is 200. *)
Lemma editMessage_run trim fails now user messageId content w :
  let run := editMessage trim fails now user messageId content w in
  (w_db (snd run) = w_db w /\ status_of (fst run) <> 200)
  \/ (status_of (fst run) = 200
      /\ update_message now messageId (trim content) (w_db w)
         = Some (tt, w_db (snd run))
      /\ validate_edit content = true
      /\ exists msg, message_with_role messageId (u_id user) (w_db w) = Some msg
                     /\ canEdit user msg = true).
Proof.
  destruct w as [d c]. unfold editMessage, catch_500, bind.
  destruct (validate_edit content) eqn:Hv; cbn [negb];
    [|left; cbn; split; [reflexivity | lia]].
  unfold getQuery. cbn [w_calls w_db].
  destruct (fails c); [left; cbn; split; [reflexivity | lia]|].
  destruct (message_with_role messageId (u_id user) d) as [msg|] eqn:Hm;
    [|left; cbn; split; [reflexivity | lia]].
  destruct (canEdit user msg) eqn:Hc; cbn [negb];
    [|left; cbn; split; [reflexivity | lia]].
  unfold runQuery, bump. cbn [w_calls w_db].
  destruct (fails (S c)); [left; cbn; split; [reflexivity | lia]|].
  right. cbn. repeat split. exists msg. split; [reflexivity | exact Hc].
Qed.

Lemma edited_frozen now content messageId l :
  List.map frozen
    (List.map (fun m => if m_id m =? messageId
                        then edited_row now content m else m) l)
  = List.map frozen l.
Proof.
  rewrite List.map_map. apply List.map_ext. intros m.
  now destruct (m_id m =? messageId).
Qed.

(** Whatever storage calls fail, the edit route writes at most the text
    and the edit time of the addressed message: the other tables, the
    number and order of the messages and every other column stay; messages
    with another id are untouched; on 200 the addressed message carries the
    new text and the time of the call; on any other answer the store is as
    it was. *)
Theorem edit_rewrites_one_text trim fails now user messageId content w :
  let run := editMessage trim fails now user messageId content w in
  let d := w_db w in
  let d' := w_db (snd run) in
  users d' = users d /\ groups d' = groups d
  /\ group_members d' = group_members d
  /\ seq_messages d' = seq_messages d
  /\ message_tags d' = message_tags d
  /\ message_status d' = message_status d
  /\ List.map frozen (messages d') = List.map frozen (messages d)
  /\ (forall m', In m' (messages d') -> m_id m' <> messageId ->
                 In m' (messages d))
  /\ (status_of (fst run) = 200 ->
      (exists m', In m' (messages d') /\ m_id m' = messageId)
      /\ forall m', In m' (messages d') -> m_id m' = messageId ->
                    m_content m' = trim content /\ m_edited_at m' = Some now)
  /\ (status_of (fst run) <> 200 -> d' = d).
Proof.
  intros run d d'.
  destruct (editMessage_run trim fails now user messageId content w)
    as [(Hd & Hs) | (Hs & Hu & _ & msg & Hm & _)]; fold run in Hs.
  - fold run d d' in Hd. rewrite Hd.
    repeat split; try reflexivity; try tauto; try congruence.
  - fold run in Hu. fold d d' in Hu, Hm. unfold update_message in Hu.
    injection Hu as Hu. rewrite <- Hu. cbn [set_messages users groups
      group_members seq_messages message_tags message_status messages].
    split; [reflexivity|]. split; [reflexivity|]. split; [reflexivity|].
    split; [reflexivity|]. split; [reflexivity|]. split; [reflexivity|].
    split; [apply edited_frozen|]. split; [|split; [|congruence]].
    + intros m' Hin Hne. apply in_map_iff in Hin as (m & <- & Hin).
      destruct (m_id m =? messageId) eqn:E; [|exact Hin].
      exfalso. apply Hne. cbn. lia.
    + intros _. split.
      * destruct msg as [m r].
        apply message_with_role_spec in Hm as (Hin & Hid & _).
        exists (edited_row now (trim content) m). split; [|exact Hid].
        apply in_map_iff. exists m. split; [|exact Hin].
        rewrite <- Hid, Z.eqb_refl. reflexivity.
      * intros m' Hin Hid. apply in_map_iff in Hin as (m & <- & Hin).
        destruct (m_id m =? messageId) eqn:E; [split; reflexivity|].
        exfalso. lia.
Qed.


Lemma filter_unique {A K} (key : A -> K) (p : A -> bool) (l : list A) x :
  List.NoDup (List.map key l) -> In x l -> p x = true ->
  (forall y, In y l -> p y = true -> key y = key x) ->
  List.filter p l = [x].
Proof.
  intros Hnd Hx Hp Hk. apply ReadFacts.filter_one; [|exact Hx|exact Hp|].
  - now apply List.NoDup_map_inv in Hnd.
  - intros y Hy Hpy.
    apply (ReadFacts.NoDup_map_inj key l y x Hnd Hy Hx (Hk y Hy Hpy)).
Qed.

(** With the keys of the schema the lookup of the edit and delete routes
    has one row to return. *)
Lemma message_with_role_unique d m gm :
  messages_unique d -> members_unique d ->
  In m (messages d) -> In gm (group_members d) ->
  gm_group gm = m_group m ->
  message_with_role (m_id m) (gm_user gm) d = Some (m, gm_role gm).
Proof.
  intros Hm Hg Him Hig Hgg. unfold message_with_role.
  rewrite (filter_unique m_id _ (messages d) m Hm Him);
    [|apply Z.eqb_refl|intros y _ Hy; lia].
  cbn [flat_map]. rewrite app_nil_r.
  rewrite (filter_unique (fun gm => (gm_group gm, gm_user gm)) _
             (group_members d) gm Hg Hig).
  - reflexivity.
  - rewrite Hgg, !Z.eqb_refl. reflexivity.
  - intros y _ Hy. apply andb_true_iff in Hy as (Hy1 & Hy2).
    f_equal; lia.
Qed.

Lemma string_eqb_true a b : String.eqb a b = true <-> a = b.
Proof. apply String.eqb_eq. Qed.

Lemma canEdit_right user m gm :
  gm_user gm = u_id user ->
  canEdit user (m, gm_role gm) = true <->
  (m_sender m = u_id user \/ u_role user = "admin"
   \/ (true = true /\ gm_role gm = "admin")).
Proof.
  intros _. unfold canEdit. cbn [fst snd].
  rewrite !orb_true_iff, !string_eqb_true, Z.eqb_eq. tauto.
Qed.

Lemma canDelete_right user m gm :
  gm_user gm = u_id user ->
  canDelete user (m, gm_role gm) = true <->
  (m_sender m = u_id user \/ u_role user = "admin"
   \/ (false = true /\ gm_role gm = "admin")).
Proof.
  intros _. unfold canDelete. cbn [fst snd].
  rewrite !orb_true_iff, !string_eqb_true, Z.eqb_eq.
  split; [tauto|]. intros [H|[H|[H _]]]; [tauto|tauto|discriminate].
Qed.

(** The edit route answers 200 only to a member of the message's group who
    is the sender, a global admin or an admin of the group, and only for a
    text of 1 to 5000 characters, whatever storage calls fail; with the keys
    of the schema and no failing call it answers 200 to every such
    request. *)
Theorem edit_allowed_iff trim now user messageId content :
  (forall fails w,
     status_of (fst (editMessage trim fails now user messageId content w)) = 200 ->
     validate_edit content = true /\ has_right true user messageId (w_db w))
  /\ (forall d,
        messages_unique d -> members_unique d ->
        validate_edit content = true -> has_right true user messageId d ->
        fst (editMessage trim no_fault now user messageId content (start d))
        = Json 200 {| ed_messageId := messageId; ed_editedAt := now |}).
Proof.
  split.
  - intros fails w Hs.
    destruct (editMessage_run trim fails now user messageId content w)
      as [(_ & Hn) | (_ & _ & Hv & [m r] & Hm & Hc)]; [contradiction|].
    split; [exact Hv|].
    apply message_with_role_spec in Hm as (Hin & Hid & gm & Hg & Hgg & Hu & <-).
    exists m, gm. repeat split; try assumption.
    now apply canEdit_right.
  - intros d Hmu Hgu Hv (m & gm & Hin & Hid & Hg & Hgg & Hu & Hr).
    unfold editMessage, catch_500, bind. rewrite Hv. cbn [negb].
    rewrite getQuery_ok by reflexivity. cbn [start bump w_db w_calls].
    rewrite <- Hid, <- Hu.
    rewrite (message_with_role_unique d m gm Hmu Hgu Hin Hg Hgg).
    apply (canEdit_right user m gm Hu) in Hr. rewrite Hr. cbn [negb].
    reflexivity.
Qed.

(** Amina corrects her own message. *)
Lemma edit_allowed_iff_witness :
  fst (editMessage (fun s => s) no_fault 200 Sample.amina 1 "hi"
         (start Sample.db1))
  = Json 200 {| ed_messageId := 1; ed_editedAt := 200 |}.
Proof.
  apply (proj2 (edit_allowed_iff (fun s => s) 200 Sample.amina 1 "hi")
           Sample.db1).
  - repeat constructor. intros [].
  - repeat constructor; cbn; intros H;
      repeat (destruct H as [H|H]; try discriminate H); exact H.
  - reflexivity.
  - eexists. eexists. split; [now left|]. split; [reflexivity|].
    split; [now left|]. split; [reflexivity|]. split; [reflexivity|].
    left. reflexivity.
Defined.


(** How a run of the delete route ends: the store holds the effect of the
    first [k] of the three DELETE statements; the answer is 200 exactly when
    all three ran, and no statement runs unless the caller may delete. *)
Lemma deleteMessage_run fails user messageId w :
  let run := deleteMessage fails user messageId w in
  exists k, (k <= 3)%nat
    /\ w_db (snd run) = deleted_upto k messageId (w_db w)
    /\ (status_of (fst run) = 200 <-> k = 3%nat)
    /\ (status_of (fst run) <> 200 -> status_of (fst run) <> 500 -> k = O)
    /\ (status_of (fst run) = 200 ->
        exists msg, message_with_role messageId (u_id user) (w_db w) = Some msg
                    /\ canDelete user msg = true).
Proof.
  destruct w as [d c]. unfold deleteMessage, catch_500, bind.
  unfold getQuery. cbn [w_calls w_db].
  destruct (fails c);
    [exists O; cbn; repeat split; try lia; try reflexivity; intros; lia|].
  destruct (message_with_role messageId (u_id user) d) as [msg|] eqn:Hm;
    [|exists O; cbn; repeat split; try lia; try reflexivity; intros; lia].
  destruct (canDelete user msg) eqn:Hc; cbn [negb];
    [|exists O; cbn; repeat split; try lia; try reflexivity; intros; lia].
  unfold runQuery, bump. cbn [w_calls w_db].
  destruct (fails (S c));
    [exists O; cbn; repeat split; try lia; try reflexivity; intros; lia|].
  cbn. destruct (fails (S (S c)));
    [exists 1%nat; cbn; repeat split; try lia; try reflexivity; intros; lia|].
  cbn. destruct (fails (S (S (S c))));
    [exists 2%nat; cbn; repeat split; try lia; try reflexivity; intros; lia|].
  cbn. exists 3%nat. repeat split; try lia; try reflexivity.
  intros _. exists msg. split; [reflexivity | exact Hc].
Qed.





(** The delete route answers 200 only to a member of the message's group
    who is the sender or a global admin, whatever storage calls fail; with
    the keys of the schema and no failing call it answers 200 to every such
    caller.  The role in the group gives no right to delete. *)
Theorem delete_allowed_iff user messageId :
  (forall fails w,
     status_of (fst (deleteMessage fails user messageId w)) = 200 ->
     has_right false user messageId (w_db w))
  /\ (forall d,
        messages_unique d -> members_unique d ->
        has_right false user messageId d ->
        fst (deleteMessage no_fault user messageId (start d))
        = Json 200 {| dl_messageId := messageId |}).
Proof.
  split.
  - intros fails w Hs.
    destruct (deleteMessage_run fails user messageId w)
      as (k & _ & _ & _ & _ & Hmsg).
    destruct (Hmsg Hs) as ([m r] & Hm & Hc).
    apply message_with_role_spec in Hm as (Hin & Hid & gm & Hg & Hgg & Hu & <-).
    exists m, gm. repeat split; try assumption.
    now apply canDelete_right.
  - intros d Hmu Hgu (m & gm & Hin & Hid & Hg & Hgg & Hu & Hr).
    unfold deleteMessage, catch_500, bind.
    rewrite getQuery_ok by reflexivity. cbn [start bump w_db w_calls].
    rewrite <- Hid, <- Hu.
    rewrite (message_with_role_unique d m gm Hmu Hgu Hin Hg Hgg).
    apply (canDelete_right user m gm Hu) in Hr. rewrite Hr. cbn [negb].
    reflexivity.
Qed.

(** Amina deletes her own message. *)
Lemma delete_allowed_iff_witness :
  fst (deleteMessage no_fault Sample.amina 1 (start Sample.db1))
  = Json 200 {| dl_messageId := 1 |}.
Proof.
  apply (proj2 (delete_allowed_iff Sample.amina 1) Sample.db1).
  - repeat constructor. intros [].
  - repeat constructor; cbn; intros H;
      repeat (destruct H as [H|H]; try discriminate H); exact H.
  - eexists. eexists. split; [now left|]. split; [reflexivity|].
    split; [now left|]. split; [reflexivity|]. split; [reflexivity|].
    left. reflexivity.
Defined.

(** A moderator or admin of the group, for whom [canAccessGroup] answers
    true on the action 'delete', is still refused by the delete route when
    the message is someone else's and the caller is no global admin: the
    route does not consult [canAccessGroup]. *)
Theorem group_policy_not_consulted user messageId d m mem :
  messages_unique d ->
  In m (messages d) -> m_id m = messageId ->
  membership_query (u_id user) (m_group m) d = Some mem ->
  includes ["admin"; "moderator"] (role mem) = true ->
  m_sender m <> u_id user -> u_role user <> "admin" ->
  fst (canAccessGroup no_fault (u_id user) (m_group m) "delete" (start d))
  = Ok true
  /\ deleteMessage no_fault user messageId (start d)
     = (Failure 403 "Cannot delete this message", bump (start d) d).
Proof.
  intros Hmu Hin Hid Hq Hrole Hs Hr. split.
  - rewrite AuthFacts.canAccessGroup_answer by reflexivity.
    cbn [start w_db]. rewrite Hq.
    destruct (String.eqb (user_role mem) "admin"); [reflexivity|].
    destruct (is_creator mem (u_id user)); [reflexivity|].
    unfold action_policy. cbn. f_equal. exact Hrole.
  - apply CreateFacts.membership_query_row in Hq as ((gm & Hg & Hu & Hgg) & _).
    destruct (message_with_role_member messageId (u_id user) d) as ([m' r] & Hp).
    { exists m, gm. repeat split; assumption. }
    unfold deleteMessage, catch_500, bind.
    rewrite getQuery_ok by reflexivity. cbn [start bump w_db w_calls].
    rewrite Hp. apply message_with_role_spec in Hp as (Hin' & Hid' & _).
    assert (m' = m).
    { apply (ReadFacts.NoDup_map_inj m_id (messages d)); try assumption.
      congruence. }
    subst m'. unfold canDelete. cbn [fst].
    destruct (Z.eqb_spec (m_sender m) (u_id user)); [contradiction|].
    destruct (String.eqb_spec (u_role user) "admin"); [contradiction|].
    reflexivity.
Qed.


Lemma group_policy_not_consulted_witness :
  fst (canAccessGroup no_fault 4 7 "delete" (start Sample.db1)) = Ok true
  /\ deleteMessage no_fault Sample.chen 1 (start Sample.db1)
     = (Failure 403 "Cannot delete this message",
        bump (start Sample.db1) Sample.db1).
Proof.
  apply (group_policy_not_consulted Sample.chen 1 Sample.db1
           {| m_id := 1; m_sender := 2; m_group := 7; m_content := "hello";
              m_type := "text"; m_reply_to := None; m_edited_at := None;
              m_created_at := 100 |}
           {| role := "moderator"; created_by := Some 2;
              user_role := "volunteer" |}).
  - repeat constructor. intros [].
  - now left.
  - reflexivity.
  - reflexivity.
  - reflexivity.
  - discriminate.
  - discriminate.
Defined.

Lemma createMessage_refused trim sqlite fails now user r w :
  match createMessage trim sqlite fails now user r w with
  | (res, w') => status_of res = 201 \/ status_of res = 500
                 \/ w_db w' = w_db w
  end.
Proof.
  destruct w as [d c0]. cbn [w_db].
  unfold createMessage, catch_500.
  destruct (validate_create r); cbn [negb]; [|cbn; tauto].
  unfold bind at 1.
  destruct (CreateFacts.canAccessGroup_total fails (u_id user) (cr_groupId r)
              "write" {| w_db := d; w_calls := c0 |}) as (b & Hb).
  rewrite Hb. unfold bump at 1. cbn [w_db w_calls].
  destruct b; cbn [negb]; [|cbn; tauto].
  unfold bind at 1.
  assert (Hreply : exists o c,
             match reply_target r with
             | Some p => getQuery fails (reply_exists p (cr_groupId r))
             | None => ret true
             end {| w_db := d; w_calls := S c0 |}
             = (o, {| w_db := d; w_calls := c |})).
  { destruct (reply_target r); [unfold getQuery; destruct (fails _)|];
      eexists _, _; reflexivity. }
  destruct Hreply as (o & c1 & Hr). rewrite Hr.
  destruct o as [[|]|e]; cbn [negb]; [|cbn; tauto|cbn; tauto].
  unfold bind at 1. unfold runQuery at 1. cbn [w_calls w_db].
  destruct (fails c1); [cbn; tauto|].
  cbn [insert_message]. unfold bind at 1.
  match goal with
  | |- context [insert_tags _ ?i ?us ?ts ?w0] =>
      destruct (insert_tags fails i us ts w0) as [[[]|e] [d3 c3]]
  end; [|cbn; tauto].
  unfold bind at 1. unfold runQuery at 1. cbn [w_calls w_db].
  destruct (fails c3); [cbn; tauto|].
  destruct (fanout _ _ _ _ d3) as [[[] d4]|]; [|cbn; tauto].
  unfold bind at 1. unfold getQuery at 1. cbn [bump w_calls w_db].
  destruct (fails (S c3)); [cbn; tauto|].
  destruct (select_message _ _) as [[[m' u'] ts]|]; cbn; tauto.
Qed.

Lemma listMessages_refused isISO8601 sqlite fails now user groupId q w :
  match listMessages isISO8601 sqlite fails now user groupId q w with
  | (res, w') => status_of res = 200 \/ w_db w' = w_db w
  end.
Proof.
  destruct w as [d c]. unfold listMessages, catch_500, bind.
  destruct (CreateFacts.canAccessGroup_total fails (u_id user) groupId "read"
              {| w_db := d; w_calls := c |}) as (b & ->).
  destruct b; cbn [negb]; [|cbn; tauto].
  destruct (validate_list isISO8601 q); cbn [negb]; [|cbn; tauto].
  match goal with
  | |- context [allQuery_paged fails ?l ?o ?q0 ?w0] =>
      destruct (ReadFacts.allQuery_paged_run fails l o q0 w0)
        as [(err & ->) | (_ & _ & _ & ->)]
  end; [cbn; tauto|].
  unfold getQuery, runQuery, ret, bump. cbn [w_db w_calls].
  destruct (fails (S (S c))); [cbn; tauto|].
  cbn -[Str.to_double]. destruct (fails (S (S (S c)))); cbn; tauto.
Qed.

Lemma addTags_refused fails user messageId tags w :
  match addTags fails user messageId tags w with
  | (res, w') => status_of res = 200 \/ status_of res = 500
                 \/ w_db w' = w_db w
  end.
Proof.
  destruct w as [d c]. unfold addTags, catch_500.
  destruct tags as [|t tags]; [cbn; tauto|].
  unfold bind at 1. unfold getQuery at 1. cbn [w_db w_calls].
  destruct (fails c); [cbn; tauto|].
  destruct (message_for_member messageId (u_id user) d); [|cbn; tauto].
  unfold bind.
  destruct (add_valid_tags fails messageId (u_id user) (t :: tags) _)
    as [[[]|e] w']; cbn; tauto.
Qed.

Lemma getMessageStatus_db fails user messageId w :
  w_db (snd (getMessageStatus fails user messageId w)) = w_db w.
Proof.
  destruct w as [d c]. unfold getMessageStatus, catch_500, bind.
  unfold allQuery, getQuery. cbn [w_db w_calls].
  destruct (fails c); [reflexivity|].
  destruct (message_for_member messageId (u_id user) d); [|reflexivity].
  cbn. destruct (fails (S c)); reflexivity.
Qed.

(** A request that a message route refuses (400, 403 or 404) writes
    nothing: the create, edit, delete and add-tags routes leave the store as
    it was on every answer other than success and 500, the list route on
    every answer other than 200 (so a refused list request marks nothing as
    read, and neither does one that fails), and the status route always. *)
Theorem refused_request_writes_nothing trim isISO8601 sqlite fails now user w :
  (forall r, let run := createMessage trim sqlite fails now user r w in
             status_of (fst run) <> 201 -> status_of (fst run) <> 500 ->
             w_db (snd run) = w_db w)
  /\ (forall groupId q,
        let run := listMessages isISO8601 sqlite fails now user groupId q w in
        status_of (fst run) <> 200 -> w_db (snd run) = w_db w)
  /\ (forall messageId content,
        let run := editMessage trim fails now user messageId content w in
        status_of (fst run) <> 200 -> w_db (snd run) = w_db w)
  /\ (forall messageId,
        let run := deleteMessage fails user messageId w in
        status_of (fst run) <> 200 -> status_of (fst run) <> 500 ->
        w_db (snd run) = w_db w)
  /\ (forall messageId tags,
        let run := addTags fails user messageId tags w in
        status_of (fst run) <> 200 -> status_of (fst run) <> 500 ->
        w_db (snd run) = w_db w)
  /\ (forall messageId,
        w_db (snd (getMessageStatus fails user messageId w)) = w_db w).
Proof.
  split.
  { intros r run H1 H2. subst run.
    pose proof (createMessage_refused trim sqlite fails now user r w) as H.
    destruct (createMessage trim sqlite fails now user r w) as [res w'].
    cbn [fst snd] in *. tauto. }
  split.
  { intros g q run H1. subst run.
    pose proof (listMessages_refused isISO8601 sqlite fails now user g q w) as H.
    destruct (listMessages isISO8601 sqlite fails now user g q w) as [res w'].
    cbn [fst snd] in *. tauto. }
  split.
  { intros messageId content run Hs.
    destruct (editMessage_run trim fails now user messageId content w)
      as [(Hd & _) | (H200 & _)]; [exact Hd | contradiction]. }
  split.
  { intros messageId run H1 H2.
    destruct (deleteMessage_run fails user messageId w)
      as (k & _ & Hd & _ & Hnone & _).
    fold run in Hd, Hnone. rewrite Hd, (Hnone H1 H2). reflexivity. }
  split.
  { intros i ts run H1 H2. subst run.
    pose proof (addTags_refused fails user i ts w) as H.
    destruct (addTags fails user i ts w) as [res w'].
    cbn [fst snd] in *. tauto. }
  intros i. apply getMessageStatus_db.
Qed.

End ModerationFacts.

(** ** Sorted answers *)

Module SortedFacts.
Import Order OrderFacts.

Section Sorting.
Context {A : Type} (before : A -> A -> bool).
Hypothesis asym : forall a b, before a b = true -> before b a = false.
Hypothesis trans :
  forall a b c, before b a = false -> before c b = false -> before c a = false.

Lemma insert_sorted_sorted x l :
  StronglySorted (fun a b => before b a = false) l ->
  StronglySorted (fun a b => before b a = false) (insert_sorted before x l).
Proof.
  induction l as [|y l IH]; intros Hs; simpl.
  - constructor; [constructor | constructor].
  - apply StronglySorted_inv in Hs as (Hs & Hall).
    rewrite List.Forall_forall in Hall.
    destruct (before y x) eqn:E.
    + constructor; [now apply IH|]. apply List.Forall_forall. intros z Hz.
      apply insert_sorted_In in Hz as [->|Hz]; [now apply asym | now apply Hall].
    + constructor.
      * constructor; [exact Hs | now apply List.Forall_forall].
      * constructor; [exact E|]. apply List.Forall_forall. intros z Hz.
        apply (trans x y z E). now apply Hall.
Qed.

Lemma order_by_sorted l :
  StronglySorted (fun a b => before b a = false) (order_by before l).
Proof.
  induction l as [|x l IH]; simpl; [constructor|].
  now apply insert_sorted_sorted.
Qed.
End Sorting.

Lemma sorted_weaken {A} (R R' : A -> A -> Prop) l :
  (forall a b, R a b -> R' a b) -> StronglySorted R l -> StronglySorted R' l.
Proof.
  intros H. induction 1 as [|a l Hs IH Hall]; constructor; [exact IH|].
  eapply List.Forall_impl; [|exact Hall]. intros b. apply H.
Qed.

Lemma sorted_skipn {A} (R : A -> A -> Prop) n l :
  StronglySorted R l -> StronglySorted R (skipn n l).
Proof.
  revert l. induction n as [|n IH]; intros l Hs; [now rewrite List.skipn_O|].
  destruct l as [|a l]; [constructor|]. cbn [skipn].
  apply IH. now apply StronglySorted_inv in Hs.
Qed.

Lemma sorted_firstn {A} (R : A -> A -> Prop) n l :
  StronglySorted R l -> StronglySorted R (firstn n l).
Proof.
  revert l. induction n as [|n IH]; intros l Hs; [constructor|].
  destruct l as [|a l]; [constructor|]. cbn [firstn].
  apply StronglySorted_inv in Hs as (Hs & Hall). constructor; [now apply IH|].
  apply List.Forall_forall. intros x Hx. rewrite List.Forall_forall in Hall.
  apply Hall. now apply In_firstn in Hx.
Qed.

Lemma sorted_map {A B} (f : A -> B) (R : B -> B -> Prop) l :
  StronglySorted (fun a b => R (f a) (f b)) l ->
  StronglySorted R (List.map f l).
Proof.
  induction 1 as [|a l Hs IH Hall]; simpl; constructor; [exact IH|].
  apply List.Forall_forall. intros y Hy. apply in_map_iff in Hy as (x & <- & Hx).
  rewrite List.Forall_forall in Hall. now apply Hall.
Qed.

Lemma sorted_snoc {A} (R : A -> A -> Prop) l x :
  StronglySorted R l -> (forall y, In y l -> R y x) ->
  StronglySorted R (l ++ [x]).
Proof.
  induction 1 as [|a l Hs IH Hall]; intros Hx; simpl.
  - constructor; [constructor | constructor].
  - constructor.
    + apply IH. intros y Hy. apply Hx. now right.
    + apply List.Forall_forall. intros y Hy.
      apply in_app_or in Hy as [Hy|[<-|[]]].
      * rewrite List.Forall_forall in Hall. now apply Hall.
      * apply Hx. now left.
Qed.

Lemma sorted_rev {A} (R : A -> A -> Prop) l :
  StronglySorted R l -> StronglySorted (fun a b => R b a) (rev l).
Proof.
  induction 1 as [|a l Hs IH Hall]; simpl; [constructor|].
  apply sorted_snoc; [exact IH|]. intros y Hy. apply in_rev in Hy.
  rewrite List.Forall_forall in Hall. now apply Hall.
Qed.

End SortedFacts.

(** ** The list and status answers *)

Module PageFacts.
Import Store Auth Str Order Messages Invariants ModerationInvariants ViewInvariants.
Import StoreFacts OrderFacts SortedFacts.

Lemma canAccessGroup_true_member fails userId groupId action w w' :
  canAccessGroup fails userId groupId action w = (Ok true, w') ->
  exists mem, membership_query userId groupId (w_db w) = Some mem.
Proof.
  unfold canAccessGroup, try_catch, bind, getQuery, ret.
  destruct (fails (w_calls w)); [intros [= ?]; discriminate|].
  destruct (membership_query userId groupId (w_db w)) as [m|];
    [eauto | intros [= ?]; discriminate].
Qed.

(** The double of a number that 53 bits hold is the number. *)
Lemma to_double_small n : n < 2 ^ 53 -> to_double n = n.
Proof.
  intros H. unfold to_double.
  destruct (Z.ltb_spec n (2 ^ 53)); [reflexivity | lia].
Qed.

Lemma to_double_nonneg n : 0 <= n -> 0 <= to_double n.
Proof.
  intros H. unfold to_double. destruct (Z.ltb_spec n (2 ^ 53)); [exact H|].
  apply Z.shiftl_nonneg.
  assert (Hq : 0 <= Z.shiftr n (Z.log2 n - 52)) by now apply Z.shiftr_nonneg.
  repeat match goal with |- context [if ?c then _ else _] => destruct c end;
    lia.
Qed.

(** A validated page size is taken as it is, and 50 stands in for none. *)
Lemma or_default_limit o :
  match o with Some l => (1 <=? l) && (l <=? 100) | None => true end = true ->
  or_default o 50 = match o with Some l => l | None => 50 end.
Proof.
  destruct o as [l|]; [|reflexivity]. intros H.
  apply andb_true_iff in H as (H1 & H2). apply Z.leb_le in H1, H2.
  unfold or_default. rewrite to_double_small by lia.
  destruct (Z.eqb_spec l 0); [lia | reflexivity].
Qed.

(** The offset is the double of the validated numeral, 0 for none. *)
Lemma or_default_offset o :
  or_default o 0 = match o with Some v => to_double v | None => 0 end.
Proof.
  destruct o as [v|]; [|reflexivity]. unfold or_default.
  destruct (Z.eqb_spec (to_double v) 0) as [->|_]; reflexivity.
Qed.

(** What a list request that is answered 200 has read. *)
Lemma listMessages_200 isISO8601 sqlite fails now user groupId q w body :
  fst (listMessages isISO8601 sqlite fails now user groupId q w)
  = Json 200 body ->
  validate_list isISO8601 q = true
  /\ (exists mem, membership_query (u_id user) groupId (w_db w) = Some mem)
  /\ or_default (lq_offset q) 0 < 2 ^ 63
  /\ body
     = {| l_messages :=
            rev (List.map format_listed
                   (select_group_messages sqlite groupId (since_filter q)
                      (or_default (lq_limit q) 50) (or_default (lq_offset q) 0)
                      (w_db w)));
          l_pagination :=
            {| pg_total := count_group_messages groupId (w_db w);
               pg_limit := or_default (lq_limit q) 50;
               pg_offset := or_default (lq_offset q) 0;
               pg_hasMore := to_double (or_default (lq_offset q) 0
                                        + or_default (lq_limit q) 50)
                             <? count_group_messages groupId (w_db w) |} |}.
Proof.
  destruct w as [d c]. unfold listMessages, catch_500, bind.
  destruct (CreateFacts.canAccessGroup_total fails (u_id user) groupId "read"
              {| w_db := d; w_calls := c |}) as (b & Hb). rewrite Hb.
  destruct b; cbn [negb]; [|cbn; congruence].
  apply canAccessGroup_true_member in Hb.
  destruct (validate_list isISO8601 q); cbn [negb]; [|cbn; congruence].
  match goal with
  | |- context [allQuery_paged fails ?l ?o ?q0 ?w0] =>
      destruct (ReadFacts.allQuery_paged_run fails l o q0 w0)
        as [(err & ->) | (_ & Hoff & _ & ->)]
  end; [cbn; congruence|].
  unfold getQuery, runQuery, ret, bump. cbn [w_db w_calls].
  destruct (fails (S (S c))); [cbn; congruence|].
  cbn -[to_double]. destruct (fails (S (S (S c)))); [cbn; congruence|].
  cbn -[to_double Z.pow]. intros [= <-]. repeat split; assumption.
Qed.

Lemma select_group_messages_row sqlite groupId since limit offset d m u ts :
  In (m, u, ts) (select_group_messages sqlite groupId since limit offset d) ->
  ts = tags_of sqlite InList (m_id m) d
  /\ In m (messages d) /\ m_group m = groupId
  /\ In u (users d) /\ u_id u = m_sender m
  /\ forall t, since = Some t -> created_gt sqlite (m_created_at m) t = true.
Proof.
  unfold select_group_messages. intros H.
  apply In_firstn, In_skipn, order_by_In in H.
  apply in_flat_map in H as (m0 & Hm0 & H).
  apply in_map_iff in H as (u0 & [= <- <- <-] & Hu0).
  apply filter_In in Hm0 as (Hm0 & Hk). apply filter_In in Hu0 as (Hu0 & Hs).
  apply andb_true_iff in Hk as (Hg & Hsince).
  repeat split; try assumption; try lia.
  intros t ->. exact Hsince.
Qed.

Lemma select_group_messages_sorted sqlite groupId since limit offset d :
  StronglySorted
    (fun a b => m_created_at (fst (fst b)) <= m_created_at (fst (fst a)))
    (select_group_messages sqlite groupId since limit offset d).
Proof.
  unfold select_group_messages. apply sorted_firstn, sorted_skipn.
  eapply sorted_weaken; [|apply order_by_sorted].
  - cbn beta. intros a b H. lia.
  - cbn beta. intros a b H. lia.
  - cbn beta. intros a b c H1 H2. lia.
Qed.

(** A list request answered 200 came from a member of the group and
    shows one page.  The page size is the validated [limit], 1 to 100, or
    50; the offset is the double that [parseInt] makes of the validated
    numeral, below 2^63.  The page holds at most [limit] messages, each a
    stored message of the requested group sent by a stored user, with the
    tags the engine concatenated for it; with a non-empty [since], each is
    one that the engine's comparison [created_at > ?] accepts against the
    text of [since] as it was sent.  The messages come in the order of
    their creation times.  The total counts every message of the group,
    whatever [since] says, and [hasMore] compares it with the double of
    offset plus limit. *)
Theorem list_answers_one_page isISO8601 sqlite fails now user groupId q w
    body :
  fst (listMessages isISO8601 sqlite fails now user groupId q w)
  = Json 200 body ->
  let d := w_db w in
  let p := l_pagination body in
  (exists mem, membership_query (u_id user) groupId d = Some mem)
  /\ pg_limit p = match lq_limit q with Some l => l | None => 50 end
  /\ 1 <= pg_limit p <= 100
  /\ pg_offset p
     = match lq_offset q with Some v => to_double v | None => 0 end
  /\ 0 <= pg_offset p < 2 ^ 63
  /\ (length (l_messages body) <= Z.to_nat (pg_limit p))%nat
  /\ (forall lm, In lm (l_messages body) ->
        exists m u, lm = listed_row sqlite d m u
                    /\ In m (messages d) /\ m_group m = groupId
                    /\ In u (users d) /\ u_id u = m_sender m
                    /\ forall t, lq_since q = Some t -> truthy t = true ->
                                 created_gt sqlite (m_created_at m) t = true)
  /\ StronglySorted (fun a b => lm_timestamp a <= lm_timestamp b)
       (l_messages body)
  /\ pg_total p
     = Z.of_nat (length (List.filter (fun m => m_group m =? groupId)
                           (messages d)))
  /\ pg_hasMore p = (to_double (pg_offset p + pg_limit p) <? pg_total p).
Proof.
  intros H d p. apply listMessages_200 in H as (Hv & Hmem & Hlt & ->).
  subst p. cbn [l_pagination l_messages pg_limit pg_offset pg_total pg_hasMore].
  fold d. split; [exact Hmem|].
  unfold validate_list in Hv. apply andb_true_iff in Hv as (Hv & _).
  apply andb_true_iff in Hv as (Hl & Ho).
  rewrite (or_default_limit _ Hl).
  split; [reflexivity|]. split.
  { destruct (lq_limit q) as [l|]; [|lia].
    apply andb_true_iff in Hl as (H1 & H2). apply Z.leb_le in H1, H2. lia. }
  rewrite or_default_offset in *. split; [reflexivity|]. split.
  { split; [|exact Hlt]. destruct (lq_offset q) as [o|]; [|lia].
    apply Z.leb_le in Ho. now apply to_double_nonneg. }
  split; [|split; [|split]].
  - rewrite length_rev, List.length_map. unfold select_group_messages.
    apply List.firstn_le_length.
  - intros lm Hin. apply in_rev in Hin.
    apply in_map_iff in Hin as ([[m u] ts] & <- & Hin).
    apply select_group_messages_row in Hin
      as (-> & Hm & Hg & Hu & Hs & Hsince).
    exists m, u. split; [reflexivity|]. repeat (split; [assumption|]).
    intros t Ht Htruthy. apply Hsince. unfold since_filter.
    now rewrite Ht, Htruthy.
  - apply (sorted_rev (fun a b => lm_timestamp b <= lm_timestamp a)).
    apply sorted_map. eapply sorted_weaken;
      [|apply (select_group_messages_sorted sqlite groupId (since_filter q))].
    intros [[m1 u1] t1] [[m2 u2] t2]. cbn. lia.
  - split; reflexivity.
Qed.

(** Boris asks for ten messages of group 7 since the last day of 1969:
    message 1, stored under '1970-01-01 00:01:40', is on the page. *)
Lemma list_answers_one_page_witness :
  exists body,
    fst (listMessages Sample.isISO8601 Sample.sqlite no_fault 200
           Sample.boris 7
           {| lq_limit := Some 10; lq_offset := None;
              lq_since := Some "1969-12-31T00:00:00Z" |}
           (start Sample.db1)) = Json 200 body
    /\ List.map lm_id (l_messages body) = [1]
    /\ pg_limit (l_pagination body) = 10
    /\ (forall lm, In lm (l_messages body) ->
          exists m u, lm = listed_row Sample.sqlite Sample.db1 m u
                      /\ In m (messages Sample.db1) /\ m_group m = 7
                      /\ In u (users Sample.db1) /\ u_id u = m_sender m
                      /\ forall t, Some "1969-12-31T00:00:00Z" = Some t ->
                                   truthy t = true ->
                                   created_gt Sample.sqlite (m_created_at m) t
                                   = true)
    /\ pg_total (l_pagination body) = 1.
Proof.
  eexists. split; [reflexivity|]. split; [reflexivity|].
  destruct (list_answers_one_page Sample.isISO8601 Sample.sqlite no_fault 200
              Sample.boris 7
              {| lq_limit := Some 10; lq_offset := None;
                 lq_since := Some "1969-12-31T00:00:00Z" |}
              (start Sample.db1) _ eq_refl)
    as (_ & Hlim & _ & _ & _ & _ & Hrows & _ & Htotal & _).
  split; [exact Hlim|]. split; [exact Hrows | exact Htotal].
Defined.

Lemma message_for_member_spec messageId userId d i :
  message_for_member messageId userId d = Some i ->
  member_of_message messageId userId d.
Proof.
  unfold message_for_member. intros E. apply head_In in E.
  apply in_flat_map in E as (m & Hm & E).
  apply filter_In in Hm as (Hm & Hid).
  apply in_map_iff in E as (gm & _ & Hgm).
  apply filter_In in Hgm as (Hgm & Hk).
  apply andb_true_iff in Hk as (Hg & Hu).
  exists m, gm. repeat split; [exact Hm | lia | exact Hgm | lia | lia].
Qed.

Lemma select_read_status_In messageId d e :
  In e (select_read_status messageId d) <->
  exists ms u, In ms (message_status d) /\ ms_message ms = messageId
               /\ In u (users d) /\ u_id u = ms_user ms
               /\ e = {| re_userId := u_id u; re_userName := u_name u;
                         re_readAt := ms_read_at ms;
                         re_deliveredAt := ms_delivered_at ms |}.
Proof.
  unfold select_read_status. rewrite order_by_In, in_flat_map. split.
  - intros (ms & Hms & He). apply filter_In in Hms as (Hms & Hid).
    apply in_map_iff in He as (u & <- & Hu). apply filter_In in Hu as (Hu & Hk).
    exists ms, u. repeat split; try assumption; lia.
  - intros (ms & u & Hms & Hid & Hu & Hk & ->). exists ms. split.
    + apply filter_In. split; [exact Hms | lia].
    + apply (in_map (fun u0 => {| re_userId := u_id u0; re_userName := u_name u0;
                                  re_readAt := ms_read_at ms;
                                  re_deliveredAt := ms_delivered_at ms |})).
      apply filter_In. split; [exact Hu | lia].
Qed.

Lemma select_read_status_sorted messageId d :
  StronglySorted (fun a b => newest_first (re_readAt a) (re_readAt b))
    (select_read_status messageId d).
Proof.
  unfold select_read_status.
  eapply sorted_weaken; [|apply order_by_sorted].
  - cbn beta. intros a b. unfold desc_before, newest_first.
    destruct (re_readAt a), (re_readAt b); intros H; try exact I;
      [lia | discriminate].
  - cbn beta. intros a b. unfold desc_before.
    destruct (re_readAt a), (re_readAt b); intros H; try reflexivity;
      try discriminate. lia.
  - cbn beta. intros a b c. unfold desc_before.
    destruct (re_readAt a), (re_readAt b), (re_readAt c); intros H1 H2;
      try reflexivity; try discriminate. lia.
Qed.

(** The status route answers 200 only to a member of the message's group,
    whatever storage calls fail, and then lists exactly the status rows of
    the message whose user is stored: the entries that were read come first,
    the latest reading first, and the entries never read come last. *)
Theorem status_lists_receipts fails user messageId w body :
  fst (getMessageStatus fails user messageId w) = Json 200 body ->
  let d := w_db w in
  member_of_message messageId (u_id user) d
  /\ rs_messageId body = messageId
  /\ (forall e, In e (rs_readBy body) <->
        exists ms u, In ms (message_status d) /\ ms_message ms = messageId
                     /\ In u (users d) /\ u_id u = ms_user ms
                     /\ e = {| re_userId := u_id u; re_userName := u_name u;
                               re_readAt := ms_read_at ms;
                               re_deliveredAt := ms_delivered_at ms |})
  /\ StronglySorted (fun a b => newest_first (re_readAt a) (re_readAt b))
       (rs_readBy body).
Proof.
  destruct w as [d c]. unfold getMessageStatus, catch_500, bind.
  unfold allQuery, getQuery. cbn [w_db w_calls].
  destruct (fails c); [cbn; intros [=]|].
  destruct (message_for_member messageId (u_id user) d) as [i|] eqn:Hm;
    [|cbn; intros [=]].
  cbn. destruct (fails (S c)); [cbn; intros [=]|].
  cbn. intros [= <-]. cbn [rs_messageId rs_readBy].
  split; [exact (message_for_member_spec _ _ _ _ Hm)|].
  split; [reflexivity|].
  split; [apply select_read_status_In | apply select_read_status_sorted].
Qed.

Lemma status_lists_receipts_witness :
  exists body,
    fst (getMessageStatus no_fault Sample.chen 1 (start Sample.db1))
    = Json 200 body
    /\ StronglySorted (fun a b => newest_first (re_readAt a) (re_readAt b))
         (rs_readBy body).
Proof.
  eexists. split; [reflexivity|].
  apply (status_lists_receipts no_fault Sample.chen 1 (start Sample.db1) _
           eq_refl).
Defined.

End PageFacts.

(** ** Tags on their way back to the client *)

Module TagViewFacts.
Import Store Auth Str Messages Invariants ViewInvariants.
Import StoreFacts StrFacts.

Lemma has_char_append c a b :
  has_char c (String.append a b) = has_char c a || has_char c b.
Proof.
  unfold has_char. induction a as [|x a IH]; simpl; [reflexivity|].
  now rewrite IH, orb_assoc.
Qed.

(** Cutting a GROUP_CONCAT of comma-free values gives the values back. *)
Lemma split_join l :
  l <> [] -> (forall x, In x l -> has_char "," x = false) ->
  split_on "," (join_with "," l) = l.
Proof.
  induction l as [|y l IH]; [congruence|]. intros _ Hc.
  destruct l as [|z l].
  - simpl. apply split_on_whole. apply Hc. now left.
  - change (join_with "," (y :: z :: l))
      with (String.append y (String "," (join_with "," (z :: l)))).
    rewrite split_on_app, split_on_whole by (apply Hc; now left).
    cbn [app]. f_equal. apply IH; [discriminate|].
    intros x Hx. apply Hc. now right.
Qed.

Lemma clean_tag_parts mt :
  clean_tag mt = true ->
  truthy (mt_type mt) = true
  /\ has_char "," (tag_text mt) = false
  /\ tag_parts (tag_text mt) = (mt_type mt, Some (coalesce (mt_value mt))).
Proof.
  unfold clean_tag. rewrite !andb_true_iff, !negb_true_iff.
  intros ((((Ht & Hc1) & Hk1) & Hc2) & Hk2). split; [exact Ht|]. split.
  - unfold tag_text. rewrite !has_char_append, Hc1, Hc2. reflexivity.
  - unfold tag_parts, tag_text.
    change (String.append ":" (coalesce (mt_value mt)))
      with (String ":" (coalesce (mt_value mt))).
    rewrite split_on_app, !split_on_whole by assumption. reflexivity.
Qed.

Lemma parse_clean_views l :
  (forall mt, In mt l -> clean_tag mt = true) ->
  parse_tag_views (group_concat (List.map tag_text l)) = List.map view_of l.
Proof.
  intros Hc. destruct l as [|a l]; [reflexivity|].
  unfold group_concat, parse_tag_views.
  change (match List.map tag_text (a :: l) with
          | [] => None
          | _ :: _ => Some (join_with "," (List.map tag_text (a :: l)))
          end) with (Some (join_with "," (List.map tag_text (a :: l)))).
  cbv beta iota. rewrite split_join.
  - rewrite List.map_map. revert Hc. generalize (a :: l). clear.
    induction l as [|b l IH]; intros Hc; [reflexivity|].
    cbn [List.map List.filter].
    destruct (clean_tag_parts b (Hc b (or_introl eq_refl))) as (Ht & _ & ->).
    cbn [tv_type]. rewrite Ht. unfold view_of at 2. f_equal.
    apply IH. intros mt Hmt. apply Hc. now right.
  - discriminate.
  - intros x Hx. apply in_map_iff in Hx as (mt & <- & Hmt).
    now apply clean_tag_parts, Hc.
Qed.

Lemma parse_clean_outs l :
  (forall mt, In mt l -> clean_tag mt = true) ->
  parse_tag_outs (group_concat (List.map tag_text l)) = List.map out_of l.
Proof.
  intros Hc. destruct l as [|a l]; [reflexivity|].
  unfold group_concat, parse_tag_outs.
  change (match List.map tag_text (a :: l) with
          | [] => None
          | _ :: _ => Some (join_with "," (List.map tag_text (a :: l)))
          end) with (Some (join_with "," (List.map tag_text (a :: l)))).
  cbv beta iota. rewrite split_join.
  - rewrite List.map_map. revert Hc. generalize (a :: l). clear.
    induction l as [|b l IH]; intros Hc; [reflexivity|].
    cbn [List.map List.filter].
    destruct (clean_tag_parts b (Hc b (or_introl eq_refl))) as (Ht & _ & ->).
    change (out_of b) with
      (if truthy (coalesce (mt_value b))
       then OutPair (mt_type b) (coalesce (mt_value b))
       else OutType (mt_type b)).
    destruct (truthy (coalesce (mt_value b))); cbn [List.filter];
      rewrite ?Ht; (f_equal; apply IH; intros mt Hmt; apply Hc; now right).
  - discriminate.
  - intros x Hx. apply in_map_iff in Hx as (mt & <- & Hmt).
    now apply clean_tag_parts, Hc.
Qed.

End TagViewFacts.

(** ** What the create route stores, and when *)

Module CreateMoreFacts.
Import Store Auth Str Messages Moderation Invariants ModerationInvariants.
Import ViewInvariants StoreFacts.

(** How a run of the create route ends: either nothing is written and the
    answer is not 201, or the checks passed and the message row was
    appended; the answer is 201 only when the row that the last query reads
    back is shown. *)
Lemma createMessage_run trim sqlite fails now user r w :
  match createMessage trim sqlite fails now user r w with
  | (res, w') =>
      (w_db w' = w_db w /\ status_of res <> 201)
      \/ (create_checks (w_db w) user r
          /\ messages (w_db w')
             = messages (w_db w) ++ [new_message trim now user r (w_db w)]
          /\ forall body, res = Json 201 body ->
               exists m u,
                 select_message sqlite (seq_messages (w_db w) + 1) (w_db w')
                 = Some (m, u, tags_of sqlite InCreate (m_id m) (w_db w'))
                 /\ body = created_of sqlite (w_db w') (cr_groupId r) m u)
  end.
Proof.
  destruct w as [d c0]. cbn [w_db].
  unfold createMessage, catch_500.
  destruct (validate_create r) eqn:Hv; cbn [negb];
    [|left; cbn; split; [reflexivity | lia]].
  unfold bind at 1.
  destruct (CreateFacts.canAccessGroup_total fails (u_id user) (cr_groupId r)
              "write" {| w_db := d; w_calls := c0 |}) as (b & Hb).
  rewrite Hb. unfold bump at 1. cbn [w_db w_calls].
  destruct b; cbn [negb]; [|left; cbn; split; [reflexivity | lia]].
  apply PageFacts.canAccessGroup_true_member in Hb. cbn [w_db] in Hb.
  unfold bind at 1.
  assert (Hreply : exists o c,
             match reply_target r with
             | Some p => getQuery fails (reply_exists p (cr_groupId r))
             | None => ret true
             end {| w_db := d; w_calls := S c0 |}
             = (o, {| w_db := d; w_calls := c |})
             /\ (o = Ok true ->
                 forall p, reply_target r = Some p ->
                           reply_exists p (cr_groupId r) d = true)).
  { destruct (reply_target r) as [p|].
    - unfold getQuery. cbn [w_db w_calls]. destruct (fails (S c0)).
      + eexists _, _. split; [reflexivity | discriminate].
      + eexists _, _. split; [reflexivity|].
        intros [= H] p' [= <-]. exact H.
    - eexists _, _. split; [reflexivity | discriminate]. }
  destruct Hreply as (o & c1 & Hr & Hp). rewrite Hr.
  destruct o as [[|]|e]; cbn [negb];
    [| left; cbn; split; [reflexivity | lia]
     | left; cbn; split; [reflexivity | lia]].
  specialize (Hp eq_refl).
  assert (Hchecks : create_checks d user r) by (repeat split; assumption).
  unfold bind at 1. unfold runQuery at 1. cbn [w_calls w_db].
  destruct (fails c1); [left; cbn; split; [reflexivity | lia]|].
  cbn [insert_message]. unfold bind at 1.
  match goal with
  | |- context [insert_tags _ ?i ?us ?ts ?w0] =>
      destruct (CreateFacts.insert_tags_progress fails i us ts w0)
        as (stored & rest & _ & Hsame & _ & _);
      destruct (insert_tags fails i us ts w0) as [[[]|e] [d3 c3]]
  end; cbn [fst snd bump w_db] in Hsame;
    destruct Hsame as (_ & _ & _ & Hms & _ & _);
    cbn [set_messages messages] in Hms.
  2:{ cbn. right. split; [exact Hchecks|]. split; [exact Hms | intros body [=]]. }
  unfold bind at 1. unfold runQuery at 1. cbn [w_calls w_db].
  destruct (fails c3).
  { cbn. right. split; [exact Hchecks|]. split; [exact Hms | intros body [=]]. }
  unfold fanout at 1.
  destruct (insert_abort_all status_conflict _ (message_status d3)) as [t|].
  2:{ cbn. right. split; [exact Hchecks|]. split; [exact Hms | intros body [=]]. }
  unfold bind at 1. unfold getQuery at 1. cbn [bump w_calls w_db].
  destruct (fails (S c3)).
  { cbn. right. split; [exact Hchecks|]. split; [exact Hms | intros body [=]]. }
  destruct (select_message _ _ _) as [[[m' u'] ts]|] eqn:Hsel.
  2:{ cbn. right. split; [exact Hchecks|]. split; [exact Hms | intros body [=]]. }
  cbn. right. split; [exact Hchecks|]. split; [exact Hms|].
  intros body [= <-]. exists m', u'.
  assert (ts = tags_of sqlite InCreate (m_id m') (set_message_status d3 t))
    as ->.
  { unfold select_message in Hsel. apply head_In in Hsel.
    apply in_flat_map in Hsel as (m0 & _ & Hsel).
    apply in_map_iff in Hsel as (u0 & [= <- <- <-] & _). reflexivity. }
  split; [exact Hsel | reflexivity].
Qed.


(** Whatever storage calls fail, the create route appends at most
    one message row, and only after its checks: the text as it was sent
    passed the length check and the type the enumeration, the sender has a
    membership row for the group, and the reply target, if any, is a stored
    message of the same group.  The row holds the text after the trim
    sanitizer, which the length check has not seen.  This holds also for a
    request that ends in 500. *)
Theorem message_stored_only_after_checks trim sqlite fails now user r w :
  let d := w_db w in
  let d' := w_db (snd (createMessage trim sqlite fails now user r w)) in
  messages d' = messages d
  \/ (create_checks d user r
      /\ messages d' = messages d ++ [new_message trim now user r d]).
Proof.
  intros d d'. subst d d'.
  pose proof (createMessage_run trim sqlite fails now user r w) as H.
  destruct (createMessage trim sqlite fails now user r w) as [res w']. cbn [snd].
  destruct H as [(-> & _) | (Hc & Hm & _)]; [now left | right; tauto].
Qed.

Lemma reply_exists_spec p groupId d :
  reply_exists p groupId d = true ->
  exists t, In t (messages d) /\ m_id t = p /\ m_group t = groupId.
Proof.
  unfold reply_exists. intros H. apply existsb_exists in H as (t & Hin & Hk).
  apply andb_true_iff in Hk as (H1 & H2). exists t. repeat split; [exact Hin|lia|lia].
Qed.

(** Replies stay inside their group: if every stored reply points at
    a stored message of the same group, this is still so after a create or
    an edit request, whatever storage calls fail. *)
Theorem replies_stay_in_group trim sqlite fails now user w :
  replies_in_group (w_db w) ->
  (forall r,
     replies_in_group
       (w_db (snd (createMessage trim sqlite fails now user r w))))
  /\ (forall messageId content,
        replies_in_group
          (w_db (snd (editMessage trim fails now user messageId content w)))).
Proof.
  intros Hinv. split.
  - intros r.
    pose proof (createMessage_run trim sqlite fails now user r w) as Hrun.
    destruct (createMessage trim sqlite fails now user r w) as [res w']. cbn [snd].
    assert (Hcase : messages (w_db w') = messages (w_db w)
                    \/ (create_checks (w_db w) user r
                        /\ messages (w_db w')
                           = messages (w_db w)
                             ++ [new_message trim now user r (w_db w)])).
    { destruct Hrun as [(-> & _) | (Hc & Hm & _)]; [now left | right; tauto]. }
    destruct Hcase as [Hm | ((_ & _ & Hp) & Hm)]; intros m p Hin Hr;
      rewrite Hm in *.
    + exact (Hinv m p Hin Hr).
    + apply in_app_or in Hin as [Hin|[<-|[]]].
      * destruct (Hinv m p Hin Hr) as (t & Ht & H1 & H2).
        exists t. split; [apply in_or_app; now left | tauto].
      * cbn [new_message m_reply_to m_group] in *.
        destruct (reply_exists_spec _ _ _ (Hp p Hr)) as (t & Ht & H1 & H2).
        exists t. split; [apply in_or_app; now left | tauto].
  - intros messageId content.
    destruct (ModerationFacts.editMessage_run trim fails now user messageId content w)
      as [(-> & _) | (_ & Hu & _)]; [exact Hinv|].
    unfold update_message in Hu. injection Hu as <-.
    intros m p Hin Hr. cbn [set_messages messages] in *.
    apply in_map_iff in Hin as (m0 & <- & Hin).
    assert (Hr0 : m_reply_to m0 = Some p).
    { destruct (m_id m0 =? messageId); exact Hr. }
    destruct (Hinv m0 p Hin Hr0) as (t & Ht & H1 & H2).
    exists (if m_id t =? messageId
            then edited_row now (trim content) t else t).
    split; [apply in_map_iff; exists t; split; [reflexivity | exact Ht]|].
    destruct (m_id t =? messageId), (m_id m0 =? messageId); cbn; tauto.
Qed.

(** Message 2 answers message 1 in group 7.  Boris answers message 1 as
    well, and Amina edits message 1: afterwards the three replies still
    point at a message of group 7. *)
Lemma replies_stay_in_group_witness :
  let created :=
    w_db (snd (createMessage Sample.trim Sample.sqlite no_fault 300
                 Sample.boris MoreSamples.answer
                 (start MoreSamples.db_reply))) in
  let edited :=
    w_db (snd (editMessage Sample.trim no_fault 300 Sample.amina 1
                 " hello all " (start MoreSamples.db_reply))) in
  List.map (fun m => (m_id m, m_reply_to m)) (messages created)
  = [(1, None); (2, Some 1); (3, Some 1)]
  /\ replies_in_group created
  /\ List.map (fun m => (m_id m, m_content m, m_reply_to m)) (messages edited)
     = [(1, "hello all", None); (2, "on my way", Some 1)]
  /\ replies_in_group edited.
Proof.
  assert (H : replies_in_group (w_db (start MoreSamples.db_reply))).
  { intros m p [<-|[<-|[]]]; [discriminate|]. intros [= <-].
    eexists. split; [left; reflexivity | split; reflexivity]. }
  split; [reflexivity|]. split.
  - apply (replies_stay_in_group Sample.trim Sample.sqlite no_fault 300
             Sample.boris (start MoreSamples.db_reply) H).
  - split; [reflexivity|].
    apply (replies_stay_in_group Sample.trim Sample.sqlite no_fault 300
             Sample.amina (start MoreSamples.db_reply) H).
Defined.

Lemma tag_rows_message messageId userId tags mt :
  In mt (tag_rows messageId userId tags) -> mt_message mt = messageId.
Proof.
  induction tags as [|[s|t v|] tags IH]; cbn [tag_rows]; try contradiction.
  - intros [<-|H]; [reflexivity | now apply IH].
  - destruct (truthy t); [|exact IH].
    intros [<-|H]; [reflexivity | now apply IH].
Qed.

Lemma filter_all {A} (p : A -> bool) (l : list A) :
  (forall x, In x l -> p x = true) -> List.filter p l = l.
Proof.
  induction l as [|a l IH]; intros H; simpl; [reflexivity|].
  rewrite (H a (or_introl eq_refl)). f_equal. apply IH.
  intros x Hx. apply H. now right.
Qed.

(** The 201 answer of the create route describes the row it
    stored: the id the sequence handed out, the text of the request after
    the trim sanitizer, the type, reply target and group of the request,
    the time of the call, the sender as the users table has it, and, when
    no kind or value holds a comma or a colon and no kind is empty, the
    tags of the request, each once, in the order the engine concatenated
    them. *)
Theorem created_answer_echoes_request trim sqlite fails now user r w body :
  fst (createMessage trim sqlite fails now user r w) = Json 201 body ->
  messages_assigned (w_db w) -> tags_assigned (w_db w) ->
  (forall mt,
     In mt (tag_rows (seq_messages (w_db w) + 1) (u_id user)
              (match cr_tags r with Some l => l | None => [] end)) ->
     clean_tag mt = true) ->
  cm_id body = seq_messages (w_db w) + 1
  /\ cm_content body = trim (cr_content r)
  /\ cm_type body = match cr_type r with Some t => t | None => "text" end
  /\ cm_replyTo body = reply_target r
  /\ cm_timestamp body = now
  /\ cm_senderId body = u_id user
  /\ cm_groupId body = cr_groupId r
  /\ (exists u, In u (users (w_db w)) /\ u_id u = u_id user
                /\ cm_senderName body = u_name u
                /\ cm_senderRole body = u_role u)
  /\ Permutation (cm_tags body)
       (List.map out_of
          (tag_rows (seq_messages (w_db w) + 1) (u_id user)
             (match cr_tags r with Some l => l | None => [] end))).
Proof.
  intros Hres Hma Hta Hclean.
  pose proof (createMessage_run trim sqlite fails now user r w) as Hrun.
  pose proof (CreateFacts.createMessage_outcome trim sqlite fails now user r w)
    as Hout.
  destruct (createMessage trim sqlite fails now user r w) as [res w'].
  cbn [fst] in Hres.
  subst res. unfold create_outcome in Hout. cbn [fst snd] in Hout.
  destruct Hout as (msgs & tags & sts & Hst & _ & H201).
  destruct (H201 eq_refl) as (-> & -> & ->). clear H201.
  destruct Hst as (Hu & _ & _ & Hm & _ & Ht & _).
  destruct Hrun as [(_ & Hn) | (_ & _ & Hb)]; [now contradiction Hn|].
  destruct (Hb body eq_refl) as (m & u & Hsel & ->). clear Hb.
  unfold select_message in Hsel. apply head_In in Hsel.
  apply in_flat_map in Hsel as (m0 & Hm0 & Hsel).
  apply in_map_iff in Hsel as (u0 & [= <- <-] & Hu0).
  apply filter_In in Hm0 as (Hm0 & Hid). apply filter_In in Hu0 as (Hu0 & Hs).
  assert (m0 = new_message trim now user r (w_db w)) as ->.
  { rewrite Hm in Hm0. apply in_app_or in Hm0 as [Hin|[<-|[]]]; [|reflexivity].
    exfalso. unfold messages_assigned in Hma.
    rewrite List.Forall_forall in Hma. specialize (Hma _ Hin). lia. }
  cbn [created_of new_message cm_id cm_content cm_type cm_replyTo cm_timestamp
         cm_senderId cm_groupId cm_senderName cm_senderRole cm_tags m_id
         m_content m_type m_reply_to m_created_at m_sender] in *.
  repeat split; try reflexivity; [lia | |].
  - exists u0. rewrite <- Hu. repeat split; [exact Hu0 | lia].
  - unfold tags_of.
    assert (Hown : List.filter
                     (fun mt => mt_message mt =? seq_messages (w_db w) + 1)
                     (message_tags (w_db w'))
                   = tag_rows (seq_messages (w_db w) + 1) (u_id user)
                       (match cr_tags r with Some l => l | None => [] end)).
    { rewrite Ht, List.filter_app, AuthFacts.filter_none.
      - cbn [app]. apply filter_all.
        intros mt Hin. apply tag_rows_message in Hin. lia.
      - intros mt Hin. unfold tags_assigned in Hta.
        rewrite List.Forall_forall in Hta. specialize (Hta _ Hin). lia. }
    rewrite Hown.
    pose proof (visit_perm sqlite InCreate (w_db w')
                  (tag_rows (seq_messages (w_db w) + 1) (u_id user)
                     (match cr_tags r with Some l => l | None => [] end)))
      as Hperm.
    rewrite TagViewFacts.parse_clean_outs.
    + now apply Permutation_map.
    + intros mt Hin. apply Hclean. exact (Permutation_in _ Hperm Hin).
Qed.

(** Boris posts "  on my way " with two tags as an answer to message 1:
    the answer shows the trimmed text and both tags, the later one
    first. *)
Lemma created_answer_echoes_request_witness :
  exists body,
    fst (createMessage Sample.trim Sample.sqlite no_fault 300 Sample.boris
           MoreSamples.padded (start Sample.db1)) = Json 201 body
    /\ cm_id body = 2 /\ cm_content body = "on my way"
    /\ cm_replyTo body = Some 1
    /\ cm_tags body = [OutPair "place" "north"; OutType "urgent"]
    /\ Permutation (cm_tags body) [OutType "urgent"; OutPair "place" "north"].
Proof.
  eexists. split; [reflexivity|].
  destruct (created_answer_echoes_request Sample.trim Sample.sqlite no_fault
              300 Sample.boris MoreSamples.padded (start Sample.db1) _ eq_refl)
    as (Hid & Hcontent & _ & Hreply & _ & _ & _ & _ & Htags).
  - repeat constructor; cbn; lia.
  - constructor.
  - intros mt [<-|[<-|[]]]; reflexivity.
  - split; [exact Hid|]. split; [exact Hcontent|]. split; [exact Hreply|].
    split; [reflexivity | exact Htags].
Defined.

End CreateMoreFacts.

(** ** Stored tags in the list answer *)

Module TagEchoFacts.
Import Store Auth Str Messages Invariants ViewInvariants.
Import StoreFacts PageFacts TagViewFacts.

(** A listed message shows its stored tags, each once per stored
    row, in the order the engine concatenated them, with the value null
    when none or an empty one is stored, provided none of its kinds and
    values holds a comma or a colon and no kind is empty. *)
Theorem list_shows_stored_tags isISO8601 sqlite fails now user groupId q w
    body lm :
  fst (listMessages isISO8601 sqlite fails now user groupId q w)
  = Json 200 body ->
  In lm (l_messages body) ->
  (forall mt, In mt (message_tags (w_db w)) -> mt_message mt = lm_id lm ->
              clean_tag mt = true) ->
  Permutation (lm_tags lm)
    (List.map view_of
       (List.filter (fun mt => mt_message mt =? lm_id lm)
          (message_tags (w_db w)))).
Proof.
  intros H Hin Hclean. apply listMessages_200 in H as (_ & _ & _ & ->).
  cbn [l_messages] in Hin. apply in_rev in Hin.
  apply in_map_iff in Hin as ([[m u] ts] & <- & Hin).
  apply select_group_messages_row in Hin as (-> & _).
  cbn [format_listed lm_tags lm_id] in *. unfold tags_of.
  pose proof (visit_perm sqlite InList (w_db w)
                (List.filter (fun mt => mt_message mt =? m_id m)
                   (message_tags (w_db w)))) as Hperm.
  rewrite parse_clean_views.
  - now apply Permutation_map.
  - intros mt Hmt. apply (Permutation_in _ Hperm) in Hmt.
    apply filter_In in Hmt as (Hmt & Hid).
    apply Hclean; [exact Hmt | lia].
Qed.

(** Message 1 was tagged urgent and then place:north; an engine that
    concatenates the later row first lists place before urgent. *)
Lemma list_shows_stored_tags_witness :
  exists body lm,
    fst (listMessages Sample.isISO8601 Sample.sqlite no_fault 200
           Sample.boris 7 Sample.first_page (start MoreSamples.db2))
    = Json 200 body
    /\ In lm (l_messages body)
    /\ lm_tags lm = [{| tv_type := "place"; tv_value := Some "north" |};
                     {| tv_type := "urgent"; tv_value := None |}]
    /\ Permutation (lm_tags lm)
         [{| tv_type := "urgent"; tv_value := None |};
          {| tv_type := "place"; tv_value := Some "north" |}].
Proof.
  eexists. eexists. split; [reflexivity|]. split; [now left|].
  split; [reflexivity|].
  apply (list_shows_stored_tags Sample.isISO8601 Sample.sqlite no_fault 200
           Sample.boris 7 Sample.first_page
           (start MoreSamples.db2) _ _ eq_refl (or_introl eq_refl)).
  intros mt [<-|[<-|[]]] _; reflexivity.
Defined.

End TagEchoFacts.

(** ** Searching *)

Module SearchFacts.
Import Store Auth Str Order Messages Search.
Import StoreFacts OrderFacts SortedFacts.

Section Like.
Variable like : string -> string -> bool.

Lemma user_groups_In userId d g :
  In g (user_groups userId d) <->
  exists gm, In gm (group_members d) /\ gm_user gm = userId /\ gm_group gm = g.
Proof.
  unfold user_groups. rewrite in_map_iff. split.
  - intros (gm & <- & Hin). apply filter_In in Hin as (Hin & Hu).
    exists gm. repeat split; [exact Hin | lia].
  - intros (gm & Hin & Hu & <-). exists gm. split; [reflexivity|].
    apply filter_In. split; [exact Hin | lia].
Qed.

Lemma searchMessages_200 isISO8601 sqlite fails user s w body :
  fst (searchMessages like isISO8601 sqlite fails user s w) = Json 200 body ->
  validate_search isISO8601 s = true
  /\ ((user_groups (u_id user) (w_db w) = []
       /\ body = {| sa_messages := []; sa_total := 0; sa_query := None |})
      \/ (user_groups (u_id user) (w_db w) <> []
          /\ body
             = {| sa_messages :=
                    List.map format_found
                      (search_rows like sqlite (user_groups (u_id user) (w_db w)) s
                         (w_db w));
                  sa_total :=
                    Z.of_nat
                      (length (search_rows like sqlite
                                 (user_groups (u_id user) (w_db w)) s (w_db w)));
                  sa_query := Some (sq_q s) |})).
Proof.
  destruct w as [d c]. unfold searchMessages, catch_500, bind.
  destruct (validate_search isISO8601 s); cbn [negb]; [|cbn; intros [=]].
  unfold allQuery, getQuery. cbn [w_db w_calls].
  destruct (fails c); [cbn; intros [=]|].
  destruct (user_groups (u_id user) d) as [|g gs] eqn:Hg.
  - cbn. intros [= <-]. split; [reflexivity|]. left. split; reflexivity.
  - cbn. destruct (fails (S c)); [cbn; intros [=]|].
    cbn. intros [= <-]. split; [reflexivity|]. right. split; [discriminate|].
    reflexivity.
Qed.

Lemma search_rows_row sqlite groupIds s d m u g ts :
  In (m, u, g, ts) (search_rows like sqlite groupIds s d) ->
  In m (messages d) /\ where_message like sqlite groupIds s m = true.
Proof.
  unfold search_rows. intros H. apply In_firstn, order_by_In in H.
  apply in_flat_map in H as (m0 & Hm0 & H).
  apply filter_In in Hm0 as (Hm0 & Hw).
  match type of H with
  | In _ (match ?p with _ => _ end) => destruct p as [|[u0 g0] ps]
  end; [contradiction|].
  destruct (joined_tags sqlite s m0 d); [contradiction|].
  destruct H as [[= <- <- <- <-]|[]]. split; assumption.
Qed.

Lemma search_rows_sorted sqlite groupIds s d :
  StronglySorted
    (fun a b => m_created_at (fst (fst (fst b)))
                <= m_created_at (fst (fst (fst a))))
    (search_rows like sqlite groupIds s d).
Proof.
  unfold search_rows. apply sorted_firstn.
  eapply sorted_weaken; [|apply order_by_sorted].
  - cbn beta. intros a b H. lia.
  - cbn beta. intros a b H. lia.
  - cbn beta. intros a b c H1 H2. lia.
Qed.

(** A search answers with messages of the caller's own groups only, each
    matching the pattern '%q%', at most [limit] of them (1 to 50, 20 by
    default), the newest first; a group id in the query narrows the answer
    to that group when the caller is a member of it. *)
Theorem search_stays_in_callers_groups isISO8601 sqlite fails user s w body :
  fst (searchMessages like isISO8601 sqlite fails user s w) = Json 200 body ->
  let d := w_db w in
  sa_total body = Z.of_nat (length (sa_messages body))
  /\ (length (sa_messages body) <= 50)%nat
  /\ (forall fm, In fm (sa_messages body) ->
        exists m gm,
          In m (messages d) /\ m_id m = fm_id fm
          /\ m_group m = fm_groupId fm /\ m_content m = fm_content fm
          /\ like (String.append "%" (String.append (sq_q s) "%"))
               (m_content m) = true
          /\ In gm (group_members d)
          /\ gm_user gm = u_id user /\ gm_group gm = m_group m
          /\ forall g, sq_groupId s = Some g ->
                       In g (user_groups (u_id user) d) -> m_group m = g)
  /\ StronglySorted (fun a b => fm_timestamp b <= fm_timestamp a)
       (sa_messages body).
Proof.
  intros H d. apply searchMessages_200 in H as (Hv & [(_ & ->) | (_ & ->)]);
    fold d; cbn [sa_total sa_messages].
  - repeat split; [cbn; lia | intros fm [] | constructor].
  - rewrite List.length_map. split; [reflexivity|]. split; [|split].
    + unfold search_rows. etransitivity; [apply List.firstn_le_length|].
      unfold validate_search in Hv. apply andb_true_iff in Hv as (_ & Hl).
      destruct (sq_limit s) as [l|]; [|lia].
      apply andb_true_iff in Hl as (H1 & H2). lia.
    + intros fm Hin. apply in_map_iff in Hin as ([[[m u] g] ts] & <- & Hin).
      apply search_rows_row in Hin as (Hm & Hw).
      unfold where_message in Hw. rewrite !andb_true_iff in Hw.
      destruct Hw as ((((Hg & Hl) & Hgid) & _) & _).
      apply existsb_exists in Hg as (g0 & Hg0 & Heq).
      apply user_groups_In in Hg0 as (gm & Hgm & Hu & Hgg).
      exists m, gm. cbn [format_found fm_id fm_groupId fm_content].
      repeat split; try assumption; [lia|].
      intros g' Hs Hin'. rewrite Hs in Hgid.
      rewrite (proj2 (existsb_exists _ _)) in Hgid; [lia|].
      exists g'. split; [exact Hin' | apply Z.eqb_refl].
    + apply sorted_map. eapply sorted_weaken; [|apply search_rows_sorted].
      intros [[[m1 u1] g1] t1] [[[m2 u2] g2] t2]. cbn. lia.
Qed.

(** A group id the caller is not a member of is not an error and does not
    empty the answer: the filter is dropped, and the search answers as if
    no group id had been given. *)
Theorem foreign_group_filter_is_dropped isISO8601 sqlite fails user s w g :
  sq_groupId s = Some g ->
  ~ In g (user_groups (u_id user) (w_db w)) ->
  searchMessages like isISO8601 sqlite fails user s w
  = searchMessages like isISO8601 sqlite fails user
      {| sq_q := sq_q s; sq_groupId := None; sq_tags := sq_tags s;
         sq_from := sq_from s; sq_to := sq_to s; sq_limit := sq_limit s |} w.
Proof.
  intros Hs Hn. destruct w as [d c]. cbn [w_db] in Hn.
  unfold searchMessages, catch_500, bind.
  change (validate_search isISO8601
            {| sq_q := sq_q s; sq_groupId := None;
               sq_tags := sq_tags s; sq_from := sq_from s;
               sq_to := sq_to s; sq_limit := sq_limit s |})
    with (validate_search isISO8601 s).
  destruct (validate_search isISO8601 s); cbn [negb]; [|reflexivity].
  unfold allQuery, getQuery. cbn [w_db w_calls].
  destruct (fails c); [reflexivity|].
  destruct (user_groups (u_id user) d) as [|g0 gs] eqn:Hg; [reflexivity|].
  cbn [bump w_db w_calls]. destruct (fails (S c)); [reflexivity|].
  cbn [sq_q].
  assert (Hrows : search_rows like sqlite (g0 :: gs) s d
                  = search_rows like sqlite (g0 :: gs)
                      {| sq_q := sq_q s; sq_groupId := None;
                         sq_tags := sq_tags s; sq_from := sq_from s;
                         sq_to := sq_to s; sq_limit := sq_limit s |} d).
  { unfold search_rows. cbn [sq_limit]. f_equal. f_equal.
    assert (Hw : List.filter (where_message like sqlite (g0 :: gs) s) (messages d)
                 = List.filter
                     (where_message like sqlite (g0 :: gs)
                        {| sq_q := sq_q s; sq_groupId := None;
                           sq_tags := sq_tags s; sq_from := sq_from s;
                           sq_to := sq_to s; sq_limit := sq_limit s |})
                     (messages d)).
    { apply List.filter_ext. intros m. unfold where_message.
      cbn [sq_q sq_groupId sq_from sq_to]. rewrite Hs.
      rewrite (existsb_none (Z.eqb g) (g0 :: gs)); [reflexivity|].
      intros x Hx. apply Z.eqb_neq. intros <-. now apply Hn. }
    rewrite Hw. reflexivity. }
  rewrite Hrows. reflexivity.
Qed.

End Like.

Lemma search_stays_in_callers_groups_witness :
  exists body,
    fst (searchMessages (fun _ _ => true) Sample.isISO8601 Sample.sqlite
           no_fault Sample.boris
           {| sq_q := "hel"; sq_groupId := None; sq_tags := None;
              sq_from := None; sq_to := None; sq_limit := None |}
           (start Sample.db1)) = Json 200 body
    /\ sa_total body = Z.of_nat (length (sa_messages body))
    /\ sa_total body = 1.
Proof.
  eexists. split; [reflexivity|]. split; [|reflexivity].
  apply (search_stays_in_callers_groups (fun _ _ => true) Sample.isISO8601
           Sample.sqlite no_fault Sample.boris
           {| sq_q := "hel"; sq_groupId := None; sq_tags := None;
              sq_from := None; sq_to := None; sq_limit := None |}
           (start Sample.db1) _ eq_refl).
Defined.

Lemma foreign_group_filter_is_dropped_witness :
  searchMessages (fun _ _ => true) Sample.isISO8601 Sample.sqlite no_fault
    Sample.boris
    {| sq_q := "hel"; sq_groupId := Some 9; sq_tags := None;
       sq_from := None; sq_to := None; sq_limit := None |} (start Sample.db1)
  = searchMessages (fun _ _ => true) Sample.isISO8601 Sample.sqlite no_fault
      Sample.boris
      {| sq_q := "hel"; sq_groupId := None; sq_tags := None;
         sq_from := None; sq_to := None; sq_limit := None |} (start Sample.db1).
Proof.
  apply (foreign_group_filter_is_dropped (fun _ _ => true) Sample.isISO8601
           Sample.sqlite no_fault Sample.boris
           {| sq_q := "hel"; sq_groupId := Some 9; sq_tags := None;
              sq_from := None; sq_to := None; sq_limit := None |}
           (start Sample.db1) 9).
  - reflexivity.
  - cbn. intros [H|[]]. discriminate.
Defined.

End SearchFacts.

(** ** Authentication *)

Module AuthnFacts.
Import Store Str Authn.
Import StoreFacts StrFacts.

Lemma active_user_query_spec userId d user :
  active_user_query userId d = Some user ->
  In user (users d) /\ u_id user = userId /\ u_status user = "active".
Proof.
  unfold active_user_query. intros H. apply head_In in H.
  apply filter_In in H as (Hin & Hk). apply andb_true_iff in Hk as (Hi & Hs).
  apply String.eqb_eq in Hs. repeat split; [exact Hin | lia | exact Hs].
Qed.

Lemma active_user_query_none userId d :
  (forall u, In u (users d) -> u_id u = userId -> u_status u <> "active") ->
  active_user_query userId d = None.
Proof.
  intros H. unfold active_user_query. rewrite AuthFacts.filter_none; [reflexivity|].
  intros u Hu. apply andb_false_iff.
  destruct (Z.eqb_spec (u_id u) userId) as [Hi|]; [right | now left].
  apply String.eqb_neq. now apply H.
Qed.

(** A request or a socket handshake passes authentication only with a
    token that [jwt.verify] accepts, and what is attached as the user is the
    row the users table holds at that moment for the id in the token, with
    status 'active': the role that [requireRole] compares later is the
    stored one, not the one signed into the token.  Authentication writes
    nothing. *)
Theorem token_names_an_active_user verify fails w :
  (forall h user w',
     authenticateToken verify fails h w = (Next user, w') ->
     exists token, header_token h = Some token
                   /\ verify token = Some (u_id user)
                   /\ In user (users (w_db w)) /\ u_status user = "active"
                   /\ w_db w' = w_db w)
  /\ (forall a q user w',
        authenticateSocket verify fails a q w = (Accepted user, w') ->
        exists token, handshake_token a q = Some token
                      /\ verify token = Some (u_id user)
                      /\ In user (users (w_db w)) /\ u_status user = "active"
                      /\ w_db w' = w_db w)
  /\ (forall roles h user w',
        authenticateToken verify fails h w = (Next user, w') ->
        requireRole roles (Some user) = Next tt ->
        exists u, In u (users (w_db w)) /\ u_status u = "active"
                  /\ Auth.includes roles (u_role u) = true).
Proof.
  assert (Hhttp : forall h user w',
     authenticateToken verify fails h w = (Next user, w') ->
     exists token, header_token h = Some token
                   /\ verify token = Some (u_id user)
                   /\ In user (users (w_db w)) /\ u_status user = "active"
                   /\ w_db w' = w_db w);
    [|split; [exact Hhttp|split]].
  3:{ intros roles h user w' Ha Hr.
      destruct (Hhttp h user w' Ha) as (_ & _ & _ & Hin & Hs & _).
      exists user. split; [exact Hin|]. split; [exact Hs|].
      unfold requireRole in Hr.
      destruct (Auth.includes roles (u_role user)); [reflexivity | discriminate]. }
  - intros h user w'. unfold authenticateToken.
    destruct (header_token h) as [token|]; [|intros [=]].
    destruct (truthy token); cbn [negb]; [|intros [=]].
    destruct (verify token) as [i|] eqn:Hv; [|intros [=]].
    unfold getQuery. destruct (fails (w_calls w)); [intros [=]|].
    destruct (active_user_query i (w_db w)) as [u|] eqn:Hq; [|intros [=]].
    intros [= <- <-]. apply active_user_query_spec in Hq as (Hin & <- & Hs).
    exists token. repeat split; assumption.
  - intros a q user w'. unfold authenticateSocket.
    destruct (handshake_token a q) as [token|]; [|intros [=]].
    destruct (truthy token); cbn [negb]; [|intros [=]].
    destruct (verify token) as [i|] eqn:Hv; [|intros [=]].
    unfold getQuery. destruct (fails (w_calls w)); [intros [=]|].
    destruct (active_user_query i (w_db w)) as [u|] eqn:Hq; [|intros [=]].
    intros [= <- <-]. apply active_user_query_spec in Hq as (Hin & <- & Hs).
    exists token. repeat split; assumption.
Qed.

Lemma token_names_an_active_user_witness :
  exists token,
    header_token (Some "Bearer t-boris") = Some token
    /\ MoreSamples.verify_boris token = Some 3
    /\ In Sample.boris (users Sample.db1).
Proof.
  destruct (proj1 (token_names_an_active_user MoreSamples.verify_boris no_fault
                     (start Sample.db1))
              (Some "Bearer t-boris") Sample.boris
              (bump (start Sample.db1) Sample.db1) eq_refl)
    as (token & H1 & H2 & H3 & _).
  exists token. repeat split; assumption.
Defined.

(** An account without an active row is locked out even with a token that
    still verifies: the request is answered 403 and the handshake is
    rejected. *)
Theorem inactive_account_is_locked_out verify fails w token userId :
  (forall u, In u (users (w_db w)) -> u_id u = userId ->
             u_status u <> "active") ->
  truthy token = true -> verify token = Some userId ->
  fails (w_calls w) = false ->
  (forall h, header_token h = Some token ->
     fst (authenticateToken verify fails h w)
     = Refuse 403 "User not found or inactive")
  /\ (forall a q, handshake_token a q = Some token ->
        fst (authenticateSocket verify fails a q w)
        = Rejected "User not found or inactive").
Proof.
  intros Hno Ht Hv Hf.
  pose proof (active_user_query_none _ _ Hno) as Hq. split.
  - intros h Hh. unfold authenticateToken. rewrite Hh, Ht, Hv. cbn [negb].
    rewrite getQuery_ok by exact Hf. now rewrite Hq.
  - intros a q Hh. unfold authenticateSocket. rewrite Hh, Ht, Hv. cbn [negb].
    rewrite getQuery_ok by exact Hf. now rewrite Hq.
Qed.

Lemma inactive_account_is_locked_out_witness :
  fst (authenticateToken MoreSamples.verify_boris no_fault
         (Some "Bearer t-boris") (start MoreSamples.db_suspended))
  = Refuse 403 "User not found or inactive".
Proof.
  apply (inactive_account_is_locked_out MoreSamples.verify_boris no_fault
           (start MoreSamples.db_suspended) "t-boris" 3).
  - intros u [<-|[<-|[<-|[<-|[<-|[]]]]]]; cbn; intros H; try discriminate H.
    intros [=].
  - reflexivity.
  - reflexivity.
  - reflexivity.
  - reflexivity.
Defined.

Lemma truthy_append a c b : truthy (String.append a (String c b)) = true.
Proof. destruct a; reflexivity. Qed.

(** Only the second space-separated piece of the Authorization header is
    looked at: the word in front of the token is not compared with
    'Bearer', and a header without a space is answered 401 before the token
    is verified or the store is read. *)
Theorem bearer_word_is_not_checked verify fails w scheme token :
  has_char " " scheme = false -> has_char " " token = false ->
  authenticateToken verify fails
    (Some (String.append scheme (String " " token))) w
  = authenticateToken verify fails
      (Some (String.append "Bearer" (String " " token))) w
  /\ authenticateToken verify fails (Some scheme) w
     = (Refuse 401 "Access token required", w)
  /\ authenticateToken verify fails None w
     = (Refuse 401 "Access token required", w).
Proof.
  intros Hs Ht.
  assert (Hh : forall word, has_char " " word = false ->
             header_token (Some (String.append word (String " " token)))
             = Some token).
  { intros word Hw. unfold header_token. rewrite truthy_append.
    rewrite split_on_app, !split_on_whole by assumption. reflexivity. }
  split; [|split].
  - unfold authenticateToken. rewrite (Hh scheme Hs), (Hh "Bearer" eq_refl).
    reflexivity.
  - unfold authenticateToken, header_token.
    destruct (truthy scheme); [|reflexivity].
    rewrite split_on_whole by exact Hs. reflexivity.
  - reflexivity.
Qed.

Lemma bearer_word_is_not_checked_witness :
  authenticateToken MoreSamples.verify_boris no_fault
    (Some "Basic t-boris") (start Sample.db1)
  = authenticateToken MoreSamples.verify_boris no_fault
      (Some "Bearer t-boris") (start Sample.db1).
Proof.
  apply (bearer_word_is_not_checked MoreSamples.verify_boris no_fault
           (start Sample.db1) "Basic" "t-boris"); reflexivity.
Defined.

End AuthnFacts.

(** ** Rooms and presence *)

Module RoomFacts.
Import Store Server.

Lemma join_group_spec sock st g :
  let st' := join_group sock st g in
  rooms_of st' (sk_id sock) = {[g]} ∪ rooms_of st (sk_id sock)
  /\ default ∅ (userRooms st' !! u_id (sk_user sock))
     = {[g]} ∪ default ∅ (userRooms st !! u_id (sk_user sock))
  /\ (forall sid, sid <> sk_id sock -> st_rooms st' !! sid = st_rooms st !! sid)
  /\ (forall uid, uid <> u_id (sk_user sock) ->
                  userRooms st' !! uid = userRooms st !! uid)
  /\ activeUsers st' = activeUsers st /\ st_db st' = st_db st.
Proof.
  cbv zeta. unfold join_group, rooms_of.
  cbn [with_live st_rooms userRooms activeUsers st_db].
  split; [now rewrite lookup_insert_eq|]. split.
  - rewrite lookup_insert_eq. cbn [default].
    destruct (userRooms st !! u_id (sk_user sock)) as [s|] eqn:E.
    + now rewrite E.
    + now rewrite lookup_insert_eq.
  - split; [|split; [|split; reflexivity]].
    + intros sid Hne. now rewrite lookup_insert_ne by congruence.
    + intros uid Hne. rewrite lookup_insert_ne by congruence.
      destruct (userRooms st !! u_id (sk_user sock)); [reflexivity|].
      now rewrite lookup_insert_ne by congruence.
Qed.

(** The rooms of the joining socket after join-groups, and presence. *)
Lemma on_join_groups_rooms sock groupIds st :
  (forall g, g ∈ rooms_of (on_join_groups sock groupIds st) (sk_id sock)
             <-> g ∈ rooms_of st (sk_id sock) \/ In g groupIds)
  /\ activeUsers (on_join_groups sock groupIds st) = activeUsers st.
Proof.
  unfold on_join_groups. revert st.
  induction groupIds as [|g gs IH]; intros st; cbn [fold_left].
  - split; [|reflexivity]. intros x. split; [now left | intros [H|[]]; exact H].
  - destruct (IH (join_group sock st g)) as (H1 & H5).
    destruct (join_group_spec sock st g) as (J1 & _ & _ & _ & J5 & _).
    split; [|now rewrite H5].
    intros x. rewrite H1, J1, elem_of_union, elem_of_singleton.
    cbn [In]. intuition congruence.
Qed.

(** join-groups adds the requested rooms to those the socket is in and to
    the user's entry of [userRooms], and does nothing else: no room is ever
    left, other sockets and other users are untouched, and neither presence
    nor the store changes.  Joining is therefore cumulative, and asking
    again for rooms already joined changes no membership. *)
Theorem join_groups_accumulates sock groupIds st :
  let st' := on_join_groups sock groupIds st in
  (forall g, g ∈ rooms_of st' (sk_id sock)
             <-> g ∈ rooms_of st (sk_id sock) \/ In g groupIds)
  /\ (forall g, g ∈ default ∅ (userRooms st' !! u_id (sk_user sock))
                <-> g ∈ default ∅ (userRooms st !! u_id (sk_user sock))
                    \/ In g groupIds)
  /\ (forall sid, sid <> sk_id sock -> st_rooms st' !! sid = st_rooms st !! sid)
  /\ (forall uid, uid <> u_id (sk_user sock) ->
                  userRooms st' !! uid = userRooms st !! uid)
  /\ activeUsers st' = activeUsers st /\ st_db st' = st_db st.
Proof.
  cbv zeta. unfold on_join_groups. revert st.
  induction groupIds as [|g gs IH]; intros st; cbn [fold_left].
  - repeat split; try tauto; try reflexivity; intros [H|[]]; exact H.
  - destruct (IH (join_group sock st g)) as (H1 & H2 & H3 & H4 & H5 & H6).
    destruct (join_group_spec sock st g) as (J1 & J2 & J3 & J4 & J5 & J6).
    split; [|split; [|split; [|split; [|split]]]].
    + intros x. rewrite H1, J1, elem_of_union, elem_of_singleton.
      cbn [In]. intuition congruence.
    + intros x. rewrite H2, J2, elem_of_union, elem_of_singleton.
      cbn [In]. intuition congruence.
    + intros sid Hne. now rewrite H3, J3.
    + intros uid Hne. now rewrite H4, J4.
    + now rewrite H5.
    + now rewrite H6.
Qed.

(** After 'disconnect' the socket is in no room and is handed no room
    emission, and the user's entry of [userRooms] is gone; the rooms of
    every other socket stay, the store is untouched, and the user's presence
    entry is kept with the time of the disconnect. *)
Lemma on_disconnect_spec sock now st :
  let st' := on_disconnect sock now st in
  rooms_of st' (sk_id sock) = ∅
  /\ (forall g sender ev,
        receives st' (sk_id sock)
          {| em_target := RoomExcept g sender; em_event := ev |} = false)
  /\ userRooms st' !! u_id (sk_user sock) = None
  /\ (forall sid, sid <> sk_id sock -> rooms_of st' sid = rooms_of st sid)
  /\ st_db st' = st_db st
  /\ (forall au, activeUsers st !! u_id (sk_user sock) = Some au ->
        activeUsers st' !! u_id (sk_user sock)
        = Some {| au_socketId := au_socketId au; au_user := au_user au;
                  au_lastSeen := now |}).
Proof.
  cbv zeta. unfold on_disconnect, receives, rooms_of.
  cbn [with_live st_rooms userRooms activeUsers st_db em_target].
  rewrite !lookup_delete_eq. cbn [default].
  split; [reflexivity|]. split.
  - intros g sender ev. rewrite bool_decide_eq_false_2; [|set_solver].
    apply andb_false_r.
  - split; [reflexivity|]. split; [|split; [reflexivity|]].
    + intros sid Hne. now rewrite lookup_delete_ne by congruence.
    + intros au ->. now rewrite lookup_insert_eq.
Qed.

(** Two connections of one user that joined the same rooms, one of which
    disconnects: the one that left is handed no room emission any more, the
    one that stayed is still handed every emission to those rooms that it
    did not send itself, and yet the user's entry of [userRooms] is gone,
    since that map is kept per user and not per connection. *)
Theorem second_connection_outlives_bookkeeping left stayed now groupIds st :
  sk_id left <> sk_id stayed ->
  u_id (sk_user left) = u_id (sk_user stayed) ->
  let st' := on_disconnect left now
               (on_join_groups stayed groupIds
                  (on_join_groups left groupIds st)) in
  (forall g sender ev,
     receives st' (sk_id left)
       {| em_target := RoomExcept g sender; em_event := ev |} = false)
  /\ (forall g sender ev,
        In g groupIds -> sender <> sk_id stayed ->
        receives st' (sk_id stayed)
          {| em_target := RoomExcept g sender; em_event := ev |} = true)
  /\ userRooms st' !! u_id (sk_user stayed) = None.
Proof.
  intros Hne Hsame. cbv zeta.
  destruct (on_disconnect_spec left now
              (on_join_groups stayed groupIds
                 (on_join_groups left groupIds st)))
    as (_ & Hnone & Hrooms & Hothers & _).
  destruct (on_join_groups_rooms stayed groupIds
              (on_join_groups left groupIds st)) as (Hjoin & _).
  split; [exact Hnone|]. split; [|now rewrite <- Hsame].
  intros g sender ev Hg Hs. unfold receives. cbn [em_target].
  rewrite (Hothers (sk_id stayed)) by congruence.
  apply andb_true_iff. split.
  - apply negb_true_iff. apply String.eqb_neq. congruence.
  - apply bool_decide_eq_true_2. apply Hjoin. now right.
Qed.

Lemma second_connection_outlives_bookkeeping_witness :
  receives
    (on_disconnect Sample.amina_socket 130
       (on_join_groups {| sk_id := "s-amina-2"; sk_user := Sample.amina |} [7]
          (on_join_groups Sample.amina_socket [7] Sample.server0)))
    "s-amina-2"
    {| em_target := RoomExcept 7 "s-boris";
       em_event := UserStopTyping 3 7 |} = true
  /\ userRooms
       (on_disconnect Sample.amina_socket 130
          (on_join_groups {| sk_id := "s-amina-2"; sk_user := Sample.amina |}
             [7] (on_join_groups Sample.amina_socket [7] Sample.server0)))
     !! 2 = None.
Proof.
  destruct (second_connection_outlives_bookkeeping Sample.amina_socket
              {| sk_id := "s-amina-2"; sk_user := Sample.amina |} 130 [7]
              Sample.server0 ltac:(discriminate) eq_refl) as (_ & H2 & H3).
  split; [apply H2; [now left | discriminate] | exact H3].
Defined.

(** A user who reconnects within the thirty seconds after a disconnect is
    still removed from [activeUsers] when the timer of the old connection
    fires: the removal is not cancelled by the new connection, which stays
    in the rooms it joined. *)
Theorem reconnection_does_not_cancel_removal old new t1 t2 groupIds st :
  u_id (sk_user new) = u_id (sk_user old) ->
  let st2 := on_join_groups new groupIds
               (on_connection new t2 (on_disconnect old t1 st)) in
  let st3 := on_grace_expired old st2 in
  activeUsers st2 !! u_id (sk_user new)
  = Some {| au_socketId := sk_id new; au_user := sk_user new;
            au_lastSeen := t2 |}
  /\ activeUsers st3 !! u_id (sk_user new) = None
  /\ st_rooms st3 = st_rooms st2
  /\ (forall g, In g groupIds -> g ∈ rooms_of st3 (sk_id new)).
Proof.
  intros Hsame. cbv zeta.
  destruct (on_join_groups_rooms new groupIds
              (on_connection new t2 (on_disconnect old t1 st)))
    as (H1 & H5).
  split; [|split; [|split]].
  - rewrite H5. unfold on_connection. cbn [with_live activeUsers].
    now rewrite lookup_insert_eq.
  - unfold on_grace_expired. cbn [with_live activeUsers].
    rewrite <- Hsame. now rewrite lookup_delete_eq.
  - reflexivity.
  - intros g Hg. unfold on_grace_expired, rooms_of at 1. cbn [with_live st_rooms].
    apply H1. now right.
Qed.

Lemma reconnection_does_not_cancel_removal_witness :
  activeUsers
    (on_grace_expired Sample.amina_socket
       (on_join_groups {| sk_id := "s-amina-2"; sk_user := Sample.amina |} [7]
          (on_connection {| sk_id := "s-amina-2"; sk_user := Sample.amina |} 120
             (on_disconnect Sample.amina_socket 110
                (on_connection Sample.amina_socket 100 Sample.server0)))))
    !! 2 = None
  /\ 7 ∈ rooms_of
         (on_grace_expired Sample.amina_socket
            (on_join_groups {| sk_id := "s-amina-2"; sk_user := Sample.amina |}
               [7]
               (on_connection
                  {| sk_id := "s-amina-2"; sk_user := Sample.amina |} 120
                  (on_disconnect Sample.amina_socket 110
                     (on_connection Sample.amina_socket 100 Sample.server0)))))
         "s-amina-2".
Proof.
  destruct (reconnection_does_not_cancel_removal Sample.amina_socket
              {| sk_id := "s-amina-2"; sk_user := Sample.amina |} 110 120 [7]
              (on_connection Sample.amina_socket 100 Sample.server0) eq_refl)
    as (_ & H2 & _ & H4).
  split; [exact H2 | apply H4; now left].
Defined.

End RoomFacts.

(** ** Draining the offline queue *)

Module DrainFacts.
Import Store Offline QueueInvariants DrainInvariants.
Import QueueFacts.

Section Drain.
Context {S : Type}.
Variable has_socket : bool.
Variable socket_emit : Server.send_data -> S -> S.
Variable fetch : http_request -> S -> fetch_result * S.

Local Abbreviation processSyncQueue :=
  (processSyncQueue has_socket socket_emit fetch).
Local Abbreviation client_step := (client_step has_socket socket_emit fetch).
Local Abbreviation client_run := (client_run has_socket socket_emit fetch).
Local Abbreviation attempted := (attempted has_socket socket_emit fetch).
Local Abbreviation blocked_by := (blocked_by has_socket socket_emit fetch).

Lemma blocked_step ev m s out e rest :
  db_open m = true -> keys_issued m -> store m = e :: rest ->
  awaits_fetch has_socket (e_action e) = true ->
  let '(m1, s1, out1) := client_step (m, s, out) ev in
  db_open m1 = true /\ keys_issued m1 /\ next_key m <= next_key m1
  /\ exists n added,
       (n <= if is_scan ev then 1 else 0)%nat
       /\ store m1 = e :: rest ++ added
       /\ Forall (fun x => next_key m <= e_id x /\ untouched x) added
       /\ s1 = Nat.iter n (attempted (e_action e)) s
       /\ out1 = out ++ repeat ErrFailedToProcess n.
Proof.
  intros Hd Hk Hs Ha.
  assert (Hsame : forall m1 : manager,
            store m1 = store m -> next_key m1 = next_key m ->
            keys_issued m1).
  { intros m1 H1 H2. unfold keys_issued. now rewrite H1, H2. }
  assert (Hnone : forall m1 : manager,
            db_open m1 = true -> store m1 = store m ->
            next_key m1 = next_key m ->
            db_open m1 = true /\ keys_issued m1 /\ next_key m <= next_key m1
            /\ exists n added,
                 (n <= 0)%nat
                 /\ store m1 = e :: rest ++ added
                 /\ Forall (fun x => next_key m <= e_id x /\ untouched x) added
                 /\ s = Nat.iter n (attempted (e_action e)) s
                 /\ out = out ++ repeat ErrFailedToProcess n).
  { intros m1 H0 H1 H2. split; [exact H0|]. split; [now apply Hsame|].
    split; [lia|]. exists 0%nat, []. cbn [Nat.iter repeat].
    rewrite !app_nil_r. split; [lia|]. split; [congruence|].
    split; [constructor|]. now split. }
  assert (Hone : forall m1 : manager,
            db_open m1 = true -> store m1 = store m ->
            next_key m1 = next_key m ->
            db_open m1 = true /\ keys_issued m1 /\ next_key m <= next_key m1
            /\ exists n added,
                 (n <= 1)%nat
                 /\ store m1 = e :: rest ++ added
                 /\ Forall (fun x => next_key m <= e_id x /\ untouched x) added
                 /\ attempted (e_action e) s
                    = Nat.iter n (attempted (e_action e)) s
                 /\ out ++ [ErrFailedToProcess]
                    = out ++ repeat ErrFailedToProcess n).
  { intros m1 H0 H1 H2. split; [exact H0|]. split; [now apply Hsame|].
    split; [lia|]. exists 1%nat, []. cbn [Nat.iter repeat].
    rewrite !app_nil_r. split; [lia|]. split; [congruence|].
    split; [constructor|]. now split. }
  destruct ev as [| now a | now | now |]; cbn [Offline.client_step is_scan].
  - destruct (Hnone (set_open m) eq_refl eq_refl eq_refl)
      as (H1 & H2 & H3 & n & added & H4 & H5).
    split; [exact H1|]. split; [exact H2|]. split; [exact H3|].
    exists n, added. split; [lia | exact H5].
  - unfold queueAction. rewrite Hd. cbn [negb fst db_open store next_key].
    set (x := {| e_id := next_key m; e_action := a; e_queuedAt := now;
                 e_attempts := 0; e_lastAttempt := None |}).
    assert (Hput : store_put x (store m) = store m ++ [x]).
    { apply put_fresh. exact Hk. }
    rewrite Hput. split; [reflexivity|]. split.
    { unfold keys_issued. cbn [store next_key]. apply Forall_app. split.
      - eapply List.Forall_impl; [|exact Hk]. cbn. intros ? ?. lia.
      - constructor; [cbn; lia | constructor]. }
    split; [lia|]. exists 0%nat, [x]. cbn [Nat.iter repeat].
    rewrite Hs, app_nil_r. split; [lia|]. split; [reflexivity|].
    split; [|now split].
    constructor; [|constructor]. cbn. split; [lia | now split].
  - destruct (isOnline m) eqn:Ho.
    + rewrite (sync_blocked has_socket socket_emit fetch now m s e rest Hd Ho Hs Ha).
      destruct (Hone m Hd eq_refl eq_refl)
        as (H1 & H2 & H3 & n & added & H4 & H5).
      split; [exact H1|]. split; [exact H2|]. split; [exact H3|].
      exists n, added. split; [lia | exact H5].
    + rewrite (sync_idle has_socket socket_emit fetch now m s (or_intror Ho)).
      rewrite app_nil_r.
      destruct (Hnone m Hd eq_refl eq_refl)
        as (H1 & H2 & H3 & n & added & H4 & H5).
      split; [exact H1|]. split; [exact H2|]. split; [exact H3|].
      exists n, added. split; [lia | exact H5].
  - rewrite Hd.
    rewrite (sync_blocked has_socket socket_emit fetch now (set_online m true)
               s e rest Hd eq_refl Hs Ha).
    destruct (Hone (set_online m true) Hd eq_refl eq_refl)
      as (H1 & H2 & H3 & n & added & H4 & H5).
    split; [exact H1|]. split; [exact H2|]. split; [exact H3|].
    exists n, added. split; [lia | exact H5].
  - rewrite Hd.
    destruct (Hnone (set_online m false) Hd eq_refl eq_refl)
      as (H1 & H2 & H3 & n & added & H4 & H5).
    split; [exact H1|]. split; [exact H2|]. split; [exact H3|].
    exists n, added. split; [lia | exact H5].
Qed.

(** An entry that has to wait for the network and stands first in
    the stored queue blocks it for good.  Whatever events follow and
    whatever the network answers, every stored entry is still there as it
    was, with the entries queued since behind them; the scans have tried
    the first entry, once each at most, and no other; nothing was counted,
    evicted or reported, and the console holds one line of a failed attempt
    per try. *)
Theorem network_action_blocks_the_queue evs : forall m s out e rest,
  db_open m = true -> keys_issued m -> store m = e :: rest ->
  awaits_fetch has_socket (e_action e) = true ->
  exists n, (n <= scans evs)%nat
    /\ blocked_by e rest (next_key m) n (m, s, out) (client_run evs (m, s, out)).
Proof.
  induction evs as [|ev evs IH]; intros m s out e rest Hd Hk Hs Ha;
    cbn [Offline.client_run fold_left].
  - exists 0%nat. split; [cbn; lia|]. cbn [blocked_by Nat.iter repeat].
    split; [|now rewrite app_nil_r].
    exists []. rewrite app_nil_r. split; [exact Hs | constructor].
  - pose proof (blocked_step ev m s out e rest Hd Hk Hs Ha) as Hstep.
    destruct (client_step (m, s, out) ev) as [[m1 s1] out1].
    destruct Hstep as (Hd1 & Hk1 & Hle & n1 & added1 & Hn1 & Hs1 & Hf1 & -> & ->).
    destruct (IH m1 (Nat.iter n1 (attempted (e_action e)) s)
                (out ++ repeat ErrFailedToProcess n1) e (rest ++ added1)
                Hd1 Hk1 Hs1 Ha) as (n & Hn & Hb).
    exists (n + n1)%nat. split.
    { unfold scans in *. cbn [List.filter].
      destruct (is_scan ev); cbn [length]; lia. }
    unfold blocked_by in *.
    change (fold_left client_step evs ?x) with (client_run evs x).
    destruct (client_run evs _) as [[m' s'] out'].
    destruct Hb as ((added & Hst & Hf) & -> & ->).
    split; [|split].
    + exists (added1 ++ added). split; [now rewrite Hst, app_assoc|].
      apply Forall_app. split; [exact Hf1|].
      eapply List.Forall_impl; [|exact Hf]. cbn. intros x [Hx Hu].
      split; [lia | exact Hu].
    + now rewrite Nat.iter_add.
    + now rewrite <- app_assoc, <- repeat_app, (Nat.add_comm n1 n).
Qed.

End Drain.

(** A page without a socket holds a queued message and is online; a
    group creation is queued behind it and three more scans run against a
    network that answers every request with 2xx.  Both entries are still
    stored, and the three requests sent were all for the message. *)
Lemma network_action_blocks_the_queue_witness :
  exists n, (n <= 3)%nat
    /\ blocked_by false (fun _ (l : list http_request) => l)
         (fun q (l : list http_request) => (Response true, l ++ [q]))
         {| e_id := 1; e_action := Message Sample.hello_data;
            e_queuedAt := 5; e_attempts := 0; e_lastAttempt := None |}
         [] 2 n
         (fst (queueAction 5 (Message Sample.hello_data)
                 (set_open (created true))), [], [])
         (client_run false (fun _ (l : list http_request) => l)
            (fun q (l : list http_request) => (Response true, l ++ [q]))
            [Queue 8 (CreateGroup {| gd_name := "Camp"; gd_description := "" |});
             Timer 10; Timer 20; Timer 30]
            (fst (queueAction 5 (Message Sample.hello_data)
                    (set_open (created true))), [], [])).
Proof.
  apply (network_action_blocks_the_queue false
           (fun _ (l : list http_request) => l)
           (fun q (l : list http_request) => (Response true, l ++ [q]))
           [Queue 8 (CreateGroup {| gd_name := "Camp"; gd_description := "" |});
            Timer 10; Timer 20; Timer 30]
           (fst (queueAction 5 (Message Sample.hello_data)
                   (set_open (created true)))) [] []
           {| e_id := 1; e_action := Message Sample.hello_data;
              e_queuedAt := 5; e_attempts := 0; e_lastAttempt := None |} []).
  - reflexivity.
  - repeat constructor.
  - reflexivity.
  - reflexivity.
Defined.

End DrainFacts.

(** ** Adding a member *)

Module GroupFacts.
Import Store Auth Str Messages Groups Invariants GroupInvariants.
Import StoreFacts.

Lemma own_role_spec groupId userId d r :
  own_role groupId userId d = Some r ->
  exists gm, In gm (group_members d) /\ gm_group gm = groupId
             /\ gm_user gm = userId /\ gm_role gm = r.
Proof.
  unfold own_role. intros H. apply head_In in H.
  apply in_map_iff in H as (gm & <- & Hin). apply filter_In in Hin as (Hin & Hk).
  apply andb_true_iff in Hk as (H1 & H2).
  exists gm. repeat split; [exact Hin | lia | lia].
Qed.

Lemma own_role_none groupId userId d :
  own_role groupId userId d = None ->
  forall gm, In gm (group_members d) ->
             ~ (gm_group gm = groupId /\ gm_user gm = userId).
Proof.
  unfold own_role. intros H gm Hin (H1 & H2).
  destruct (head_is_Some
              (List.map gm_role
                 (List.filter (fun gm => (gm_group gm =? groupId)
                                         && (gm_user gm =? userId))
                    (group_members d))) (gm_role gm)) as (y & Hy);
    [|congruence].
  apply in_map. apply filter_In. split; [exact Hin|].
  apply andb_true_iff. split; lia.
Qed.

Lemma insert_member_fresh row d :
  (forall gm, In gm (group_members d) ->
              ~ (gm_group gm = gm_group row /\ gm_user gm = gm_user row)) ->
  insert_member row d = Some (tt, with_member d row).
Proof.
  intros H. unfold insert_member, insert_abort.
  rewrite existsb_none; [reflexivity|].
  intros gm Hin. unfold member_conflict. apply andb_false_iff.
  destruct (Z.eqb_spec (gm_group row) (gm_group gm)) as [H1|]; [|now left].
  right. apply Z.eqb_neq. intros H2. apply (H gm Hin). split; congruence.
Qed.

Section Organizations.
Variable user_org : Z -> option Z.
Variable group_org : Z -> option Z.

Lemma user_in_org_spec userId org d t :
  user_in_org user_org userId org d = Some t ->
  In t (users d) /\ u_id t = userId /\ sql_eq (user_org (u_id t)) org = true.
Proof.
  unfold user_in_org. intros H. apply head_In in H.
  apply filter_In in H as (Hin & Hk). apply andb_true_iff in Hk as (H1 & H2).
  repeat split; [exact Hin | lia | exact H2].
Qed.

(** How a run of the add-member route ends. *)
Lemma addMember_run fails now user groupId r w :
  match addMember user_org fails now user groupId r w with
  | (res, w') =>
      (w_db w' = w_db w /\ status_of res <> 200)
      \/ (validate_add r = true
          /\ manager_of (u_id user) groupId (w_db w)
          /\ (exists t, In t (users (w_db w)) /\ u_id t = am_userId r
                        /\ sql_eq (user_org (u_id t)) (user_org (u_id user))
                           = true
                        /\ res = Json 200
                                   {| ma_id := u_id t; ma_name := u_name t;
                                      ma_groupRole :=
                                        gm_role (member_of_request groupId r);
                                      ma_joinedAt := now |})
          /\ (forall gm, In gm (group_members (w_db w)) ->
                         ~ (gm_group gm = groupId /\ gm_user gm = am_userId r))
          /\ w_db w' = with_member (w_db w) (member_of_request groupId r))
  end.
Proof.
  destruct w as [d c]. unfold addMember, catch_500, bind.
  destruct (validate_add r) eqn:Hv; cbn [negb];
    [|left; cbn; split; [reflexivity | lia]].
  unfold getQuery at 1. cbn [w_db w_calls].
  destruct (fails c); [left; cbn; split; [reflexivity | lia]|].
  destruct (own_role groupId (u_id user) d) as [mine|] eqn:Hmine;
    [|left; cbn; split; [reflexivity | lia]].
  destruct (includes ["admin"; "moderator"] mine) eqn:Hrole; cbn [negb];
    [|left; cbn; split; [reflexivity | lia]].
  unfold getQuery at 1. cbn [bump w_db w_calls].
  destruct (fails (S c)); [left; cbn; split; [reflexivity | lia]|].
  destruct (user_in_org user_org (am_userId r) (user_org (u_id user)) d)
    as [t|] eqn:Ht; [|left; cbn; split; [reflexivity | lia]].
  unfold getQuery at 1. cbn [bump w_db w_calls].
  destruct (fails (S (S c))); [left; cbn; split; [reflexivity | lia]|].
  destruct (own_role groupId (am_userId r) d) as [x|] eqn:Hex;
    [left; cbn; split; [reflexivity | lia]|].
  unfold runQuery. cbn [bump w_db w_calls].
  destruct (fails (S (S (S c)))); [left; cbn; split; [reflexivity | lia]|].
  pose proof (own_role_none _ _ _ Hex) as Hfresh.
  rewrite (insert_member_fresh (member_of_request groupId r) d Hfresh
           : insert_member {| gm_group := groupId; gm_user := am_userId r;
                              gm_role := match am_role r with
                                         | Some x => x
                                         | None => "member"
                                         end |} d = _).
  right. cbn. split; [reflexivity|]. split; [|split; [|split; [exact Hfresh|reflexivity]]].
  - apply own_role_spec in Hmine as (gm & Hin & H1 & H2 & <-).
    exists gm. repeat split; assumption.
  - apply user_in_org_spec in Ht as (Hin & Hid & Horg).
    exists t. repeat split; assumption.
Qed.

(** The add-member route stores a membership row only on the request of a
    member who is admin or moderator of the group, for a stored user of the
    caller's organization who has no row for the group yet, with one of the
    three roles; it then appends exactly that row, which keeps
    UNIQUE(group_id, user_id).  On every other answer, and whatever storage
    calls fail, the store is as it was. *)
Theorem add_member_needs_a_manager fails now user groupId r w :
  let run := addMember user_org fails now user groupId r w in
  let d := w_db w in
  let d' := w_db (snd run) in
  (status_of (fst run) = 200 ->
   manager_of (u_id user) groupId d
   /\ (exists t, In t (users d) /\ u_id t = am_userId r
                 /\ sql_eq (user_org (u_id t)) (user_org (u_id user)) = true)
   /\ (forall gm, In gm (group_members d) ->
                  ~ (gm_group gm = groupId /\ gm_user gm = am_userId r))
   /\ d' = with_member d (member_of_request groupId r)
   /\ includes ["member"; "moderator"; "admin"]
        (gm_role (member_of_request groupId r)) = true
   /\ (members_unique d -> members_unique d'))
  /\ (status_of (fst run) <> 200 -> d' = d).
Proof.
  intros run d d'. subst run d d'.
  pose proof (addMember_run fails now user groupId r w) as H.
  destruct (addMember user_org fails now user groupId r w) as [res w'].
  cbn [fst snd].
  destruct H as [(Hd & Hs) | (Hv & Hman & (t & Ht & Hid & Horg & ->) & Hfresh & Hd)].
  - split; [intros; contradiction | intros _; exact Hd].
  - split; [|cbn; intros Hn; now contradiction Hn].
    intros _. split; [exact Hman|]. split; [now exists t|].
    split; [exact Hfresh|]. split; [exact Hd|]. split.
    + unfold validate_add in Hv. unfold member_of_request. cbn [gm_role].
      destruct (am_role r); [exact Hv | reflexivity].
    + intros Hu. rewrite Hd. unfold members_unique, with_member.
      cbn [group_members]. rewrite map_app. apply NoDup_snoc; [exact Hu|].
      cbn [List.map member_of_request gm_group gm_user]. intros Hin.
      apply in_map_iff in Hin as (gm & [= H1 H2] & Hgm).
      apply (Hfresh gm Hgm). now split.
Qed.

Lemma canAccessGroup_stranger fails userId groupId action w :
  (forall gm, In gm (group_members (w_db w)) ->
              ~ (gm_user gm = userId /\ gm_group gm = groupId)) ->
  canAccessGroup fails userId groupId action w = (Ok false, bump w (w_db w)).
Proof.
  intros H. unfold canAccessGroup, try_catch, bind, getQuery.
  destruct (fails (w_calls w)); [reflexivity|].
  now rewrite (AuthFacts.membership_query_no_row _ _ _ H).
Qed.

(** A group without a membership row stays closed: nobody, whatever their
    global role, is granted any action on it, can post to it, can list it or
    can add its first member, and these requests leave the store as it
    was. *)
Theorem memberless_group_stays_closed trim isISO8601 sqlite fails now user
    groupId w :
  memberless groupId (w_db w) ->
  (forall action,
     canAccessGroup fails (u_id user) groupId action w
     = (Ok false, bump w (w_db w)))
  /\ (forall r,
        let run := addMember user_org fails now user groupId r w in
        status_of (fst run) <> 200 /\ w_db (snd run) = w_db w)
  /\ (forall r, cr_groupId r = groupId ->
        let run := createMessage trim sqlite fails now user r w in
        status_of (fst run) <> 201 /\ w_db (snd run) = w_db w)
  /\ (forall q,
        let run := listMessages isISO8601 sqlite fails now user groupId q w in
        fst run = Failure 403 "Access denied to this group"
        /\ w_db (snd run) = w_db w).
Proof.
  intros Hless.
  assert (Hstr : forall uid gm, In gm (group_members (w_db w)) ->
                   ~ (gm_user gm = uid /\ gm_group gm = groupId)).
  { intros uid gm Hin (_ & Hg). exact (Hless gm Hin Hg). }
  split; [intros action; apply canAccessGroup_stranger, Hstr|].
  split; [|split].
  - intros r run. subst run.
    pose proof (addMember_run fails now user groupId r w) as H.
    destruct (addMember user_org fails now user groupId r w) as [res w'].
    cbn [fst snd].
    destruct H as [(Hd & Hs) | (_ & (gm & Hin & Hg & _) & _)]; [now split|].
    exfalso. exact (Hless gm Hin Hg).
  - intros r Hg run. subst run.
    pose proof (CreateMoreFacts.createMessage_run trim sqlite fails now user r
                  w) as H.
    destruct (createMessage trim sqlite fails now user r w) as [res w'].
    cbn [fst snd].
    destruct H as [(Hd & Hs) | ((_ & (mem & Hmem) & _) & _)]; [now split|].
    exfalso. rewrite Hg in Hmem.
    rewrite (AuthFacts.membership_query_no_row _ _ _ (Hstr (u_id user)))
      in Hmem. discriminate.
  - intros q. unfold listMessages, catch_500, bind.
    rewrite (canAccessGroup_stranger fails (u_id user) groupId "read" w
               (Hstr (u_id user))).
    cbn. split; reflexivity.
Qed.

Lemma membership_query_member userId groupId d gm grp u :
  In gm (group_members d) -> gm_user gm = userId -> gm_group gm = groupId ->
  In grp (groups d) -> g_id grp = groupId ->
  In u (users d) -> u_id u = userId ->
  exists mem, membership_query userId groupId d = Some mem.
Proof.
  intros Hgm Hu Hg Hgrp Hgi Hus Hui. unfold membership_query.
  apply (head_is_Some _ {| role := gm_role gm; created_by := g_created_by grp;
                           user_role := u_role u |}).
  unfold membership_rows. apply in_flat_map. exists gm. split.
  - apply filter_In. split; [exact Hgm|]. apply andb_true_iff. split; lia.
  - apply in_flat_map. exists grp. split.
    + apply filter_In. split; [exact Hgrp | lia].
    + apply (in_map (fun u0 => {| role := gm_role gm;
                                  created_by := g_created_by grp;
                                  user_role := u_role u0 |})).
      apply filter_In. split; [exact Hus | lia].
Qed.

(** Once the add-member route has answered 200, the new member of a
    stored group is granted 'read' and 'write' by [canAccessGroup], and
    holds the role the request named: a moderator can grant any of the three
    roles, admin included. *)
Theorem added_member_gains_access fails now user groupId r w body :
  fst (addMember user_org fails now user groupId r w) = Json 200 body ->
  (exists grp, In grp (groups (w_db w)) /\ g_id grp = groupId) ->
  let d' := w_db (snd (addMember user_org fails now user groupId r w)) in
  In (member_of_request groupId r) (group_members d')
  /\ fst (canAccessGroup no_fault (am_userId r) groupId "read" (start d'))
     = Ok true
  /\ fst (canAccessGroup no_fault (am_userId r) groupId "write" (start d'))
     = Ok true.
Proof.
  intros Hres (grp & Hgrp & Hgi) d'. subst d'.
  pose proof (addMember_run fails now user groupId r w) as H.
  destruct (addMember user_org fails now user groupId r w) as [res w'].
  cbn [fst snd] in *. subst res.
  destruct H as [(_ & Hs) | (_ & _ & (t & Ht & Hid & _) & _ & ->)];
    [now contradiction Hs|].
  assert (Hin : In (member_of_request groupId r)
                  (group_members (with_member (w_db w)
                                    (member_of_request groupId r)))).
  { cbn [with_member group_members]. apply in_or_app. right. now left. }
  split; [exact Hin|].
  destruct (membership_query_member (am_userId r) groupId
              (with_member (w_db w) (member_of_request groupId r))
              (member_of_request groupId r) grp t Hin eq_refl eq_refl
              Hgrp Hgi Ht Hid) as (mem & Hmem).
  split; rewrite AuthFacts.canAccessGroup_answer by reflexivity;
    cbn [start w_db]; rewrite Hmem;
    destruct (String.eqb (user_role mem) "admin"); try reflexivity;
    destruct (is_creator mem (am_userId r)); reflexivity.
Qed.

End Organizations.

(** Chen, a moderator of group 7, adds Dana with the default role. *)
Lemma add_member_needs_a_manager_witness :
  w_db (snd (addMember MoreSamples.one_org no_fault 300 Sample.chen 7
               {| am_userId := 5; am_role := None |} (start Sample.db1)))
  = with_member Sample.db1
      {| gm_group := 7; gm_user := 5; gm_role := "member" |}.
Proof.
  apply (proj1 (add_member_needs_a_manager MoreSamples.one_org no_fault 300
                  Sample.chen 7 {| am_userId := 5; am_role := None |}
                  (start Sample.db1)) eq_refl).
Defined.

(** The administrator created the group General, and nobody is a member
    of it: the administrator is denied. *)
Lemma memberless_group_stays_closed_witness :
  canAccessGroup no_fault 1 8 "manage" (start MoreSamples.db_general)
  = (Ok false, bump (start MoreSamples.db_general) MoreSamples.db_general).
Proof.
  apply (memberless_group_stays_closed MoreSamples.one_org Sample.trim
           Sample.isISO8601 Sample.sqlite no_fault 0
           Sample.admin 8 (start MoreSamples.db_general)).
  intros gm [<-|[<-|[<-|[]]]]; discriminate.
Defined.

(** Chen, a moderator of group 7, makes Dana an admin of it. *)
Lemma added_member_gains_access_witness :
  fst (canAccessGroup no_fault 5 7 "write"
         (start (w_db (snd (addMember MoreSamples.one_org no_fault 300
                              Sample.chen 7
                              {| am_userId := 5; am_role := Some "admin" |}
                              (start Sample.db1))))))
  = Ok true.
Proof.
  apply (added_member_gains_access MoreSamples.one_org no_fault 300 Sample.chen
           7 {| am_userId := 5; am_role := Some "admin" |} (start Sample.db1)
           _ eq_refl).
  eexists. split; [now left | reflexivity].
Defined.

End GroupFacts.

(** ** The unread counter of the group list *)

Module UnreadFacts.
Import Store Auth Str Order Messages Groups Invariants.
Import StoreFacts OrderFacts.

Lemma nodup_snoc_fresh (l : list Z) x :
  ~ In x l -> nodup Z.eq_dec (l ++ [x]) = nodup Z.eq_dec l ++ [x].
Proof.
  induction l as [|a l IH]; intros Hx; [reflexivity|].
  cbn [app nodup].
  assert (Ha : a <> x) by (intros ->; apply Hx; now left).
  assert (Hl : ~ In x l) by (intros H; apply Hx; now right).
  destruct (in_dec Z.eq_dec a (l ++ [x])) as [Hin|Hin],
           (in_dec Z.eq_dec a l) as [Hin'|Hin'].
  - now apply IH.
  - exfalso. apply in_app_or in Hin as [Hin|[Hin|[]]]; [now apply Hin'|].
    now apply Ha.
  - exfalso. apply Hin. apply in_or_app. now left.
  - cbn [app]. f_equal. now apply IH.
Qed.

Lemma select_groups_row user_org group_org user d row :
  In row (select_groups user_org group_org user d) ->
  gs_unread_count row = unread_count (u_id user) (gs_id row) d
  /\ gs_member_count row = member_count (gs_id row) d
  /\ exists gm, In gm (group_members d) /\ gm_group gm = gs_id row
                /\ gm_user gm = u_id user
                /\ gm_role gm = gs_membership_role row.
Proof.
  unfold select_groups. intros H. apply order_by_In in H.
  apply in_flat_map in H as (g & _ & H).
  apply in_map_iff in H as (r & <- & Hr). cbn.
  split; [reflexivity|]. split; [reflexivity|].
  apply nodup_In in Hr. apply in_map_iff in Hr as (gm & <- & Hgm).
  apply filter_In in Hgm as (Hgm & Hk). apply andb_true_iff in Hk as (H1 & H2).
  exists gm. repeat split; [exact Hgm | lia | lia].
Qed.

(** After a list request answered 200 the caller has no unread message in
    the group: the counter that the group list shows for the group is zero,
    whatever it was before. *)
Theorem list_resets_unread isISO8601 sqlite user_org group_org fails now user
    groupId q w :
  status_of (fst (listMessages isISO8601 sqlite fails now user groupId q w)) = 200 ->
  messages_unique (w_db w) ->
  let d' := w_db (snd (listMessages isISO8601 sqlite fails now user groupId q w)) in
  unread_count (u_id user) groupId d' = 0
  /\ forall fails' w' rows row,
       w_db w' = d' ->
       fst (listGroups user_org group_org fails' user w') = Json 200 rows ->
       In row rows -> gs_id row = groupId -> gs_unread_count row = 0.
Proof.
  intros Hs Hu d'.
  pose proof (ReadFacts.listMessages_marks_read isISO8601 sqlite fails now
                user groupId q w Hs)
    as Hmark.
  fold d' in Hmark.
  rewrite (ReadFacts.mark_group_read_status (u_id user) groupId (w_db w) Hu now)
    in Hmark.
  injection Hmark as Hd'. 
  assert (Hzero : unread_count (u_id user) groupId d' = 0).
  { unfold unread_count. rewrite <- Hd'. cbn [set_message_status messages].
    rewrite AuthFacts.filter_none; [reflexivity|].
    intros m Hm. apply andb_false_iff.
    destruct (Z.eqb_spec (m_group m) groupId) as [Hg|]; [right | now left].
    unfold counts_as_unread.
    destruct (Z.eqb_spec (m_sender m) (u_id user)) as [|Hne]; [reflexivity|].
    cbn [negb andb message_status set_message_status].
    rewrite (ReadFacts.marked_rows (u_id user) groupId (w_db w) Hu now m).
    - reflexivity.
    - unfold unread. apply filter_In. split; [exact Hm|].
      apply andb_true_iff. split; [lia|]. apply negb_true_iff. lia. }
  split; [exact Hzero|].
  intros fails' w' rows row Hw Hres Hin Hid.
  unfold listGroups, catch_500, bind, allQuery, getQuery in Hres.
  destruct (fails' (w_calls w')); [cbn in Hres; discriminate|].
  cbn in Hres. injection Hres as <-.
  apply select_groups_row in Hin as (-> & _). now rewrite Hw, Hid.
Qed.

Lemma list_resets_unread_witness :
  unread_count 4 7 Sample.db1 = 1
  /\ unread_count 4 7
       (w_db (snd (listMessages Sample.isISO8601 Sample.sqlite no_fault 300
                     Sample.chen 7 Sample.first_page
                     (start Sample.db1)))) = 0.
Proof.
  split; [reflexivity|].
  apply (list_resets_unread Sample.isISO8601 Sample.sqlite
           MoreSamples.one_org MoreSamples.one_org no_fault 300
           Sample.chen 7 Sample.first_page (start Sample.db1) eq_refl).
  repeat constructor. intros [].
Defined.


Lemma all_unread_rows (rows : list status_row) :
  (forall ms, In ms rows -> ms_read_at ms = None) ->
  match rows with
  | [] => true
  | a :: l => existsb (fun ms => match ms_read_at ms with
                                 | None => true
                                 | Some _ => false
                                 end) (a :: l)
  end = true.
Proof.
  destruct rows as [|a rows]; [reflexivity|]. intros H.
  cbn [existsb]. now rewrite (H a (or_introl eq_refl)).
Qed.

(** A message that the create route has stored (201) is unread for
    everyone but its sender: the unread counter of its group goes up by one
    for every other user, stays for the sender, and the counters of the
    other groups stay for everyone. *)
Theorem create_raises_unread trim sqlite fails now user r w body :
  fst (createMessage trim sqlite fails now user r w) = Json 201 body ->
  messages_assigned (w_db w) -> status_assigned (w_db w) ->
  let d := w_db w in
  let d' := w_db (snd (createMessage trim sqlite fails now user r w)) in
  (forall u, u <> u_id user ->
     unread_count u (cr_groupId r) d' = unread_count u (cr_groupId r) d + 1)
  /\ unread_count (u_id user) (cr_groupId r) d'
     = unread_count (u_id user) (cr_groupId r) d
  /\ (forall u g, g <> cr_groupId r -> unread_count u g d' = unread_count u g d).
Proof.
  intros Hres Hma Hsa d d'.
  pose proof (CreateFacts.createMessage_outcome trim sqlite fails now user r
                w) as Hout.
  unfold create_outcome in Hout. rewrite Hres in Hout. cbn [status_of] in Hout.
  destruct Hout as (msgs & tags & sts & Hst & _ & H201).
  destruct (H201 eq_refl) as (-> & -> & ->). clear H201.
  destruct Hst as (_ & _ & _ & Hm & _ & _ & Hs). fold d d' in Hm, Hs.
  unfold messages_assigned in Hma. unfold status_assigned in Hsa.
  rewrite List.Forall_forall in Hma, Hsa. fold d in Hma, Hsa.
  set (new := new_message trim now user r d) in *.
  set (fan := fanout_rows now (seq_messages d + 1) (u_id user) (cr_groupId r) d)
    in *.
  assert (Hold : forall u m, In m (messages d) ->
                   counts_as_unread u d' m = counts_as_unread u d m).
  { intros u m Hin. unfold counts_as_unread. rewrite Hs, List.filter_app.
    rewrite (AuthFacts.filter_none _ fan); [now rewrite app_nil_r|].
    intros ms Hms. unfold fan, fanout_rows in Hms.
    apply in_map_iff in Hms as (gm & <- & _). cbn [ms_message ms_user].
    specialize (Hma m Hin). apply andb_false_iff. left. lia. }
  assert (Hnew : forall u, u <> u_id user -> counts_as_unread u d' new = true).
  { intros u Hne. unfold counts_as_unread.
    set (rows := List.filter _ (message_status d')).
    assert (Hrows : forall ms, In ms rows -> ms_read_at ms = None).
    { intros ms Hms. apply filter_In in Hms as (Hin & Hk).
      apply andb_true_iff in Hk as (Hid & Hu').
      cbn [new new_message m_id] in Hid.
      rewrite Hs in Hin. apply in_app_or in Hin as [Hin|Hin].
      - exfalso. specialize (Hsa ms Hin). lia.
      - unfold fan, fanout_rows in Hin.
        apply in_map_iff in Hin as (gm & <- & _).
        cbn [ms_read_at ms_user] in *.
        destruct (Z.eqb_spec (gm_user gm) (u_id user)); [lia | reflexivity]. }
    rewrite (all_unread_rows rows Hrows). cbn [new new_message m_sender].
    destruct (Z.eqb_spec (u_id user) u) as [|_]; [congruence | reflexivity]. }
  assert (Hfilter : forall u g,
            List.filter (fun m => (m_group m =? g) && counts_as_unread u d' m)
              (messages d)
            = List.filter (fun m => (m_group m =? g) && counts_as_unread u d m)
                (messages d)).
  { intros u g. apply List.filter_ext_in. intros m Hin. now rewrite Hold. }
  assert (Hfresh : forall u g,
            ~ In (m_id new)
                (List.map m_id
                   (List.filter
                      (fun m => (m_group m =? g) && counts_as_unread u d m)
                      (messages d)))).
  { intros u g Hin. apply in_map_iff in Hin as (m & Hid & Hin).
    apply filter_In in Hin as (Hin & _). specialize (Hma m Hin).
    cbn [new new_message m_id] in Hid. lia. }
  split; [|split].
  - intros u Hne. unfold unread_count.
    rewrite Hm, List.filter_app, Hfilter. cbn [List.filter].
    rewrite (Hnew u Hne). cbn [new new_message m_group].
    rewrite Z.eqb_refl. cbn [andb]. rewrite map_app. cbn [List.map].
    fold new. rewrite (nodup_snoc_fresh _ _ (Hfresh u (cr_groupId r))).
    rewrite length_app. cbn [length]. lia.
  - unfold unread_count. rewrite Hm, List.filter_app, Hfilter. cbn [List.filter].
    replace (counts_as_unread (u_id user) d' new) with false.
    + rewrite andb_false_r, app_nil_r. reflexivity.
    + unfold counts_as_unread. cbn [new new_message m_sender].
      now rewrite Z.eqb_refl.
  - intros u g Hg. unfold unread_count.
    rewrite Hm, List.filter_app, Hfilter. cbn [List.filter].
    cbn [new new_message m_group].
    destruct (Z.eqb_spec (cr_groupId r) g) as [|_]; [congruence|].
    cbn [andb]. now rewrite app_nil_r.
Qed.

Lemma create_raises_unread_witness :
  unread_count 4 7
    (w_db (snd (createMessage Sample.trim Sample.sqlite no_fault 200
                  Sample.amina Sample.hello
                  (start Sample.db1))))
  = unread_count 4 7 Sample.db1 + 1.
Proof.
  apply (create_raises_unread Sample.trim Sample.sqlite no_fault 200
           Sample.amina Sample.hello
           (start Sample.db1) _ eq_refl).
  - repeat constructor; cbn; lia.
  - repeat constructor; cbn; lia.
  - discriminate.
Defined.

End UnreadFacts.

(** ** The offline cache *)

Module CacheFacts.
Import Store Offline Cache.
Import OrderFacts SortedFacts.

Section PutFacts.
Context {A : Type} (key : A -> Z).

Lemma keys_tail_gt a l :
  StronglySorted Z.lt (List.map key (a :: l)) ->
  forall x, In x l -> key a < key x.
Proof.
  intros H x Hx. simpl in H. apply StronglySorted_inv in H as [_ H].
  rewrite List.Forall_forall in H. apply H. now apply in_map.
Qed.

Lemma keyed_put_In x l y :
  StronglySorted Z.lt (List.map key l) ->
  In y (put key x l) <-> y = x \/ (In y l /\ key y <> key x).
Proof.
  induction l as [|a l IH]; cbn [put]; intros H.
  - cbn. intuition.
  - pose proof (keys_tail_gt _ _ H) as Hgt.
    simpl in H. apply StronglySorted_inv in H as [Hs _].
    destruct (Z.ltb_spec (key x) (key a)) as [Hlt|Hge].
    + cbn [In]. split.
      * intros [Hy|[Hy|Hy]].
        -- left. now symmetry.
        -- right. subst y. split; [now left | lia].
        -- right. split; [now right|]. specialize (Hgt y Hy). lia.
      * intros [Hy|[[Hy|Hy] _]]; [left; now symmetry | right; now left
                                  | right; now right].
    + destruct (Z.eqb_spec (key x) (key a)) as [Heq|Hne].
      * cbn [In]. split.
        -- intros [Hy|Hy]; [left; now symmetry | right].
           split; [now right|]. specialize (Hgt y Hy). lia.
        -- intros [Hy|[[Hy|Hy] Hn]]; [left; now symmetry
                                      | subst y; congruence | now right].
      * cbn [In]. rewrite (IH Hs). split.
        -- intros [Hy|[Hy|[Hy Hn]]].
           ++ subst y. right. split; [now left | congruence].
           ++ now left.
           ++ right. split; [now right | exact Hn].
        -- intros [Hy|[[Hy|Hy] Hn]]; [right; now left | now left
                                      | right; right; now split].
Qed.

Lemma keyed_put_sorted x l :
  StronglySorted Z.lt (List.map key l) ->
  StronglySorted Z.lt (List.map key (put key x l)).
Proof.
  induction l as [|a l IH]; cbn [put]; intros H.
  - repeat constructor.
  - pose proof (keys_tail_gt _ _ H) as Hgt.
    pose proof H as Hall. simpl in H. apply StronglySorted_inv in H as [Hs Hfa].
    destruct (Z.ltb_spec (key x) (key a)) as [Hlt|Hge].
    + cbn [List.map]. constructor; [exact Hall|]. constructor; [exact Hlt|].
      apply List.Forall_forall. intros i Hi.
      apply in_map_iff in Hi as (y & <- & Hy). specialize (Hgt y Hy). lia.
    + destruct (Z.eqb_spec (key x) (key a)) as [Heq|Hne].
      * cbn [List.map]. constructor; [exact Hs|]. now rewrite Heq.
      * cbn [List.map]. constructor; [now apply IH|].
        apply List.Forall_forall. intros i Hi.
        apply in_map_iff in Hi as (y & <- & Hy).
        apply (keyed_put_In _ _ _ Hs) in Hy as [->|[Hy _]]; [lia | now apply Hgt].
Qed.

(** Putting a list of records one after the other: of the records with
    the same key the last one is kept, and a stored record stays unless a
    record with its key is put. *)
Lemma put_all_In l : forall st x,
  StronglySorted Z.lt (List.map key st) ->
  In x (fold_left (fun acc g => put key g acc) l st)
  <-> (exists l1 l2, l = l1 ++ x :: l2 /\ ~ In (key x) (List.map key l2))
      \/ (In x st /\ ~ In (key x) (List.map key l)).
Proof.
  induction l as [|a l IH]; intros st x Hs; cbn [fold_left].
  - split; [intros H; right; split; [exact H | intros []]|].
    intros [(l1 & l2 & H & _)|[H _]]; [destruct l1; discriminate | exact H].
  - rewrite (IH (put key a st) x (keyed_put_sorted a st Hs)), (keyed_put_In a st x Hs).
    cbn [List.map In]. split.
    + intros [(l1 & l2 & -> & Hf)|[[->|[Hin Hne]] Hf]].
      * left. exists (a :: l1), l2. split; [reflexivity | exact Hf].
      * left. exists [], l. split; [reflexivity | exact Hf].
      * right. split; [exact Hin|]. intros [H|H]; [congruence | now apply Hf].
    + intros [(l1 & l2 & Heq & Hf)|[Hin Hf]].
      * destruct l1 as [|b l1]; cbn [app] in Heq; injection Heq as -> ->.
        -- right. split; [now left | exact Hf].
        -- left. exists l1, l2. split; [reflexivity | exact Hf].
      * right. split; [right; split; [exact Hin|]|].
        -- intros H. apply Hf. left. now symmetry.
        -- intros H. apply Hf. now right.
Qed.
End PutFacts.


Lemma getMessages_sorted groupId o :
  StronglySorted
    (fun a b => Server.lv_timestamp (c_message a)
                <= Server.lv_timestamp (c_message b))
    (getMessages groupId o).
Proof.
  unfold getMessages. destruct (negb (db_open (od_manager o))); [constructor|].
  eapply sorted_weaken; [|apply order_by_sorted].
  - cbn beta. intros a b H. lia.
  - cbn beta. intros a b H. lia.
  - cbn beta. intros a b c H1 H2. lia.
Qed.

(** A message saved to the offline cache is read back with its group: the
    cache holds one record per message id, the one saved last, flagged
    offline exactly when it was saved without a connection; records with
    other ids are untouched.  A read returns records of the requested group
    only, in the order of their timestamps.  While the database is not open
    a save is dropped without an error and a read returns nothing. *)
Theorem saved_message_round_trip now message o :
  StronglySorted Z.lt (List.map c_id (od_messages o)) ->
  let o' := saveMessage now message o in
  let saved := {| c_message := message;
                  c_offline := negb (isOnline (od_manager o));
                  c_savedAt := now |} in
  (db_open (od_manager o) = true ->
   In saved (getMessages (Server.lv_groupId message) o')
   /\ (forall c, In c (od_messages o') -> c_id c = Server.lv_id message ->
                 c = saved)
   /\ (forall c, c_id c <> Server.lv_id message ->
                 (In c (od_messages o') <-> In c (od_messages o)))
   /\ StronglySorted Z.lt (List.map c_id (od_messages o')))
  /\ (forall g,
        (forall c, In c (getMessages g o') ->
                   Server.lv_groupId (c_message c) = g
                   /\ In c (od_messages o'))
        /\ StronglySorted
             (fun a b => Server.lv_timestamp (c_message a)
                         <= Server.lv_timestamp (c_message b))
             (getMessages g o'))
  /\ (db_open (od_manager o) = false ->
      o' = o /\ forall g, getMessages g o' = []).
Proof.
  intros Hs o' saved. split; [|split].
  - intros Hd. subst o'. unfold saveMessage, getMessages. rewrite Hd.
    cbn [negb od_manager od_messages]. rewrite Hd. cbn [negb]. fold saved.
    split; [|split; [|split]].
    + apply order_by_In. apply filter_In. split.
      * apply (keyed_put_In c_id _ _ _ Hs). now left.
      * cbn. apply Z.eqb_refl.
    + intros c Hc Hid. apply (keyed_put_In c_id _ _ _ Hs) in Hc as [->|[_ Hne]];
        [reflexivity|]. exfalso. apply Hne. exact Hid.
    + intros c Hne. rewrite (keyed_put_In c_id _ _ _ Hs). split.
      * intros [->|[Hc _]]; [exfalso; now apply Hne | exact Hc].
      * intros Hc. right. split; [exact Hc | exact Hne].
    + now apply keyed_put_sorted.
  - intros g. split; [|apply getMessages_sorted].
    intros c Hc. unfold getMessages in Hc.
    destruct (negb (db_open (od_manager o'))); [contradiction|].
    apply order_by_In in Hc. apply filter_In in Hc as (Hc & Hg).
    split; [lia | exact Hc].
  - intros Hd. subst o'. unfold saveMessage, getMessages. rewrite Hd.
    cbn [negb]. split; [reflexivity|]. intros g. now rewrite Hd.
Qed.

Lemma saved_message_round_trip_witness :
  In {| c_message :=
          {| Server.lv_id := 1; Server.lv_senderId := 2;
             Server.lv_senderName := "Amina"; Server.lv_groupId := 7;
             Server.lv_content := "hello"; Server.lv_type := "text";
             Server.lv_tags := []; Server.lv_timestamp := 100 |};
        c_offline := true; c_savedAt := 120 |}
     (getMessages 7
        (saveMessage 120
           {| Server.lv_id := 1; Server.lv_senderId := 2;
              Server.lv_senderName := "Amina"; Server.lv_groupId := 7;
              Server.lv_content := "hello"; Server.lv_type := "text";
              Server.lv_tags := []; Server.lv_timestamp := 100 |}
           {| od_manager := set_open (created false); od_messages := [];
              od_groups := [] |})).
Proof.
  exact (proj1 (proj1 (saved_message_round_trip 120
           {| Server.lv_id := 1; Server.lv_senderId := 2;
              Server.lv_senderName := "Amina"; Server.lv_groupId := 7;
              Server.lv_content := "hello"; Server.lv_type := "text";
              Server.lv_tags := []; Server.lv_timestamp := 100 |}
           {| od_manager := set_open (created false); od_messages := [];
              od_groups := [] |} (SSorted_nil _)) eq_refl)).
Defined.

(** Saving groups upserts them by id: of the saved groups with the same
    id the last one is cached, and a group cached earlier stays cached
    unless a group with its id is saved; no save removes a group. *)
Theorem saved_groups_last_wins groups o g :
  StronglySorted Z.lt (List.map Groups.gs_id (od_groups o)) ->
  db_open (od_manager o) = true ->
  In g (getGroups (saveGroups groups o))
  <-> (exists l1 l2, groups = l1 ++ g :: l2
                     /\ ~ In (Groups.gs_id g) (List.map Groups.gs_id l2))
      \/ (In g (od_groups o)
          /\ ~ In (Groups.gs_id g) (List.map Groups.gs_id groups)).
Proof.
  intros Hs Hd. unfold getGroups, saveGroups. rewrite Hd.
  cbn [negb od_manager od_groups]. rewrite Hd. cbn [negb].
  now apply put_all_In.
Qed.

Lemma saved_groups_last_wins_witness :
  In {| Groups.gs_id := 7; Groups.gs_name := "Relief north";
        Groups.gs_membership_role := "member"; Groups.gs_member_count := 3;
        Groups.gs_unread_count := 0 |}
     (getGroups
        (saveGroups
           [{| Groups.gs_id := 7; Groups.gs_name := "Relief";
               Groups.gs_membership_role := "member";
               Groups.gs_member_count := 3; Groups.gs_unread_count := 1 |};
            {| Groups.gs_id := 7; Groups.gs_name := "Relief north";
               Groups.gs_membership_role := "member";
               Groups.gs_member_count := 3; Groups.gs_unread_count := 0 |}]
           {| od_manager := set_open (created true); od_messages := [];
              od_groups := [] |})).
Proof.
  apply (saved_groups_last_wins _
           {| od_manager := set_open (created true); od_messages := [];
              od_groups := [] |} _ (SSorted_nil _) eq_refl).
  left. eexists [_], []. split; [reflexivity | intros []].
Defined.

End CacheFacts.

(** ** The page's own queue *)

Module AppFacts.
Import Store Str App AppInvariants.

Lemma sendMessage_offline c t a :
  a_isOnline a = false ->
  snd (sendMessage c t a) = []
  /\ a_isOnline (fst (sendMessage c t a)) = false
  /\ a_groups (fst (sendMessage c t a)) = a_groups a
  /\ a_currentGroup (fst (sendMessage c t a)) = a_currentGroup a
  /\ a_offlineQueue (fst (sendMessage c t a))
     = a_offlineQueue a
       ++ match a_currentGroup a with
          | Some g => if truthy c then [typed_message g (c, t)] else []
          | None => []
          end.
Proof.
  intros Hoff. unfold sendMessage.
  destruct (a_currentGroup a) as [g|] eqn:Hg; cbn [fst snd].
  - destruct (truthy c); cbn [negb fst snd].
    + rewrite Hoff. cbn [andb fst snd a_isOnline a_groups a_currentGroup
                           a_offlineQueue].
      repeat split; assumption.
    + rewrite app_nil_r. repeat split; assumption.
  - rewrite app_nil_r. repeat split; assumption.
Qed.

Lemma typing_offline typed : forall a out,
  a_isOnline a = false ->
  let run := page_run (typing typed) (a, out) in
  snd run = out
  /\ a_isOnline (fst run) = false
  /\ a_groups (fst run) = a_groups a
  /\ a_offlineQueue (fst run)
     = a_offlineQueue a
       ++ match a_currentGroup a with
          | Some g =>
              flat_map (fun ct => if truthy (fst ct)
                                  then [typed_message g ct] else []) typed
          | None => []
          end.
Proof.
  induction typed as [|[c t] typed IH]; intros a out Hoff.
  - cbn. repeat split; try assumption.
    destruct (a_currentGroup a); symmetry; apply app_nil_r.
  - cbn [typing List.map page_run fold_left page_step fst snd].
    destruct (sendMessage_offline c t a Hoff) as (S1 & S2 & S3 & S4 & S5).
    destruct (sendMessage c t a) as [a1 es]. cbn [fst snd] in *. subst es.
    rewrite app_nil_r.
    specialize (IH a1 out S2). cbv zeta in IH. unfold page_run, typing in IH.
    destruct IH as (H1 & H2 & H3 & H4).
    rewrite H1, H2, H3, H4, S3, S4, S5. repeat split.
    rewrite <- app_assoc. f_equal.
    destruct (a_currentGroup a); [|reflexivity].
    cbn [flat_map fst]. reflexivity.
Qed.

(** What is typed while the page is offline is put on the page's queue
    and never sent: the next 'connect' empties the queue and emits nothing
    but join-groups. *)
Theorem offline_messages_are_dropped typed a :
  a_isOnline a = false ->
  let queued := fst (page_run (typing typed) (a, [])) in
  let run := page_run (typing typed ++ [Connected]) (a, []) in
  (forall g, a_currentGroup a = Some g ->
     a_offlineQueue queued
     = a_offlineQueue a
       ++ flat_map (fun ct => if truthy (fst ct)
                              then [typed_message g ct] else []) typed)
  /\ (forall d, ~ In (EmitSendMessage d) (snd run))
  /\ a_offlineQueue (fst run) = []
  /\ a_isOnline (fst run) = true.
Proof.
  intros Hoff queued run.
  destruct (typing_offline typed a [] Hoff) as (H1 & H2 & H3 & H4).
  fold queued in H1, H2, H3, H4.
  split; [intros g Hg; now rewrite H4, Hg|].
  subst run. unfold page_run. rewrite fold_left_app.
  fold (page_run (typing typed) (a, [])).
  destruct (page_run (typing typed) (a, [])) as [a1 out1] eqn:Hrun.
  cbn [fst snd] in *. subst queued out1.
  cbn [fold_left page_step on_connect fst snd].
  split; [|split].
  - intros d Hin. cbn [updateConnectionStatus a_groups] in Hin.
    destruct (a_groups a1); [contradiction|].
    destruct Hin as [Hin|[]]. discriminate.
  - unfold processOfflineQueue.
    destruct (a_offlineQueue (updateConnectionStatus true a1)) eqn:E;
      [exact E | reflexivity].
  - unfold processOfflineQueue.
    destruct (a_offlineQueue (updateConnectionStatus true a1)); reflexivity.
Qed.

Lemma offline_messages_are_dropped_witness :
  a_offlineQueue
    (fst (page_run (typing [("hello", None)])
            ({| a_socket := true; a_currentGroup := Some 7; a_groups := [7];
                a_isOnline := false; a_offlineQueue := [] |}, [])))
  = [typed_message 7 ("hello", None)]
  /\ snd (page_run (typing [("hello", None)] ++ [Connected])
            ({| a_socket := true; a_currentGroup := Some 7; a_groups := [7];
                a_isOnline := false; a_offlineQueue := [] |}, []))
     = [EmitJoinGroups [7]].
Proof.
  split; [|reflexivity].
  exact (proj1 (offline_messages_are_dropped [("hello", None)]
                  {| a_socket := true; a_currentGroup := Some 7;
                     a_groups := [7]; a_isOnline := false;
                     a_offlineQueue := [] |} eq_refl) 7 eq_refl).
Defined.

End AppFacts.

(** ** Every route keeps the constraints of the schema *)

Module ApiFacts.
Import Store Auth Str Messages Moderation Search Groups Api.
Import Invariants ModerationInvariants ViewInvariants GroupInvariants ApiInvariants.
Import StoreFacts.

Lemma evolves_refl d : evolves d d.
Proof.
  split; [reflexivity|]. split; [reflexivity|]. split; [lia | tauto].
Qed.

Lemma evolves_trans d1 d2 d3 : evolves d1 d2 -> evolves d2 d3 -> evolves d1 d3.
Proof.
  intros (H1 & H2 & H3 & H4) (K1 & K2 & K3 & K4).
  split; [congruence|]. split; [congruence|]. split; [lia | tauto].
Qed.

Lemma Forall_filter {A} (P : A -> Prop) (p : A -> bool) (l : list A) :
  Forall P l -> Forall P (List.filter p l).
Proof.
  rewrite !List.Forall_forall. intros H x Hx. apply filter_In in Hx as (Hx & _).
  now apply H.
Qed.

Lemma create_evolves trim sqlite fails now user r w :
  evolves (w_db w) (w_db (snd (createMessage trim sqlite fails now user r w))).
Proof.
  destruct (CreateFacts.createMessage_outcome trim sqlite fails now user r w)
    as (msgs & tags & sts & (Hu & Hg & _ & Hm & Hseq & Htags & _) & Hcase & _).
  split; [exact Hu|]. split; [exact Hg|]. split; [lia|].
  intros (Hinv & Hta). split; [now apply InvariantFacts.createMessage_keeps|].
  unfold tags_assigned in *. rewrite Htags, Hseq. apply Forall_app. split.
  - eapply List.Forall_impl; [|exact Hta]. intros mt Hmt. cbn in Hmt. lia.
  - apply List.Forall_forall. intros mt Hmt.
    destruct Hcase as [(_ & -> & _) | (-> & (rest & Hrest) & _)];
      [contradiction|].
    assert (Hall : In mt (tag_rows (seq_messages (w_db w) + 1) (u_id user)
                            (match cr_tags r with Some l => l | None => [] end))).
    { rewrite Hrest. apply in_or_app. now left. }
    apply CreateMoreFacts.tag_rows_message in Hall. cbn [length]. lia.
Qed.

Lemma list_evolves isISO8601 sqlite fails now user groupId q w :
  evolves (w_db w)
    (w_db (snd (listMessages isISO8601 sqlite fails now user groupId q w))).
Proof.
  pose proof (InvariantFacts.listMessages_keeps isISO8601 sqlite fails now
                user groupId q w) as Hkeep.
  destruct (InvariantFacts.listMessages_db isISO8601 sqlite fails now user
              groupId q w) as [Heq|Hmark].
  - rewrite Heq. apply evolves_refl.
  - unfold mark_group_read in Hmark. injection Hmark as Hd.
    split; [now rewrite <- Hd|]. split; [now rewrite <- Hd|].
    split; [rewrite <- Hd; cbn; lia|].
    intros (Hinv & Hta). split; [now apply Hkeep|].
    rewrite <- Hd. exact Hta.
Qed.

Lemma edit_evolves trim fails now user messageId content w :
  evolves (w_db w)
    (w_db (snd (editMessage trim fails now user messageId content w))).
Proof.
  destruct (ModerationFacts.editMessage_run trim fails now user messageId content w)
    as [(-> & _) | (_ & Hu & _)]; [apply evolves_refl|].
  unfold update_message in Hu. injection Hu as <-.
  split; [reflexivity|]. split; [reflexivity|]. split; [cbn; lia|].
  intros ([Hmem Hmsg Hass Hst] & Hta).
  split; [constructor | exact Hta]; try assumption.
  - unfold messages_unique in *. cbn [messages set_messages].
    replace (List.map m_id
               (List.map (fun m => if m_id m =? messageId
                                   then edited_row now (trim content) m else m)
                  (messages (w_db w))))
      with (List.map m_id (messages (w_db w))); [exact Hmsg|].
    rewrite List.map_map. apply List.map_ext. intros m.
    now destruct (m_id m =? messageId).
  - unfold messages_assigned in *. cbn [messages seq_messages set_messages].
    apply List.Forall_forall. intros m Hin.
    apply in_map_iff in Hin as (m0 & <- & Hin).
    rewrite List.Forall_forall in Hass. specialize (Hass m0 Hin).
    now destruct (m_id m0 =? messageId).
Qed.

Lemma delete_evolves fails user messageId w :
  evolves (w_db w) (w_db (snd (deleteMessage fails user messageId w))).
Proof.
  destruct (ModerationFacts.deleteMessage_run fails user messageId w)
    as (k & _ & -> & _).
  assert (Hseq : seq_messages (deleted_upto k messageId (w_db w))
                 = seq_messages (w_db w))
    by (destruct k as [|[|[|k]]]; reflexivity).
  split; [destruct k as [|[|[|k]]]; reflexivity|].
  split; [destruct k as [|[|[|k]]]; reflexivity|].
  split; [lia|].
  intros ([Hmem Hmsg Hass Hst] & Hta).
  unfold constraints, tags_assigned, messages_unique, members_unique,
    messages_assigned, status_assigned in *.
  split; [constructor|];
    unfold tags_assigned, messages_unique, members_unique,
      messages_assigned, status_assigned; rewrite ?Hseq;
    destruct k as [|[|[|k]]]; cbn; try assumption;
    try (now apply Forall_filter);
    try (now apply CreateFacts.filter_map_NoDup).
Qed.

Lemma add_valid_tags_rows fails messageId userId tags : forall w,
  exists rows,
    same_but_tags (w_db w)
      (w_db (snd (add_valid_tags fails messageId userId tags w)))
    /\ message_tags (w_db (snd (add_valid_tags fails messageId userId tags w)))
       = message_tags (w_db w) ++ rows
    /\ forall mt, In mt rows -> mt_message mt = messageId.
Proof.
  induction tags as [|t tags IH]; intros w; cbn [add_valid_tags].
  - exists []. split; [apply CreateFacts.same_but_tags_refl|].
    split; [now rewrite app_nil_r | intros mt []].
  - destruct (includes validTags t); [|apply IH].
    unfold bind, runQuery. destruct (fails (w_calls w)).
    + exists []. cbn. split; [apply CreateFacts.same_but_tags_refl|].
      split; [now rewrite app_nil_r | intros mt []].
    + cbn [insert_tag_or_ignore].
      rewrite TagFacts.insert_or_ignore_appends.
      match goal with
      | |- context [add_valid_tags _ _ _ _ ?w0] =>
          destruct (IH w0) as (rows & Hsame & Htags & Hrows)
      end.
      cbn [bump w_db set_message_tags users groups group_members messages
             seq_messages message_status message_tags] in Hsame, Htags.
      eexists (_ :: rows). split; [exact Hsame|]. split.
      * rewrite Htags, <- app_assoc. reflexivity.
      * intros mt [<-|Hin]; [reflexivity | now apply Hrows].
Qed.

Lemma addTags_evolves fails user messageId tags w :
  evolves (w_db w) (w_db (snd (addTags fails user messageId tags w))).
Proof.
  destruct w as [d c]. unfold addTags, catch_500.
  destruct tags as [|t tags]; [apply evolves_refl|].
  unfold bind at 1. unfold getQuery at 1. cbn [w_db w_calls].
  destruct (fails c); [apply evolves_refl|].
  destruct (message_for_member messageId (u_id user) d) as [i|] eqn:Hm;
    [|apply evolves_refl].
  apply PageFacts.message_for_member_spec in Hm as (m & _ & Hin & Hid & _).
  unfold bind.
  match goal with
  | |- context [add_valid_tags _ _ _ _ ?w0] =>
      destruct (add_valid_tags_rows fails messageId (u_id user) (t :: tags) w0)
        as (rows & Hsame & Htags & Hrows);
      destruct (add_valid_tags fails messageId (u_id user) (t :: tags) w0)
        as [[[]|e] w']
  end; unfold ret; cbn [fst snd bump w_db] in *;
    destruct Hsame as (Hu & Hg & Hgm & Hms & Hseq & Hst);
    (split; [exact Hu|]; split; [exact Hg|]; split; [lia|];
     intros ([Hmem Hmsg Hass Hsa] & Hta);
     unfold constraints, tags_assigned, messages_unique, members_unique,
       messages_assigned, status_assigned in *;
     split; [constructor|];
     unfold tags_assigned, messages_unique, members_unique,
       messages_assigned, status_assigned;
     rewrite ?Hgm, ?Hms, ?Hseq, ?Hst, ?Htags; try assumption;
     apply Forall_app; split; [exact Hta|];
     apply List.Forall_forall; intros mt Hmt; rewrite (Hrows mt Hmt);
     rewrite List.Forall_forall in Hass; specialize (Hass m Hin); cbn in Hass;
     lia).
Qed.


Section Serve.
Variable trim : string -> string.
Variable isISO8601 : string -> bool.
Variable sqlite : engine.
Variable like : string -> string -> bool.
Variable user_org : Z -> option Z.
Variable group_org : Z -> option Z.
Variable fails : nat -> bool.

Lemma searchMessages_db user s w :
  w_db (snd (searchMessages like isISO8601 sqlite fails user s w)) = w_db w.
Proof.
  destruct w as [d c]. unfold searchMessages, catch_500, bind.
  destruct (validate_search isISO8601 s); cbn [negb]; [|reflexivity].
  unfold allQuery, getQuery. cbn [w_db w_calls].
  destruct (fails c); [reflexivity|].
  destruct (user_groups (u_id user) d); [reflexivity|].
  cbn. destruct (fails (S c)); reflexivity.
Qed.

Lemma listGroups_db user w :
  w_db (snd (listGroups user_org group_org fails user w)) = w_db w.
Proof.
  destruct w as [d c]. unfold listGroups, catch_500, bind, allQuery, getQuery.
  cbn [w_db w_calls]. destruct (fails c); reflexivity.
Qed.

Lemma addMember_evolves now user groupId r w :
  evolves (w_db w)
    (w_db (snd (addMember user_org fails now user groupId r w))).
Proof.
  pose proof (GroupFacts.addMember_run user_org fails now user groupId r w)
    as H.
  destruct (addMember user_org fails now user groupId r w) as [res w'].
  cbn [snd].
  destruct H as [(-> & _) | (_ & _ & _ & Hfresh & ->)]; [apply evolves_refl|].
  split; [reflexivity|]. split; [reflexivity|]. split; [cbn; lia|].
  intros ([Hmem Hmsg Hass Hst] & Hta).
  split; [constructor | exact Hta]; try assumption.
  unfold members_unique, with_member in *. cbn [group_members].
  rewrite map_app. apply NoDup_snoc; [exact Hmem|].
  cbn [List.map member_of_request gm_group gm_user]. intros Hin.
  apply in_map_iff in Hin as (gm & [= H1 H2] & Hgm).
  apply (Hfresh gm Hgm). now split.
Qed.

Lemma serve_evolves now user req w :
  evolves (w_db w)
    (w_db (snd (serve trim isISO8601 sqlite like user_org group_org fails now
                  user req w))).
Proof.
  destruct req as [g q | r | s | i c | i | i tags | i | | g r]; cbn [serve].
  - pose proof (list_evolves isISO8601 sqlite fails now user g q w) as H.
    now destruct (listMessages isISO8601 sqlite fails now user g q w).
  - pose proof (create_evolves trim sqlite fails now user r w) as H.
    now destruct (createMessage trim sqlite fails now user r w).
  - pose proof (searchMessages_db user s w) as H.
    destruct (searchMessages like isISO8601 sqlite fails user s w).
    cbn [snd] in *.
    rewrite H. apply evolves_refl.
  - pose proof (edit_evolves trim fails now user i c w) as H.
    now destruct (editMessage trim fails now user i c w).
  - pose proof (delete_evolves fails user i w) as H.
    now destruct (deleteMessage fails user i w).
  - pose proof (addTags_evolves fails user i tags w) as H.
    now destruct (addTags fails user i tags w).
  - pose proof (ModerationFacts.getMessageStatus_db fails user i w) as H.
    destruct (getMessageStatus fails user i w). cbn [snd] in *.
    rewrite H. apply evolves_refl.
  - pose proof (listGroups_db user w) as H.
    destruct (listGroups user_org group_org fails user w). cbn [snd] in *.
    rewrite H. apply evolves_refl.
  - pose proof (addMember_evolves now user g r w) as H.
    now destruct (addMember user_org fails now user g r w).
Qed.

Lemma serve_all_evolves reqs : forall w,
  evolves (w_db w)
    (w_db (serve_all trim isISO8601 sqlite like user_org group_org fails reqs
             w)).
Proof.
  induction reqs as [|[[now user] req] reqs IH]; intros w;
    cbn [serve_all fold_left fst snd].
  - apply evolves_refl.
  - eapply evolves_trans; [apply (serve_evolves now user req w)|].
    apply IH.
Qed.

(** Whatever requests the routes serve, for whatever users and whatever
    storage calls fail, the keys of the schema keep holding in the store:
    one membership row per group and user, one message row per id, and no
    message, tag or status row with an id the sequence has not handed out.
    The sequence never goes back, so the id of a deleted message is never
    given to a later one; and no route writes users or groups. *)
Theorem requests_keep_the_constraints reqs w :
  constraints (w_db w) ->
  let d' :=
    w_db (serve_all trim isISO8601 sqlite like user_org group_org fails reqs
            w) in
  constraints d'
  /\ seq_messages (w_db w) <= seq_messages d'
  /\ users d' = users (w_db w) /\ groups d' = groups (w_db w).
Proof.
  intros Hc d'. destruct (serve_all_evolves reqs w) as (H1 & H2 & H3 & H4).
  fold d' in H1, H2, H3, H4. repeat split; try assumption; now apply H4.
Qed.

End Serve.


(** Amina posts, deletes the first message, and Boris posts: the ids 2
    and 3 are handed out, and 1 is not used again. *)
Lemma requests_keep_the_constraints_witness :
  constraints
    (w_db (serve_all Sample.trim Sample.isISO8601 Sample.sqlite
             (fun _ _ => true) MoreSamples.one_org MoreSamples.one_org
             no_fault
             [(200, Sample.amina, CreateMessage Sample.hello);
              (210, Sample.amina, DeleteMessage 1);
              (220, Sample.boris, CreateMessage Sample.hello)]
             (start Sample.db1)))
  /\ List.map m_id
       (messages
          (w_db (serve_all Sample.trim Sample.isISO8601 Sample.sqlite
                   (fun _ _ => true) MoreSamples.one_org
                   MoreSamples.one_org no_fault
                   [(200, Sample.amina, CreateMessage Sample.hello);
                    (210, Sample.amina, DeleteMessage 1);
                    (220, Sample.boris, CreateMessage Sample.hello)]
                   (start Sample.db1))))
     = [2; 3].
Proof.
  split; [|reflexivity].
  apply (requests_keep_the_constraints Sample.trim Sample.isISO8601
           Sample.sqlite (fun _ _ => true)
           MoreSamples.one_org
           MoreSamples.one_org no_fault
           [(200, Sample.amina, CreateMessage Sample.hello);
            (210, Sample.amina, DeleteMessage 1);
            (220, Sample.boris, CreateMessage Sample.hello)]
           (start Sample.db1)).
  split; [constructor|];
    unfold members_unique, messages_unique, messages_assigned, status_assigned,
      tags_assigned; cbn;
    repeat constructor; cbn; try lia;
    intros H; repeat (destruct H as [H|H]; try discriminate H); exact H.
Defined.

End ApiFacts.
